(** * LeafClusterer: grid clustering of map markers

    A shallow embedding of [src/leafclusterer.js] (LeafClusterer, Cluster,
    ClusterMarker_) and of its sibling port [src/unnamed/part_000]
    (L.Marker.Clusterer, L.Marker.Cluster, L.Marker.ClusterMarker).

    Modelling conventions.
    - JavaScript numbers that carry pixel coordinates and the grid size are
      exact rationals ([Q]); zoom levels are integers ([Z]); array lengths
      and member counts are natural numbers.
    - Cluster objects are shared between several arrays (the global
      [clusters_], the viewport snapshot, the candidate list handed to
      [addMarker]), so they live in an object store addressed by allocation
      order and the arrays hold addresses.
    - The host map is a collaborator: its observable answers (bounds, zoom,
      projection) are a record passed to every operation, and the calls the
      engine makes on it ([addLayer], [removeLayer]) are appended to a log.
    - A JavaScript exception ends the operation that raised it and leaves the
      state as it was at the throw. *)

From Stdlib Require Import QArith Qabs Lqa.
From Equations Require Import Equations.
From stdpp Require Import base decidable option list numbers strings pretty.

Local Open Scope nat_scope.

(** ** Host-map collaborator *)

Record LatLng := mkLatLng { lat : Q; lng : Q }.

Module Point.
Record t := mk { x : Q; y : Q }.
End Point.

Record Bounds := mkBounds {
  getSouthWest : LatLng;
  getNorthEast : LatLng;
  contains : LatLng → bool
}.

Record Map := mkMap {
  getBounds : Bounds;
  getZoom : Z;
  getMaxZoom : Z;
  latLngToLayerPoint : LatLng → Point.t
}.

(** A marker is a caller-owned object: [mid] is its identity (what [===]
    compares), [getLatLng] its position. *)
Record Marker := mkMarker { mid : nat; getLatLng : LatLng }.

Definition same_marker (a b : Marker) : bool := Nat.eqb (mid a) (mid b).

(** Comparisons of JavaScript numbers. *)
Definition Qltb (a b : Q) : bool := negb (Qle_bool b a).
Definition Qneb (a b : Q) : bool := negb (Qeq_bool a b).

#[global] Instance Q_eq_dec : EqDecision Q.
Proof. solve_decision. Defined.
#[global] Instance LatLng_eq_dec : EqDecision LatLng.
Proof. solve_decision. Defined.

(** ** Configuration (LeafClustererOptions, MarkerStyleOptions) *)

Record Style := mkStyle { url : string; height : Z; width : Z }.

#[global] Instance Style_eq_dec : EqDecision Style.
Proof. solve_decision. Defined.

Record Options := mkOptions {
  opt_gridSize : option Q;
  opt_maxZoom : option Z;
  opt_styles : option (list Style)
}.

(** The private configuration variables of a LeafClusterer, fixed by the
    constructor. *)
Record Config := mkConfig {
  gridSize_ : Q;
  maxZoom_ : option Z;
  styles_ : list Style
}.

Definition sizes : list Z := [53; 56; 66; 78; 90]%Z.

Definition image_url (i : string) : string :=
  ("http://gmaps-utility-library.googlecode.com/svn/trunk/markerclusterer/images/m"
     +:+ i +:+ ".png")%string.

(** [for (i = 1; i <= 5; ++i) styles_.push({url, height: sizes[i-1], width: sizes[i-1]})] *)
Definition default_styles : list Style :=
  zip_with (λ i s, mkStyle (image_url i) s s) ["1"; "2"; "3"; "4"; "5"]%string sizes.

(** The option handling of the constructor. *)
Definition configure (opt_opts : option Options) : Config :=
  match opt_opts with
  | None => mkConfig 40 None default_styles
  | Some o =>
      mkConfig
        (match opt_gridSize o with
         | Some g => if Qltb 0 g then g else 40%Q
         | None => 40%Q
         end)
        (opt_maxZoom o)
        (match opt_styles o with
         | Some s => if bool_decide (length s ≠ 0) then s else default_styles
         | None => default_styles
         end)
  end.

(** ** Exceptions *)

Inductive error :=
| NotAFunction (name : string)      (* calling a property that is undefined *)
| UndefinedStyle.                   (* reading [.url] of [styles[index - 1]] = undefined *)

Inductive completion := Normal | Throw (e : error).

(** ** ClusterMarker_: the aggregate badge *)

Module ClusterMarker_.

(** Fields are [None] while they are still [undefined]. The div built by
    [initLayout_] is kept as [hidden] ([div_.style.display === "none"]) and
    [innerHTML] (the count it shows). *)
Record t := mk {
  latlng_ : option LatLng;
  styles_ : option (list Style);
  count_ : option nat;
  index_ : option nat;
  style_ : option Style;      (* url_, height_, width_, textColor_, anchor_ *)
  padding_ : option Q;
  updated : bool;
  hidden : bool;
  innerHTML : option nat
}.

Definition blank : t := mk None None None None None None false false None.

(** The argument object of [reset]. Both call sites pass [count]. *)
Record opts := mkOpts {
  o_latLng : option LatLng;
  o_count : nat;
  o_styles : option (list Style);
  o_padding : option Q
}.

(** [while (dv !== 0) { dv = parseInt(dv / 10, 10); index++; }] *)
Equations? digits (dv index : nat) : nat by wf dv lt :=
  digits 0 index := index;
  digits (S n) index := digits (S n / 10) (S index).
Proof. apply Nat.div_lt; lia. Qed.

(** [styles[index - 1]]; index 0 reads [styles[-1]], which is undefined. *)
Definition style_at (styles : list Style) (index : nat) : option Style :=
  match index with
  | 0 => None
  | S k => styles !! k
  end.

(** [reset(opts)]. A field that is still undefined differs from any value
    passed; two values present are compared as values. *)
Definition reset (o : opts) (this : t) : t * completion :=
  (* latLng *)
  let '(this, updated1) :=
    match o_latLng o with
    | Some l =>
        if bool_decide (latlng_ this ≠ Some l)
        then (mk (Some l) (styles_ this) (count_ this) (index_ this) (style_ this)
                 (padding_ this) (updated this) (hidden this) (innerHTML this), true)
        else (this, false)
    | None => (this, false)
    end in
  (* styles *)
  let '(this, styles_updated) :=
    match o_styles o with
    | Some s =>
        if bool_decide (styles_ this ≠ Some s)
        then (mk (latlng_ this) (Some s) (count_ this) (index_ this) (style_ this)
                 (padding_ this) (updated this) (hidden this) (innerHTML this), true)
        else (this, false)
    | None => (this, false)
    end in
  let updated2 := updated1 || styles_updated in
  (* count and style tier *)
  let '(this, c) :=
    if bool_decide (count_ this ≠ Some (o_count o)) || styles_updated then
      let this := mk (latlng_ this) (styles_ this) (Some (o_count o)) (index_ this)
                     (style_ this) (padding_ this) (updated this) (hidden this) (innerHTML this) in
      let index := digits (o_count o) 0 in
      let styles := default [] (styles_ this) in
      let index := if length styles <? index then length styles else index in
      match style_at styles index with
      | Some s =>
          (mk (latlng_ this) (styles_ this) (count_ this) (Some index) (Some s)
              (padding_ this) (updated this) (hidden this) (innerHTML this), Normal)
      | None => (this, Throw UndefinedStyle)
      end
    else (this, Normal) in
  match c with
  | Throw e => (this, Throw e)
  | Normal =>
      let '(this, updated3) :=
        match o_padding o with
        | Some p =>
            if bool_decide (padding_ this ≠ Some p)
            then (mk (latlng_ this) (styles_ this) (count_ this) (index_ this)
                     (style_ this) (Some p) (updated this) (hidden this) (innerHTML this), true)
            else (this, false)
        | None => (this, false)
        end in
      (mk (latlng_ this) (styles_ this) (count_ this) (index_ this) (style_ this)
          (padding_ this) (updated this || (updated2 || updated3)) (hidden this) (innerHTML this), Normal)
  end.

(** [new ClusterMarker_(latLng_, count_, styles_, padding_)] *)
Definition initialize (latLng_ : option LatLng) (count_ : nat)
    (styles_ : list Style) (padding_ : Q) : t * completion :=
  reset (mkOpts latLng_ count_ (Some styles_) (Some padding_)) blank.

(** [initLayout_]: a new, visible div showing [count_]. *)
Definition initLayout_ (this : t) : t :=
  mk (latlng_ this) (styles_ this) (count_ this) (index_ this) (style_ this)
     (padding_ this) (updated this) false (count_ this).

(** [redraw] on a badge that has a div: when [updated] is set the div is
    dropped and [initLayout_] builds a new one. *)
Definition redraw (this : t) : t :=
  if updated this then initLayout_ this else this.

Definition set_hidden (h : bool) (this : t) : t :=
  mk (latlng_ this) (styles_ this) (count_ this) (index_ this) (style_ this)
     (padding_ this) (updated this) h (innerHTML this).

Definition hide : t → t := set_hidden true.
Definition show : t → t := set_hidden false.
Definition isHidden : t → bool := hidden.

(** [onAdd], run by the map's [addLayer]: a fresh container, then [redraw],
    which finds no div yet and calls [initLayout_]. *)
Definition onAdd (this : t) : t := initLayout_ this.

End ClusterMarker_.

(** ** Calls made on the host map *)

(** The wrapper object [{'isAdded': ..., 'marker': ...}]. *)
Record MarkerRef := mkRef { isAdded : bool; marker : Marker }.

Inductive Layer :=
| MarkerLayer (m : Marker)
| BadgeLayer (b : ClusterMarker_.t).

Inductive Event :=
| addLayer (l : Layer)
| removeLayer (l : Layer).

(** ** Cluster *)

Module Cluster.

Record t := mk {
  center_ : option LatLng;
  markers_ : list MarkerRef;
  clusterMarker_ : option ClusterMarker_.t;
  zoom_ : Z
}.

(** [new Cluster(leafClusterer)] *)
Definition new (map : Map) : t := mk None [] None (getZoom map).

Definition getMarkers (this : t) : list MarkerRef := markers_ this.
Definition getCenter (this : t) : option LatLng := center_ this.
Definition getCurrentZoom (this : t) : Z := zoom_ this.
Definition getTotalMarkers (this : t) : nat := length (markers_ this).

Definition isInBounds (lc : Config) (map : Map) (bounds : option Bounds) (this : t) : bool :=
  match center_ this with
  | None => false
  | Some center =>
      let bounds := default (getBounds map) bounds in
      let sw := latLngToLayerPoint map (getSouthWest bounds) in
      let ne := latLngToLayerPoint map (getNorthEast bounds) in
      let centerxy := latLngToLayerPoint map center in
      let inViewport := true in
      let gridSize := gridSize_ lc in
      let gridSize :=
        if negb (zoom_ this =? getZoom map)%Z then
          let dl := (getZoom map - zoom_ this)%Z in
          (2 ^ dl * gridSize)%Q
        else gridSize in
      let inViewport :=
        if Qneb (Point.x ne) (Point.x sw) &&
           (Qltb (Point.x centerxy + gridSize) (Point.x sw) ||
            Qltb (Point.x ne) (Point.x centerxy - gridSize))
        then false else inViewport in
      let inViewport :=
        if inViewport &&
           (Qltb (Point.y centerxy + gridSize) (Point.y ne) ||
            Qltb (Point.y sw) (Point.y centerxy - gridSize))
        then false else inViewport in
      inViewport
  end.

Definition addMarker (ref : MarkerRef) (this : t) : t :=
  let center :=
    match center_ this with
    | None => Some (getLatLng (marker ref))
    | Some c => Some c
    end in
  mk center (markers_ this ++ [ref]) (clusterMarker_ this) (zoom_ this).

(** The loop of [removeMarker]: the first wrapper holding [marker] is
    spliced out, after a [removeLayer] when it was flagged added. *)
Fixpoint removeMarker_loop (m : Marker) (ms : list MarkerRef)
    : option (list MarkerRef * list Event) :=
  match ms with
  | [] => None
  | r :: rest =>
      if same_marker m (marker r) then
        Some (rest, if isAdded r then [removeLayer (MarkerLayer (marker r))] else [])
      else
        match removeMarker_loop m rest with
        | Some (rest', ev) => Some (r :: rest', ev)
        | None => None
        end
  end.

Definition removeMarker (m : Marker) (this : t) : t * list Event * bool :=
  match removeMarker_loop m (markers_ this) with
  | Some (ms, ev) => (mk (center_ this) ms (clusterMarker_ this) (zoom_ this), ev, true)
  | None => (this, [], false)
  end.

Definition set_added (r : MarkerRef) : MarkerRef := mkRef true (marker r).

(** [map_.removeLayer(markers_[i].marker)] for every wrapper flagged added. *)
Definition detach_added (ms : list MarkerRef) : list Event :=
  flat_map (λ r, if isAdded r then [removeLayer (MarkerLayer (marker r))] else []) ms.

Definition redraw_ (lc : Config) (map : Map) (isForce : bool) (this : t)
    : t * list Event * completion :=
  if negb isForce && negb (isInBounds lc map None this) then (this, [], Normal)
  else
    let zoom := getZoom map in
    let mz := default (getMaxZoom map) (maxZoom_ lc) in
    if (mz <=? zoom)%Z || (getTotalMarkers this =? 1) then
      (mk (center_ this)
          (set_added <$> markers_ this)
          (ClusterMarker_.hide <$> clusterMarker_ this)
          zoom,
       (λ r, addLayer (MarkerLayer (marker r))) <$> markers_ this,
       Normal)
    else
      let ev := detach_added (markers_ this) in
      match clusterMarker_ this with
      | None =>
          match ClusterMarker_.initialize (center_ this) (getTotalMarkers this)
                  (styles_ lc) (gridSize_ lc / 2)%Q with
          | (b, Normal) =>
              let b := ClusterMarker_.onAdd b in
              (mk (center_ this) (markers_ this) (Some b) zoom,
               ev ++ [addLayer (BadgeLayer b)], Normal)
          | (_, Throw e) =>
              (mk (center_ this) (markers_ this) None zoom, ev, Throw e)
          end
      | Some b =>
          match ClusterMarker_.reset
                  (ClusterMarker_.mkOpts None (getTotalMarkers this) None None) b with
          | (b, Normal) =>
              let b := ClusterMarker_.redraw b in
              let b := if ClusterMarker_.isHidden b then ClusterMarker_.show b else b in
              (mk (center_ this) (markers_ this) (Some b) zoom, ev, Normal)
          | (b, Throw e) =>
              (mk (center_ this) (markers_ this) (Some b) zoom, ev, Throw e)
          end
      end.

Definition clearMarkers (this : t) : t * list Event :=
  (mk (center_ this) [] (clusterMarker_ this) (zoom_ this),
   match clusterMarker_ this with
   | Some b => [removeLayer (BadgeLayer b)]
   | None => []
   end ++ detach_added (markers_ this)).

(** Property lookup for a method that takes a marker and answers a boolean.
    The constructor installs [getMarkers], [isInBounds], [getCenter],
    [addMarker], [removeMarker], [getCurrentZoom], [redraw_], [clearMarkers]
    and [getTotalMarkers]; of these only [removeMarker] has that shape. Any
    other name that is not installed reads as [undefined]. *)
Definition method_names : list string :=
  ["getMarkers"; "isInBounds"; "getCenter"; "addMarker"; "removeMarker";
   "getCurrentZoom"; "redraw_"; "clearMarkers"; "getTotalMarkers"]%string.

Definition marker_method (name : string)
    : option (Marker → t → t * list Event * bool) :=
  if bool_decide (name ∈ method_names) then
    if bool_decide (name = "removeMarker"%string) then Some removeMarker else None
  else None.

End Cluster.

(** ** LeafClusterer *)

Module LeafClusterer.

(** Address of a Cluster object in the store. *)
Abbreviation addr := nat (only parsing).

(** The mutable private variables [clusters_] and [leftMarkers_], the store
    of Cluster objects and the log of calls made on the map. *)
Record t := mk {
  clusters_ : list addr;
  leftMarkers_ : list Marker;
  store : list Cluster.t;
  log : list Event
}.

Definition empty : t := mk [] [] [] [].

(** Operations run in a state monad with exceptions. *)
Inductive Res (A : Type) :=
| Ret (a : A) (s : t)
| Exn (e : error) (s : t).
Arguments Ret {A} a s.
Arguments Exn {A} e s.

Definition M (A : Type) : Type := t → Res A.

#[global] Instance M_ret : MRet M := λ A a s, Ret a s.
#[global] Instance M_bind : MBind M := λ A B f m s,
  match m s with
  | Ret a s' => f a s'
  | Exn e s' => Exn e s'
  end.

Definition get : M t := λ s, Ret s s.
Definition throw {A} (e : error) : M A := λ s, Exn e s.
Definition emit (ev : list Event) : M unit := λ s,
  Ret tt (mk (clusters_ s) (leftMarkers_ s) (store s) (log s ++ ev)).
Definition set_clusters_ (cl : list addr) : M unit := λ s,
  Ret tt (mk cl (leftMarkers_ s) (store s) (log s)).
Definition set_leftMarkers_ (ms : list Marker) : M unit := λ s,
  Ret tt (mk (clusters_ s) ms (store s) (log s)).
Definition put_cluster (a : addr) (c : Cluster.t) : M unit := λ s,
  Ret tt (mk (clusters_ s) (leftMarkers_ s) (<[a:=c]> (store s)) (log s)).

(** [new Cluster(this, map)]: the object gets the next free address. *)
Definition alloc (c : Cluster.t) : M addr := λ s,
  Ret (length (store s)) (mk (clusters_ s) (leftMarkers_ s) (store s ++ [c]) (log s)).

(** The state an operation leaves behind, however it completed. *)
Definition state_of {A} (r : Res A) : t :=
  match r with
  | Ret _ s => s
  | Exn _ s => s
  end.

Definition completion_of {A} (r : Res A) : completion :=
  match r with
  | Ret _ _ => Normal
  | Exn e _ => Throw e
  end.

(** Method calls on the Cluster object at address [a]. *)
Definition call_redraw_ (lc : Config) (map : Map) (a : addr) (isForce : bool) : M unit :=
  s ← get;
  match store s !! a with
  | None => mret tt
  | Some c =>
      let '(c', ev, r) := Cluster.redraw_ lc map isForce c in
      put_cluster a c';; emit ev;;
      match r with
      | Normal => mret tt
      | Throw e => throw e
      end
  end.

Definition call_addMarker (a : addr) (ref : MarkerRef) : M unit :=
  s ← get;
  match store s !! a with
  | None => mret tt
  | Some c => put_cluster a (Cluster.addMarker ref c)
  end.

Definition call_clearMarkers (a : addr) : M unit :=
  s ← get;
  match store s !! a with
  | None => mret tt
  | Some c => let '(c', ev) := Cluster.clearMarkers c in put_cluster a c';; emit ev
  end.

Definition call_marker_method (f : Marker → Cluster.t → Cluster.t * list Event * bool)
    (a : addr) (m : Marker) : M bool :=
  s ← get;
  match store s !! a with
  | None => mret false
  | Some c => let '(c', ev, b) := f m c in put_cluster a c';; emit ev;; mret b
  end.

Definition isMarkerInViewport_ (map : Map) (m : Marker) : bool :=
  contains (getBounds map) (getLatLng m).

(** The test of the search loop in [addMarker] for one candidate. *)
Definition in_grid (lc : Config) (map : Map) (pos : Point.t) (c : Cluster.t) : bool :=
  match Cluster.getCenter c with
  | None => false
  | Some center =>
      let center := latLngToLayerPoint map center in
      Qle_bool (Point.x center - gridSize_ lc) (Point.x pos) &&
      Qle_bool (Point.x pos) (Point.x center + gridSize_ lc) &&
      Qle_bool (Point.y center - gridSize_ lc) (Point.y pos) &&
      Qle_bool (Point.y pos) (Point.y center + gridSize_ lc)
  end.

(** [for (var i = length - 1; i >= 0; i--)], entered with [i = length]:
    the address of the first candidate, from the end, that passes the test. *)
Fixpoint search (lc : Config) (map : Map) (st : list Cluster.t) (pos : Point.t)
    (clusters : list addr) (i : nat) : option addr :=
  match i with
  | 0 => None
  | S i' =>
      match clusters !! i' with
      | None => search lc map st pos clusters i'
      | Some a =>
          match st !! a with
          | None => search lc map st pos clusters i'
          | Some cluster =>
              if in_grid lc map pos cluster then Some a
              else search lc map st pos clusters i'
          end
      end
  end.

(** [addMarker(marker, opt_isNodraw, opt_isAdded, opt_clusters, opt_isNoCheck)].
    The candidate array is mutated by [push]; its new content is returned. *)
Definition addMarker (lc : Config) (map : Map) (m : Marker) (opt_isNodraw : bool)
    (opt_isAdded : option bool) (opt_clusters : option (list addr))
    (opt_isNoCheck : bool) : M (option (list addr)) :=
  if negb opt_isNoCheck && negb (isMarkerInViewport_ map m) then
    s ← get;
    set_leftMarkers_ (leftMarkers_ s ++ [m]);;
    mret opt_clusters
  else
    let isAdded := default false opt_isAdded in
    let pos := latLngToLayerPoint map (getLatLng m) in
    s ← get;
    let clusters := default (clusters_ s) opt_clusters in
    match search lc map (store s) pos clusters (length clusters) with
    | Some a =>
        call_addMarker a (mkRef isAdded m);;
        (if opt_isNodraw then mret tt else call_redraw_ lc map a false);;
        mret opt_clusters
    | None =>
        a ← alloc (Cluster.new map);
        call_addMarker a (mkRef isAdded m);;
        (if opt_isNodraw then mret tt else call_redraw_ lc map a false);;
        s ← get;
        set_clusters_ (clusters_ s ++ [a]);;
        mret ((λ l, l ++ [a]) <$> opt_clusters)
    end.

(** [removeMarker]: the loop calls the property [remove] of each cluster. *)
Fixpoint removeMarker_loop (lc : Config) (map : Map) (m : Marker) (cl : list addr) : M unit :=
  match cl with
  | [] => mret tt
  | a :: rest =>
      match Cluster.marker_method "remove" with
      | None => throw (NotAFunction "remove")
      | Some remove =>
          call_marker_method remove a m ≫= λ found : bool,
          if found then call_redraw_ lc map a false
          else removeMarker_loop lc map m rest
      end
  end.

Definition removeMarker (lc : Config) (map : Map) (m : Marker) : M unit :=
  s ← get;
  removeMarker_loop lc map m (clusters_ s).

Definition cluster_in_bounds (lc : Config) (map : Map) (bounds : Bounds)
    (st : list Cluster.t) (a : addr) : bool :=
  match st !! a with
  | Some c => Cluster.isInBounds lc map (Some bounds) c
  | None => false
  end.

Definition getClustersInViewport_ (lc : Config) (map : Map) : M (list addr) :=
  s ← get;
  let curBounds := getBounds map in
  mret (filter (λ a, cluster_in_bounds lc map curBounds (store s) a) (clusters_ s)).

Fixpoint redraw_loop (lc : Config) (map : Map) (clusters : list addr) : M unit :=
  match clusters with
  | [] => mret tt
  | a :: rest => call_redraw_ lc map a true;; redraw_loop lc map rest
  end.

Definition redraw_ (lc : Config) (map : Map) : M unit :=
  clusters ← getClustersInViewport_ lc map;
  redraw_loop lc map clusters.

Definition getTotalMarkers (s : t) : nat :=
  foldl (λ result a,
           result + match store s !! a with
                    | Some c => Cluster.getTotalMarkers c
                    | None => 0
                    end) 0 (clusters_ s).

Definition getTotalClusters (s : t) : nat := length (clusters_ s).

(** [for (j = 0; j < clusters_.length; ++j) if (cluster === clusters_[j]) clusters_.splice(j, 1)] *)
Equations? splice_loop (cluster : addr) (cl : list addr) (j : nat) : list addr
    by wf (length cl - j) lt :=
  splice_loop cluster cl j with decide (j < length cl) := {
    | right _ => cl
    | left H with bool_decide (cl !! j = Some cluster) := {
        | true => splice_loop cluster (delete j cl) (S j)
        | false => splice_loop cluster cl (S j) } }.
Proof.
  - rewrite length_delete by (apply lookup_lt_is_Some_2; lia). lia.
  - lia.
Qed.

(** The loop of [resetViewport] over the viewport snapshot. A cluster's
    zoom is a number from its creation on, so the [oldZoom === null] escape
    is never taken. *)
Fixpoint reset_loop (map : Map) (clusters : list addr) (tmpMarkers : list MarkerRef)
    : M (list MarkerRef) :=
  match clusters with
  | [] => mret tmpMarkers
  | a :: rest =>
      s ← get;
      match store s !! a with
      | None => reset_loop map rest tmpMarkers
      | Some cluster =>
          let oldZoom := Cluster.getCurrentZoom cluster in
          let curZoom := getZoom map in
          if negb (curZoom =? oldZoom)%Z then
            let mks := Cluster.getMarkers cluster in
            let tmpMarkers := tmpMarkers ++ ((λ r, mkRef false (marker r)) <$> mks) in
            call_clearMarkers a;;
            s ← get;
            set_clusters_ (splice_loop a (clusters_ s) 0);;
            reset_loop map rest tmpMarkers
          else reset_loop map rest tmpMarkers
      end
  end.

Fixpoint addLeftMarkers_loop (lc : Config) (map : Map) (ms : list Marker) : M unit :=
  match ms with
  | [] => mret tt
  | m :: rest =>
      addMarker lc map m true None None true;;
      addLeftMarkers_loop lc map rest
  end.

Definition addLeftMarkers_ (lc : Config) (map : Map) : M unit :=
  s ← get;
  if length (leftMarkers_ s) =? 0 then mret tt
  else
    let leftMarkers := [] in
    addLeftMarkers_loop lc map (leftMarkers_ s);;
    set_leftMarkers_ leftMarkers.

(** [for (var i = len - 1; i >= 0; --i)], entered with [i = len]. *)
Fixpoint reAddMarkers_loop (lc : Config) (map : Map) (markers : list MarkerRef)
    (i : nat) (clusters : list addr) : M (list addr) :=
  match i with
  | 0 => mret clusters
  | S i' =>
      match markers !! i' with
      | None => reAddMarkers_loop lc map markers i' clusters
      | Some r =>
          cl ← addMarker lc map (marker r) true (Some (isAdded r)) (Some clusters) true;
          reAddMarkers_loop lc map markers i' (default clusters cl)
      end
  end.

Definition reAddMarkers_ (lc : Config) (map : Map) (markers : list MarkerRef) : M unit :=
  let len := length markers in
  let clusters := [] in
  reAddMarkers_loop lc map markers len clusters;;
  addLeftMarkers_ lc map.

Definition resetViewport (lc : Config) (map : Map) : M unit :=
  clusters ← getClustersInViewport_ lc map;
  tmpMarkers ← reset_loop map clusters [];
  reAddMarkers_ lc map tmpMarkers;;
  redraw_ lc map.

Fixpoint addMarkers_loop (lc : Config) (map : Map) (markers : list Marker) : M unit :=
  match markers with
  | [] => mret tt
  | m :: rest =>
      addMarker lc map m true None None false;;
      addMarkers_loop lc map rest
  end.

Definition addMarkers (lc : Config) (map : Map) (markers : list Marker) : M unit :=
  addMarkers_loop lc map markers;;
  redraw_ lc map.

Fixpoint clearMarkers_loop (cl : list addr) : M unit :=
  match cl with
  | [] => mret tt
  | a :: rest => call_clearMarkers a;; clearMarkers_loop rest
  end.

(** [clearMarkers]; the final [map.off(mcfn_)] changes nothing modelled here. *)
Definition clearMarkers : M unit :=
  s ← get;
  clearMarkers_loop (clusters_ s);;
  set_clusters_ [];;
  set_leftMarkers_ [].

(** [new LeafClusterer(map, opt_markers, opt_opts)] *)
Definition create (map : Map) (opt_markers : option (list Marker))
    (opt_opts : option Options) : Config * Res unit :=
  let lc := configure opt_opts in
  (lc, match opt_markers with
       | Some markers => addMarkers lc map markers empty
       | None => Ret tt empty
       end).

End LeafClusterer.

(** ** Sequences of operations *)

(** A public call, made while the host map is in a given condition. *)
Inductive Op :=
| OpAddMarker (m : Marker) (opt_isNodraw : bool) (opt_isAdded : option bool)
    (opt_isNoCheck : bool)
| OpAddMarkers (markers : list Marker)
| OpRemoveMarker (m : Marker)
| OpResetViewport
| OpClearMarkers.

Definition perform (lc : Config) (map : Map) (op : Op) : LeafClusterer.M unit :=
  match op with
  | OpAddMarker m nodraw added nocheck =>
      LeafClusterer.addMarker lc map m nodraw added None nocheck;; mret tt
  | OpAddMarkers markers => LeafClusterer.addMarkers lc map markers
  | OpRemoveMarker m => LeafClusterer.removeMarker lc map m
  | OpResetViewport => LeafClusterer.resetViewport lc map
  | OpClearMarkers => LeafClusterer.clearMarkers
  end.

(** Runs the calls in order; a call that throws leaves its state to the
    next one. The completions are collected, oldest first. *)
Fixpoint run (lc : Config) (ops : list (Map * Op)) (s : LeafClusterer.t)
    : LeafClusterer.t * list completion :=
  match ops with
  | [] => (s, [])
  | (map, op) :: rest =>
      let r := perform lc map op s in
      let '(s', cs) := run lc rest (LeafClusterer.state_of r) in
      (s', LeafClusterer.completion_of r :: cs)
  end.

(** A whole session: construction, then calls. *)
Definition session (map : Map) (opt_markers : option (list Marker))
    (opt_opts : option Options) (ops : list (Map * Op))
    : LeafClusterer.t * list completion :=
  let '(lc, r) := LeafClusterer.create map opt_markers opt_opts in
  let '(s, cs) := run lc ops (LeafClusterer.state_of r) in
  (s, LeafClusterer.completion_of r :: cs).

(** The markers the calls have registered: those handed to the constructor,
    to [addMarker] and to [addMarkers] since the last [clearMarkers]. A call
    of [removeMarker] takes none away: it either finds no cluster at all or
    throws before it touches one. *)
Fixpoint registered (acc : list Marker) (ops : list (Map * Op)) : list Marker :=
  match ops with
  | [] => acc
  | (_, OpAddMarker m _ _ _) :: rest => registered (acc ++ [m]) rest
  | (_, OpAddMarkers ms) :: rest => registered (acc ++ ms) rest
  | (_, OpClearMarkers) :: rest => registered [] rest
  | (_, _) :: rest => registered acc rest
  end.

(** The members of the cluster at an address, and the two containers. *)
Definition members_of (st : list Cluster.t) (a : LeafClusterer.addr) : list Marker :=
  match st !! a with
  | Some c => marker <$> Cluster.markers_ c
  | None => []
  end.

Definition clustered (s : LeafClusterer.t) : list Marker :=
  LeafClusterer.clusters_ s ≫= members_of (LeafClusterer.store s).

Definition all_markers (s : LeafClusterer.t) : list Marker :=
  clustered s ++ LeafClusterer.leftMarkers_ s.

(** Sequences of operations on one Cluster object. *)
Inductive ClusterOp :=
| CAddMarker (ref : MarkerRef)
| CRemoveMarker (m : Marker)
| CClearMarkers.

Definition cluster_step (c : Cluster.t) (op : ClusterOp) : Cluster.t :=
  match op with
  | CAddMarker ref => Cluster.addMarker ref c
  | CRemoveMarker m => (Cluster.removeMarker m c).1.1
  | CClearMarkers => (Cluster.clearMarkers c).1
  end.

Definition cluster_run (ops : list ClusterOp) (c : Cluster.t) : Cluster.t :=
  foldl cluster_step c ops.

(** ** The footprint test of [isInBounds], as the specification words it *)




(** ** Well-formed badges *)

(** What [initialize] establishes for a badge of a clusterer configured by
    [lc], and every later [reset] keeps. *)
Definition badge_ok (lc : Config) (b : ClusterMarker_.t) : Prop :=
  ClusterMarker_.styles_ b = Some (styles_ lc) ∧ ClusterMarker_.updated b = true.

Definition cluster_badge_ok (lc : Config) (c : Cluster.t) : Prop :=
  from_option (badge_ok lc) True (Cluster.clusterMarker_ c).

(** [d] is the number of decimal digits of [n]. *)
Definition decimal_digits (n d : nat) : Prop :=
  1 ≤ d ∧ 10 ^ (d - 1) ≤ n < 10 ^ d.

(** The style tier of a badge agrees with the count [n]: the index is the
    number of decimal digits of [n] clamped to the number of tiers, it lies
    in [1 .. length styles], and the selected style is [styles[index - 1]]. *)
Definition badge_tier (lc : Config) (b : ClusterMarker_.t) (n : nat) : Prop :=
  ∃ d index s,
    ClusterMarker_.count_ b = Some n ∧ decimal_digits n d ∧
    index = Nat.min d (length (styles_ lc)) ∧
    ClusterMarker_.index_ b = Some index ∧
    1 ≤ index ≤ length (styles_ lc) ∧
    styles_ lc !! (index - 1) = Some s ∧
    ClusterMarker_.style_ b = Some s.

(** The badge of a cluster: a count of two or more, with its tier. *)
Definition badge_tier_ok (lc : Config) (b : ClusterMarker_.t) : Prop :=
  ∃ n, 2 ≤ n ∧ badge_tier lc b n.

(** ** Membership and the grid test, in the specification's words *)

(** A marker is a member of a cluster of the global list. *)
Definition in_cluster (m : Marker) (s : LeafClusterer.t) : Prop :=
  ∃ a c, a ∈ LeafClusterer.clusters_ s ∧ LeafClusterer.store s !! a = Some c ∧
         m ∈ marker <$> Cluster.markers_ c.


(** The redraw that [addMarker] requests on the cluster it has just
    filled, unless [opt_isNodraw] is set. *)
Definition redraw_unless (nodraw : bool) (lc : Config) (map : Map) (c : Cluster.t)
    : Cluster.t * list Event * completion :=
  if nodraw then (c, [], Normal) else Cluster.redraw_ lc map false c.

(** Whether the cluster at an address passes the grid test. *)
Definition fits (lc : Config) (map : Map) (st : list Cluster.t) (pos : Point.t)
    (a : LeafClusterer.addr) : bool :=
  match st !! a with
  | Some c => LeafClusterer.in_grid lc map pos c
  | None => false
  end.

(** ** The invariant of the clusterer *)

(** A cluster on the global list has members, a center and, if it has a
    badge, a well-formed one whose tier agrees with its count. *)
Definition good_cluster (lc : Config) (c : Cluster.t) : Prop :=
  Cluster.markers_ c ≠ [] ∧
  is_Some (Cluster.center_ c) ∧
  cluster_badge_ok lc c ∧
  from_option (badge_tier_ok lc) True (Cluster.clusterMarker_ c).

Definition inv (lc : Config) (s : LeafClusterer.t) : Prop :=
  NoDup (LeafClusterer.clusters_ s) ∧
  ∀ a, a ∈ LeafClusterer.clusters_ s →
       ∃ c, LeafClusterer.store s !! a = Some c ∧ good_cluster lc c.

(** Calls that leave the pending list alone or extend it. *)
Definition keeps_pending (op : Op) : Prop :=
  match op with
  | OpResetViewport | OpClearMarkers => False
  | _ => True
  end.

(** ** The re-clustering protocol of [resetViewport], phase by phase *)

(** The remembered zoom of the cluster at [a] differs from the map's. *)
Definition stale (map : Map) (st : list Cluster.t) (a : LeafClusterer.addr) : bool :=
  match st !! a with
  | Some c => negb (getZoom map =? Cluster.zoom_ c)%Z
  | None => false
  end.

(** The clusters to dissolve: in the viewport, with a stale zoom. *)
Definition dissolved (lc : Config) (map : Map) (s : LeafClusterer.t)
    : list LeafClusterer.addr :=
  filter (λ a, stale map (LeafClusterer.store s) a)
    (filter (λ a, LeafClusterer.cluster_in_bounds lc map (getBounds map)
                    (LeafClusterer.store s) a)
       (LeafClusterer.clusters_ s)).

(** The members of a cluster as collected: flagged as not added. *)
Definition collect_refs (st : list Cluster.t) (a : LeafClusterer.addr) : list MarkerRef :=
  match st !! a with
  | Some c => (λ r, mkRef false (marker r)) <$> Cluster.markers_ c
  | None => []
  end.

Definition clear_events (st : list Cluster.t) (a : LeafClusterer.addr) : list Event :=
  match st !! a with
  | Some c => (Cluster.clearMarkers c).2
  | None => []
  end.

(** The temporary list: the members of the dissolved clusters, in order. *)
Definition collected (lc : Config) (map : Map) (s : LeafClusterer.t) : list MarkerRef :=
  dissolved lc map s ≫= collect_refs (LeafClusterer.store s).

(** The state once the dissolved clusters are cleared and taken off the
    global list. *)
Definition dissolve (lc : Config) (map : Map) (s : LeafClusterer.t) : LeafClusterer.t :=
  let d := dissolved lc map s in
  LeafClusterer.mk
    (filter (λ a, a ∉ d) (LeafClusterer.clusters_ s))
    (LeafClusterer.leftMarkers_ s)
    (foldl (λ st a, alter (λ c, (Cluster.clearMarkers c).1) a st) (LeafClusterer.store s) d)
    (LeafClusterer.log s ++ (d ≫= clear_events (LeafClusterer.store s))).

(** Markers go through [addMarker] one after the other, redraw suppressed
    and viewport check bypassed, against the candidate list [clusters]. *)
Fixpoint readd (lc : Config) (map : Map) (ms : list MarkerRef)
    (clusters : list LeafClusterer.addr) : LeafClusterer.M (list LeafClusterer.addr) :=
  match ms with
  | [] => mret clusters
  | r :: rest =>
      cl ← LeafClusterer.addMarker lc map (marker r) true (Some (isAdded r))
             (Some clusters) true;
      readd lc map rest (default clusters cl)
  end.

(** Dissolve; re-add the collected markers in reverse order against a fresh
    empty candidate list; re-attempt the pending markers; redraw the
    clusters in the viewport. *)
Definition resetViewport_protocol (lc : Config) (map : Map) : LeafClusterer.M unit :=
  λ s,
    (readd lc map (reverse (collected lc map s)) [];;
     LeafClusterer.addLeftMarkers_ lc map;;
     LeafClusterer.redraw_ lc map) (dissolve lc map s).

(** ** The sibling port: L.Marker.Clusterer, L.Marker.Cluster, L.Marker.ClusterMarker

    Embedded from [src/unnamed/part_000]. Its objects carry the same state
    under other names ([_center] for [center_], [_markers] for [markers_],
    [_clusters] for [clusters_], ...), so the records, the store and the
    operation monad of the first embedding are reused; every function below
    is transcribed from the port's own text. *)

Module L_Marker_ClusterMarker.

Abbreviation t := ClusterMarker_.t.
Abbreviation _latlng := ClusterMarker_.latlng_.
Abbreviation _styles := ClusterMarker_.styles_.
Abbreviation _count := ClusterMarker_.count_.
Abbreviation _padding := ClusterMarker_.padding_.

(** [while (dv !== 0) { dv = parseInt(dv / 10, 10); index ++; }] *)
Equations? count_digits (dv index : nat) : nat by wf dv lt :=
  count_digits 0 index := index;
  count_digits (S n) index := count_digits (S n / 10) (S index).
Proof. apply Nat.div_lt; lia. Qed.

Definition reset (o : ClusterMarker_.opts) (this : t) : t * completion :=
  let '(this, updated1) :=
    match ClusterMarker_.o_latLng o with
    | Some l =>
        if bool_decide (_latlng this ≠ Some l)
        then (ClusterMarker_.mk (Some l) (_styles this) (_count this)
                (ClusterMarker_.index_ this) (ClusterMarker_.style_ this) (_padding this)
                (ClusterMarker_.updated this) (ClusterMarker_.hidden this)
                (ClusterMarker_.innerHTML this), true)
        else (this, false)
    | None => (this, false)
    end in
  let '(this, styles_updated) :=
    match ClusterMarker_.o_styles o with
    | Some s =>
        if bool_decide (_styles this ≠ Some s)
        then (ClusterMarker_.mk (_latlng this) (Some s) (_count this)
                (ClusterMarker_.index_ this) (ClusterMarker_.style_ this) (_padding this)
                (ClusterMarker_.updated this) (ClusterMarker_.hidden this)
                (ClusterMarker_.innerHTML this), true)
        else (this, false)
    | None => (this, false)
    end in
  let updated2 := updated1 || styles_updated in
  let '(this, c) :=
    if bool_decide (_count this ≠ Some (ClusterMarker_.o_count o)) || styles_updated then
      let this := ClusterMarker_.mk (_latlng this) (_styles this)
                    (Some (ClusterMarker_.o_count o))
                    (ClusterMarker_.index_ this) (ClusterMarker_.style_ this) (_padding this)
                    (ClusterMarker_.updated this) (ClusterMarker_.hidden this)
                    (ClusterMarker_.innerHTML this) in
      let index := count_digits (ClusterMarker_.o_count o) 0 in
      let styles := default [] (_styles this) in
      let index := if length styles <? index then length styles else index in
      match index with
      | 0 => (this, Throw UndefinedStyle)
      | S k =>
          match styles !! k with
          | Some s =>
              (ClusterMarker_.mk (_latlng this) (_styles this) (_count this)
                 (Some index) (Some s) (_padding this)
                 (ClusterMarker_.updated this) (ClusterMarker_.hidden this)
                 (ClusterMarker_.innerHTML this), Normal)
          | None => (this, Throw UndefinedStyle)
          end
      end
    else (this, Normal) in
  match c with
  | Throw e => (this, Throw e)
  | Normal =>
      let '(this, updated3) :=
        match ClusterMarker_.o_padding o with
        | Some p =>
            if bool_decide (_padding this ≠ Some p)
            then (ClusterMarker_.mk (_latlng this) (_styles this) (_count this)
                    (ClusterMarker_.index_ this) (ClusterMarker_.style_ this) (Some p)
                    (ClusterMarker_.updated this) (ClusterMarker_.hidden this)
                    (ClusterMarker_.innerHTML this), true)
            else (this, false)
        | None => (this, false)
        end in
      (ClusterMarker_.mk (_latlng this) (_styles this) (_count this)
         (ClusterMarker_.index_ this) (ClusterMarker_.style_ this) (_padding this)
         (ClusterMarker_.updated this || (updated2 || updated3))
         (ClusterMarker_.hidden this) (ClusterMarker_.innerHTML this), Normal)
  end.

(** [new L.Marker.ClusterMarker(cluster, styles)]: center, count and
    padding are read off the cluster and its clusterer. *)
Definition initialize (clusterer : Config) (cluster : Cluster.t) (styles : list Style)
    : t * completion :=
  reset (ClusterMarker_.mkOpts (Cluster.center_ cluster) (length (Cluster.markers_ cluster))
           (Some styles) (Some (gridSize_ clusterer / 2)%Q))
        ClusterMarker_.blank.

Definition initLayout_ (this : t) : t :=
  ClusterMarker_.mk (_latlng this) (_styles this) (_count this)
    (ClusterMarker_.index_ this) (ClusterMarker_.style_ this) (_padding this)
    (ClusterMarker_.updated this) false (_count this).

Definition redraw (this : t) : t :=
  if ClusterMarker_.updated this then initLayout_ this else this.

Definition hide (this : t) : t :=
  ClusterMarker_.mk (_latlng this) (_styles this) (_count this)
    (ClusterMarker_.index_ this) (ClusterMarker_.style_ this) (_padding this)
    (ClusterMarker_.updated this) true (ClusterMarker_.innerHTML this).

Definition show (this : t) : t :=
  ClusterMarker_.mk (_latlng this) (_styles this) (_count this)
    (ClusterMarker_.index_ this) (ClusterMarker_.style_ this) (_padding this)
    (ClusterMarker_.updated this) false (ClusterMarker_.innerHTML this).

Definition isHidden (this : t) : bool := ClusterMarker_.hidden this.

Definition onAdd (this : t) : t := initLayout_ this.

End L_Marker_ClusterMarker.

Module L_Marker_Cluster.

Abbreviation t := Cluster.t.
Abbreviation _center := Cluster.center_.
Abbreviation _markers := Cluster.markers_.
Abbreviation _clusterMarker := Cluster.clusterMarker_.
Abbreviation _zoom := Cluster.zoom_.

Definition initialize (map : Map) : t := Cluster.mk None [] None (getZoom map).

Definition getMarkers (this : t) : list MarkerRef := _markers this.
Definition getCenter (this : t) : option LatLng := _center this.
Definition getCurrentZoom (this : t) : Z := _zoom this.
Definition getTotalMarkers (this : t) : nat := length (_markers this).

Definition isInBounds (clusterer : Config) (map : Map) (bounds : option Bounds) (this : t)
    : bool :=
  match _center this with
  | None => false
  | Some center =>
      let bounds := match bounds with Some b => b | None => getBounds map end in
      let sw := latLngToLayerPoint map (getSouthWest bounds) in
      let ne := latLngToLayerPoint map (getNorthEast bounds) in
      let centerxy := latLngToLayerPoint map center in
      let gridSize := gridSize_ clusterer in
      let gridSize :=
        if negb (_zoom this =? getZoom map)%Z
        then (2 ^ (getZoom map - _zoom this) * gridSize)%Q
        else gridSize in
      let inViewport :=
        negb (Qneb (Point.x ne) (Point.x sw) &&
              (Qltb (Point.x centerxy + gridSize) (Point.x sw) ||
               Qltb (Point.x ne) (Point.x centerxy - gridSize))) in
      if inViewport &&
         (Qltb (Point.y centerxy + gridSize) (Point.y ne) ||
          Qltb (Point.y sw) (Point.y centerxy - gridSize))
      then false else inViewport
  end.

Definition addMarker (ref : MarkerRef) (this : t) : t :=
  Cluster.mk
    (if _center this is None then Some (getLatLng (marker ref)) else _center this)
    (_markers this ++ [ref]) (_clusterMarker this) (_zoom this).

Fixpoint removeMarker_loop (m : Marker) (ms : list MarkerRef)
    : option (list MarkerRef * list Event) :=
  match ms with
  | [] => None
  | r :: rest =>
      if same_marker m (marker r) then
        Some (rest, if isAdded r then [removeLayer (MarkerLayer (marker r))] else [])
      else
        match removeMarker_loop m rest with
        | Some (rest', ev) => Some (r :: rest', ev)
        | None => None
        end
  end.

Definition removeMarker (m : Marker) (this : t) : t * list Event * bool :=
  match removeMarker_loop m (_markers this) with
  | Some (ms, ev) => (Cluster.mk (_center this) ms (_clusterMarker this) (_zoom this), ev, true)
  | None => (this, [], false)
  end.

Fixpoint detach_added (ms : list MarkerRef) : list Event :=
  match ms with
  | [] => []
  | r :: rest =>
      (if isAdded r then [removeLayer (MarkerLayer (marker r))] else [])
        ++ detach_added rest
  end.

Fixpoint attach_all (ms : list MarkerRef) : list MarkerRef * list Event :=
  match ms with
  | [] => ([], [])
  | r :: rest =>
      let '(rs, ev) := attach_all rest in
      (mkRef true (marker r) :: rs, addLayer (MarkerLayer (marker r)) :: ev)
  end.

Definition _redraw (clusterer : Config) (map : Map) (isForce : bool) (this : t)
    : t * list Event * completion :=
  if negb isForce && negb (isInBounds clusterer map None this) then (this, [], Normal)
  else
    let zoom := getZoom map in
    let mz := match maxZoom_ clusterer with Some z => z | None => getMaxZoom map end in
    if (mz <=? zoom)%Z || (getTotalMarkers this =? 1) then
      let '(ms, ev) := attach_all (_markers this) in
      (Cluster.mk (_center this) ms
         (match _clusterMarker this with
          | Some b => Some (L_Marker_ClusterMarker.hide b)
          | None => None
          end) zoom, ev, Normal)
    else
      let ev := detach_added (_markers this) in
      match _clusterMarker this with
      | None =>
          match L_Marker_ClusterMarker.initialize clusterer
                  (Cluster.mk (_center this) (_markers this) None zoom)
                  (styles_ clusterer) with
          | (b, Normal) =>
              let b := L_Marker_ClusterMarker.onAdd b in
              (Cluster.mk (_center this) (_markers this) (Some b) zoom,
               ev ++ [addLayer (BadgeLayer b)], Normal)
          | (_, Throw e) => (Cluster.mk (_center this) (_markers this) None zoom, ev, Throw e)
          end
      | Some b =>
          match L_Marker_ClusterMarker.reset
                  (ClusterMarker_.mkOpts None (getTotalMarkers this) None None) b with
          | (b, Normal) =>
              let b := L_Marker_ClusterMarker.redraw b in
              let b := if L_Marker_ClusterMarker.isHidden b
                       then L_Marker_ClusterMarker.show b else b in
              (Cluster.mk (_center this) (_markers this) (Some b) zoom, ev, Normal)
          | (b, Throw e) => (Cluster.mk (_center this) (_markers this) (Some b) zoom, ev, Throw e)
          end
      end.

Definition clearMarkers (this : t) : t * list Event :=
  (Cluster.mk (_center this) [] (_clusterMarker this) (_zoom this),
   (if _clusterMarker this is Some b then [removeLayer (BadgeLayer b)] else [])
     ++ detach_added (_markers this)).

(** The methods [L.Class.extend] gives the prototype; [removeMarker] is the
    only one that takes a marker and answers a boolean. *)
Definition method_names : list string :=
  ["initialize"; "getMarkers"; "isInBounds"; "getCenter"; "addMarker"; "removeMarker";
   "getCurrentZoom"; "_redraw"; "clearMarkers"; "getTotalMarkers"]%string.

Definition marker_method (name : string)
    : option (Marker → t → t * list Event * bool) :=
  if bool_decide (name ∈ method_names) then
    if bool_decide (name = "removeMarker"%string) then Some removeMarker else None
  else None.

End L_Marker_Cluster.

Module L_Marker_Clusterer.

Import LeafClusterer.

Abbreviation _clusters := clusters_.
Abbreviation _leftMarkers := leftMarkers_.
Abbreviation _gridSize := gridSize_.
Abbreviation _maxZoom := maxZoom_.
Abbreviation _styles := styles_.

Definition _sizes : list Z := [53; 56; 66; 78; 90]%Z.

(** The loop of [initialize] that fills [this._styles]. *)
Fixpoint default_styles_from (i : nat) (sizes : list Z) : list Style :=
  match sizes with
  | [] => []
  | size :: rest =>
      mkStyle ("http://gmaps-utility-library.googlecode.com/svn/trunk/markerclusterer/images/m"
                 +:+ pretty i +:+ ".png")%string size size
        :: default_styles_from (S i) rest
  end.

(** The option handling of [initialize]. *)
Definition configure (opt_opts : option Options) : Config :=
  let gridSize := 40%Q in
  let maxZoom := None in
  let styles := default_styles_from 1 _sizes in
  match opt_opts with
  | None => mkConfig gridSize maxZoom styles
  | Some o =>
      let gridSize :=
        match opt_gridSize o with
        | Some g => if Qltb 0 g then g else gridSize
        | None => gridSize
        end in
      let maxZoom := match opt_maxZoom o with Some z => Some z | None => maxZoom end in
      let styles :=
        match opt_styles o with
        | Some s => if bool_decide (length s ≠ 0) then s else styles
        | None => styles
        end in
      mkConfig gridSize maxZoom styles
  end.

Definition _isMarkerInViewport (map : Map) (m : Marker) : bool :=
  contains (getBounds map) (getLatLng m).

Definition update_cluster (a : addr) (f : Cluster.t → Cluster.t * list Event * completion)
    : M unit :=
  λ s,
    match store s !! a with
    | None => Ret tt s
    | Some c =>
        let '(c', ev, r) := f c in
        let s' := mk (_clusters s) (_leftMarkers s) (<[a:=c']> (store s)) (log s ++ ev) in
        match r with
        | Normal => Ret tt s'
        | Throw e => Exn e s'
        end
    end.

Definition in_grid (this : Config) (map : Map) (pos : Point.t) (cluster : Cluster.t) : bool :=
  match L_Marker_Cluster.getCenter cluster with
  | None => false
  | Some center =>
      let center := latLngToLayerPoint map center in
      Qle_bool (Point.x center - _gridSize this) (Point.x pos) &&
      Qle_bool (Point.x pos) (Point.x center + _gridSize this) &&
      Qle_bool (Point.y center - _gridSize this) (Point.y pos) &&
      Qle_bool (Point.y pos) (Point.y center + _gridSize this)
  end.

Fixpoint search (this : Config) (map : Map) (st : list Cluster.t) (pos : Point.t)
    (clusters : list addr) (i : nat) : option addr :=
  match i with
  | 0 => None
  | S i' =>
      match clusters !! i' ≫= λ a, (λ c, (a, c)) <$> st !! a with
      | Some (a, cluster) =>
          if in_grid this map pos cluster then Some a
          else search this map st pos clusters i'
      | None => search this map st pos clusters i'
      end
  end.

Definition addMarker (this : Config) (map : Map) (m : Marker) (opt_isNodraw : bool)
    (opt_isAdded : option bool) (opt_clusters : option (list addr))
    (opt_isNoCheck : bool) : M (option (list addr)) :=
  λ s,
    if negb opt_isNoCheck && negb (_isMarkerInViewport map m) then
      Ret opt_clusters (mk (_clusters s) (_leftMarkers s ++ [m]) (store s) (log s))
    else
      let isAdded := match opt_isAdded with Some b => b | None => false end in
      let clusters := match opt_clusters with Some l => l | None => _clusters s end in
      let pos := latLngToLayerPoint map (getLatLng m) in
      let ref := mkRef isAdded m in
      let draw (a : addr) : M unit :=
        if opt_isNodraw then mret tt
        else update_cluster a (L_Marker_Cluster._redraw this map false) in
      match search this map (store s) pos clusters (length clusters) with
      | Some a =>
          (update_cluster a (λ c, (L_Marker_Cluster.addMarker ref c, [], Normal));;
           draw a;;
           mret opt_clusters) s
      | None =>
          let a := length (store s) in
          (update_cluster a (λ c, (L_Marker_Cluster.addMarker ref c, [], Normal));;
           draw a;;
           s' ← get;
           set_clusters_ (_clusters s' ++ [a]);;
           mret (match opt_clusters with Some l => Some (l ++ [a]) | None => None end))
            (mk (_clusters s) (_leftMarkers s)
                (store s ++ [L_Marker_Cluster.initialize map]) (log s))
      end.

Fixpoint removeMarker_loop (this : Config) (map : Map) (m : Marker) (cl : list addr)
    : M unit :=
  match cl with
  | [] => mret tt
  | a :: rest =>
      match L_Marker_Cluster.marker_method "remove" with
      | None => throw (NotAFunction "remove")
      | Some remove =>
          λ s,
            match store s !! a with
            | None => removeMarker_loop this map m rest s
            | Some c =>
                let '(c', ev, found) := remove m c in
                let s' := mk (_clusters s) (_leftMarkers s) (<[a:=c']> (store s))
                             (log s ++ ev) in
                if found
                then update_cluster a (L_Marker_Cluster._redraw this map false) s'
                else removeMarker_loop this map m rest s'
            end
      end
  end.

Definition removeMarker (this : Config) (map : Map) (m : Marker) : M unit :=
  λ s, removeMarker_loop this map m (_clusters s) s.

Fixpoint getClustersInViewport_loop (this : Config) (map : Map) (curBounds : Bounds)
    (st : list Cluster.t) (cl : list addr) : list addr :=
  match cl with
  | [] => []
  | a :: rest =>
      let tail := getClustersInViewport_loop this map curBounds st rest in
      match st !! a with
      | Some c =>
          if L_Marker_Cluster.isInBounds this map (Some curBounds) c then a :: tail else tail
      | None => tail
      end
  end.

Definition getClustersInViewport (this : Config) (map : Map) (s : t) : list addr :=
  getClustersInViewport_loop this map (getBounds map) (store s) (_clusters s).

Fixpoint redraw_loop (this : Config) (map : Map) (clusters : list addr) : M unit :=
  match clusters with
  | [] => mret tt
  | a :: rest =>
      update_cluster a (L_Marker_Cluster._redraw this map true);;
      redraw_loop this map rest
  end.

Definition redraw (this : Config) (map : Map) : M unit :=
  λ s, redraw_loop this map (getClustersInViewport this map s) s.

Fixpoint getTotalMarkers_loop (st : list Cluster.t) (cl : list addr) (result : nat) : nat :=
  match cl with
  | [] => result
  | a :: rest =>
      getTotalMarkers_loop st rest
        (result + match st !! a with
                  | Some c => L_Marker_Cluster.getTotalMarkers c
                  | None => 0
                  end)
  end.

Definition getTotalMarkers (s : t) : nat := getTotalMarkers_loop (store s) (_clusters s) 0.

Definition getTotalClusters (s : t) : nat := length (_clusters s).

(** [for (j = 0; j < this._clusters.length; ++j)
      if (cluster === this._clusters[j]) this._clusters.splice(j, 1)] *)
Equations? splice_clusters (cluster : addr) (cl : list addr) (j : nat) : list addr
    by wf (length cl - j) lt :=
  splice_clusters cluster cl j with decide (j < length cl) := {
    | right _ => cl
    | left H with bool_decide (cl !! j = Some cluster) := {
        | true => splice_clusters cluster (delete j cl) (S j)
        | false => splice_clusters cluster cl (S j) } }.
Proof.
  - rewrite length_delete by (apply lookup_lt_is_Some_2; lia). lia.
  - lia.
Qed.

Fixpoint resetViewport_loop (map : Map) (clusters : list addr) (tmpMarkers : list MarkerRef)
    : M (list MarkerRef) :=
  match clusters with
  | [] => mret tmpMarkers
  | a :: rest =>
      λ s,
        match store s !! a with
        | None => resetViewport_loop map rest tmpMarkers s
        | Some cluster =>
            let oldZoom := L_Marker_Cluster.getCurrentZoom cluster in
            let curZoom := getZoom map in
            if (curZoom =? oldZoom)%Z then resetViewport_loop map rest tmpMarkers s
            else
              let mks := L_Marker_Cluster.getMarkers cluster in
              let tmpMarkers := tmpMarkers ++ ((λ r, mkRef false (marker r)) <$> mks) in
              let '(c', ev) := L_Marker_Cluster.clearMarkers cluster in
              resetViewport_loop map rest tmpMarkers
                (mk (splice_clusters a (_clusters s) 0) (_leftMarkers s)
                    (<[a:=c']> (store s)) (log s ++ ev))
        end
  end.

Fixpoint _addLeftMarkers_loop (this : Config) (map : Map) (ms : list Marker) : M unit :=
  match ms with
  | [] => mret tt
  | m :: rest =>
      addMarker this map m true None None true;;
      _addLeftMarkers_loop this map rest
  end.

Definition _addLeftMarkers (this : Config) (map : Map) : M unit :=
  λ s,
    match _leftMarkers s with
    | [] => Ret tt s
    | ms => (_addLeftMarkers_loop this map ms;; set_leftMarkers_ []) s
    end.

Fixpoint _reAddMarkers_loop (this : Config) (map : Map) (markers : list MarkerRef)
    (i : nat) (clusters : list addr) : M (list addr) :=
  match i with
  | 0 => mret clusters
  | S i' =>
      match markers !! i' with
      | None => _reAddMarkers_loop this map markers i' clusters
      | Some r =>
          cl ← addMarker this map (marker r) true (Some (isAdded r)) (Some clusters) true;
          _reAddMarkers_loop this map markers i' (default clusters cl)
      end
  end.

Definition _reAddMarkers (this : Config) (map : Map) (markers : list MarkerRef) : M unit :=
  _reAddMarkers_loop this map markers (length markers) [];;
  _addLeftMarkers this map.

Definition resetViewport (this : Config) (map : Map) : M unit :=
  λ s,
    (tmpMarkers ← resetViewport_loop map (getClustersInViewport this map s) [];
     _reAddMarkers this map tmpMarkers;;
     redraw this map) s.

Fixpoint addMarkers_loop (this : Config) (map : Map) (markers : list Marker) : M unit :=
  match markers with
  | [] => mret tt
  | m :: rest =>
      addMarker this map m true None None false;;
      addMarkers_loop this map rest
  end.

Definition addMarkers (this : Config) (map : Map) (markers : list Marker) : M unit :=
  addMarkers_loop this map markers;;
  redraw this map.

Fixpoint clearMarkers_loop (cl : list addr) : M unit :=
  match cl with
  | [] => mret tt
  | a :: rest =>
      update_cluster a (λ c, let '(c', ev) := L_Marker_Cluster.clearMarkers c in
                             (c', ev, Normal));;
      clearMarkers_loop rest
  end.

Definition clearMarkers : M unit :=
  λ s,
    (clearMarkers_loop (_clusters s);;
     set_clusters_ [];;
     set_leftMarkers_ []) s.

(** [new L.Marker.Clusterer(map, opt_markers, opt_opts)] *)
Definition initialize (map : Map) (opt_markers : option (list Marker))
    (opt_opts : option Options) : Config * Res unit :=
  let this := configure opt_opts in
  (this, match opt_markers with
         | Some markers => addMarkers this map markers empty
         | None => Ret tt empty
         end).

Definition perform (this : Config) (map : Map) (op : Op) : M unit :=
  match op with
  | OpAddMarker m nodraw added nocheck =>
      addMarker this map m nodraw added None nocheck;; mret tt
  | OpAddMarkers markers => addMarkers this map markers
  | OpRemoveMarker m => removeMarker this map m
  | OpResetViewport => resetViewport this map
  | OpClearMarkers => clearMarkers
  end.

Fixpoint run (this : Config) (ops : list (Map * Op)) (s : t) : t * list completion :=
  match ops with
  | [] => (s, [])
  | (map, op) :: rest =>
      let r := perform this map op s in
      let '(s', cs) := run this rest (state_of r) in
      (s', completion_of r :: cs)
  end.

Definition session (map : Map) (opt_markers : option (list Marker))
    (opt_opts : option Options) (ops : list (Map * Op)) : t * list completion :=
  let '(this, r) := initialize map opt_markers opt_opts in
  let '(s, cs) := run this ops (state_of r) in
  (s, completion_of r :: cs).

End L_Marker_Clusterer.

(** ** Sample data *)

(** A projection that reads a position as pixel coordinates
    ([lng] as [x], [lat] as [y]). *)
Definition cx_proj (l : LatLng) : Point.t := Point.mk (lng l) (lat l).


(** The scenario of the specification: grid size 40, max zoom 18, a
    viewport of 2000 by 2000 pixels around the origin, markers at pixels
    (0,0), (10,10) and (200,200); a fourth marker lies outside the viewport
    and a fifth near the first. *)
Definition w_marker1 : Marker := mkMarker 1 (mkLatLng 0 0).
Definition w_marker2 : Marker := mkMarker 2 (mkLatLng 10 10).
Definition w_marker3 : Marker := mkMarker 3 (mkLatLng 200 200).
Definition w_marker4 : Marker := mkMarker 4 (mkLatLng 5000 5000).
Definition w_marker5 : Marker := mkMarker 5 (mkLatLng 20 (-15)).

Definition w_bounds : Bounds :=
  mkBounds (mkLatLng 1000 (-1000)) (mkLatLng (-1000) 1000)
    (λ l, Qle_bool (-1000) (lat l) && Qle_bool (lat l) 1000 &&
          Qle_bool (-1000) (lng l) && Qle_bool (lng l) 1000).

Definition w_map (zoom : Z) : Map := mkMap w_bounds zoom 18 cx_proj.

Definition w_opts : option Options := Some (mkOptions (Some 40%Q) (Some 18%Z) None).

Definition w_lc : Config := configure w_opts.

(** A cluster of two, one of them flagged added, stamped at zoom 10. *)
Definition w_pair : Cluster.t :=
  Cluster.mk (Some (mkLatLng 0 0)) [mkRef true w_marker1; mkRef false w_marker2] None 10.

(** The clusterer after [addMarkers] of the four markers at zoom 10. *)
Definition w_state1 : LeafClusterer.t :=
  LeafClusterer.state_of
    (LeafClusterer.addMarkers w_lc (w_map 10)
       [w_marker1; w_marker2; w_marker3; w_marker4] LeafClusterer.empty).


(** ** Further notions used to state what the operations guarantee *)

(** The first wrapper a sequence of Cluster operations adds. *)
Fixpoint first_added (ops : list ClusterOp) : option MarkerRef :=
  match ops with
  | [] => None
  | CAddMarker ref :: _ => Some ref
  | _ :: rest => first_added rest
  end.






(** No cluster of the global list that is in the viewport carries a zoom
    stamp other than the map's current zoom. *)
Definition viewport_fresh (lc : Config) (map : Map) (s : LeafClusterer.t) : Prop :=
  ∀ a, a ∈ LeafClusterer.clusters_ s →
       LeafClusterer.cluster_in_bounds lc map (getBounds map) (LeafClusterer.store s) a = true →
       stale map (LeafClusterer.store s) a = false.

(** Sequences of operations on one badge. A [reset] that fails leaves the
    badge as it was at the throw. *)
Inductive BadgeOp :=
| BReset (o : ClusterMarker_.opts)
| BRedraw
| BHide
| BShow.

Definition badge_step (b : ClusterMarker_.t) (op : BadgeOp) : ClusterMarker_.t :=
  match op with
  | BReset o => (ClusterMarker_.reset o b).1
  | BRedraw => ClusterMarker_.redraw b
  | BHide => ClusterMarker_.hide b
  | BShow => ClusterMarker_.show b
  end.

Definition badge_run (ops : list BadgeOp) (b : ClusterMarker_.t) : ClusterMarker_.t :=
  foldl badge_step b ops.











(** A badge for two markers, built with the default styles. *)
Definition w_badge : ClusterMarker_.t :=
  (ClusterMarker_.initialize (Some (mkLatLng 0 0)) 2 default_styles 20).1.




(** * Proofs *)

(** * Cluster-level facts *)

Lemma Qltb_false_iff (a b : Q) : Qltb a b = false ↔ (b <= a)%Q.
Proof.
  unfold Qltb. rewrite negb_false_iff. apply Qle_bool_iff.
Qed.






(** ** The digit loop of [reset] *)

Lemma digits_mono dv index : index ≤ ClusterMarker_.digits dv index.
Proof.
  funelim (ClusterMarker_.digits dv index); simp digits; [lia|].
  etrans; [|apply H]. lia.
Qed.

Lemma digits_pos dv index : 1 ≤ dv → S index ≤ ClusterMarker_.digits dv index.
Proof.
  intros Hdv. destruct dv as [|n]; [lia|]. simp digits. apply digits_mono.
Qed.

Lemma digits_shift dv index : ClusterMarker_.digits dv index = ClusterMarker_.digits dv 0 + index.
Proof.
  revert index. induction dv as [dv IH] using lt_wf_ind. intros index.
  destruct dv as [|n]; simp digits; [lia|].
  assert (Hlt : S n / 10 < S n) by (apply Nat.div_lt; lia).
  rewrite (IH _ Hlt (S index)), (IH _ Hlt 1). lia.
Qed.

(** The loop counts the decimal digits: it answers [d] exactly when
    [10^(d-1) ≤ dv < 10^d]. *)
Lemma digits_bounds dv : 1 ≤ dv →
  10 ^ (ClusterMarker_.digits dv 0 - 1) ≤ dv < 10 ^ ClusterMarker_.digits dv 0.
Proof.
  induction dv as [dv IH] using lt_wf_ind. intros Hdv.
  destruct dv as [|n]; [lia|]. simp digits. rewrite digits_shift.
  assert (Hlt : S n / 10 < S n) by (apply Nat.div_lt; lia).
  destruct (decide (S n / 10 = 0)) as [Hz|Hnz].
  - rewrite Hz. simp digits. simpl.
    apply Nat.div_small_iff in Hz; lia.
  - specialize (IH _ Hlt ltac:(lia)).
    set (d := ClusterMarker_.digits (S n / 10) 0) in *.
    assert (Hd : 1 ≤ d) by (apply (digits_pos (S n / 10) 0); lia).
    replace (d + 1 - 1) with (S (d - 1)) by lia.
    replace (d + 1) with (S d) by lia.
    rewrite !Nat.pow_succ_r'.
    pose proof (Nat.div_mod (S n) 10 ltac:(lia)) as Hdm.
    pose proof (Nat.mod_upper_bound (S n) 10 ltac:(lia)) as Hm.
    lia.
Qed.

Lemma digits_decimal n : 1 ≤ n → decimal_digits n (ClusterMarker_.digits n 0).
Proof.
  intros Hn. split; [by apply (digits_pos n 0)|by apply digits_bounds].
Qed.

Lemma clamp_min (len index : nat) :
  (if len <? index then len else index) = Nat.min index len.
Proof. destruct (Nat.ltb_spec len index); lia. Qed.

Lemma style_at_clamped (styles : list Style) (index : nat) :
  styles ≠ [] → 1 ≤ index →
  ∃ s, ClusterMarker_.style_at styles (Nat.min index (length styles)) = Some s ∧
       styles !! (Nat.min index (length styles) - 1) = Some s.
Proof.
  intros Hne Hi. destruct styles as [|s0 styles]; [done|].
  destruct (Nat.min index (length (s0 :: styles))) as [|k] eqn:Hk; [simpl in Hk; lia|].
  assert (Hlt : k < length (s0 :: styles)) by lia.
  apply lookup_lt_is_Some_2 in Hlt as [s Hs].
  exists s. simpl. rewrite Nat.sub_0_r. done.
Qed.

Lemma badge_tier_fresh lc b n s :
  styles_ lc ≠ [] → 1 ≤ n →
  ClusterMarker_.count_ b = Some n →
  ClusterMarker_.index_ b = Some (Nat.min (ClusterMarker_.digits n 0) (length (styles_ lc))) →
  styles_ lc !! (Nat.min (ClusterMarker_.digits n 0) (length (styles_ lc)) - 1) = Some s →
  ClusterMarker_.style_ b = Some s →
  badge_tier lc b n.
Proof.
  intros Hst Hn Hc Hi Hlk Hs.
  exists (ClusterMarker_.digits n 0),
         (Nat.min (ClusterMarker_.digits n 0) (length (styles_ lc))), s.
  split; [done|]. split; [by apply digits_decimal|].
  split; [done|]. split; [done|]. split; [|done].
  pose proof (digits_pos n 0 Hn). destruct (styles_ lc); [done|]. simpl. lia.
Qed.

(** [reset({count: n})] on a well-formed badge. *)
Lemma reset_count lc b n :
  styles_ lc ≠ [] → badge_ok lc b → 1 ≤ n →
  ∃ b', ClusterMarker_.reset (ClusterMarker_.mkOpts None n None None) b = (b', Normal) ∧
        badge_ok lc b' ∧
        ClusterMarker_.count_ b' = Some n ∧
        ClusterMarker_.hidden b' = ClusterMarker_.hidden b ∧
        ClusterMarker_.innerHTML b' = ClusterMarker_.innerHTML b ∧
        (∀ n0, badge_tier lc b n0 → badge_tier lc b' n).
Proof.
  intros Hst [Hs Hu] Hn. unfold ClusterMarker_.reset. simpl.
  case_bool_decide as Hc; simpl.
  - rewrite Hs. simpl. rewrite clamp_min.
    destruct (style_at_clamped (styles_ lc) (ClusterMarker_.digits n 0) Hst
                (digits_pos n 0 Hn)) as (s & Hat & Hlk).
    rewrite Hat. eexists. split; [reflexivity|]. simpl.
    rewrite Hu. simpl. split; [done|]. do 3 (split; [done|]).
    intros n0 _. by apply (badge_tier_fresh lc _ n s).
  - eexists. split; [reflexivity|]. simpl.
    rewrite Hu. simpl. split; [done|]. do 3 (split; [done|]).
    intros n0 (d & i & s & H1 & H2). assert (n0 = n) as -> by congruence.
    exists d, i, s. done.
Qed.

(** [new ClusterMarker_(center, n, styles, padding)] *)
Lemma initialize_ok lc center n pad :
  styles_ lc ≠ [] → 1 ≤ n →
  ∃ b', ClusterMarker_.initialize center n (styles_ lc) pad = (b', Normal) ∧
        badge_ok lc b' ∧
        ClusterMarker_.count_ b' = Some n ∧
        ClusterMarker_.latlng_ b' = center ∧
        badge_tier lc b' n.
Proof.
  intros Hst Hn. unfold ClusterMarker_.initialize, ClusterMarker_.reset. simpl.
  destruct (style_at_clamped (styles_ lc) (ClusterMarker_.digits n 0) Hst
              (digits_pos n 0 Hn)) as (s & Hat & Hlk).
  destruct center as [l|]; simpl; rewrite clamp_min, Hat; simpl.
  all: eexists; split; [reflexivity|]; simpl.
  all: split; [done|]; do 2 (split; [done|]).
  all: by apply (badge_tier_fresh lc _ n s).
Qed.

(** At count 0 the digit loop answers 0, the clamp keeps it, and the style
    lookup reads [styles[-1]]. *)
Lemma initialize_count_zero_throws center styles pad :
  (ClusterMarker_.initialize center 0 styles pad).2 = Throw UndefinedStyle.
Proof.
  unfold ClusterMarker_.initialize, ClusterMarker_.reset. simpl.
  destruct center; simpl; by destruct (length styles <? 0).
Qed.

(** * Display mode *)

Lemma set_added_spec (ms : list MarkerRef) :
  marker <$> (Cluster.set_added <$> ms) = marker <$> ms ∧
  Forall (λ r, isAdded r = true) (Cluster.set_added <$> ms).
Proof.
  split.
  - rewrite <- list_fmap_compose. by apply list_fmap_ext.
  - apply Forall_fmap, Forall_true. done.
Qed.



(** * Center and members *)

Lemma cluster_run_snoc ops op c :
  cluster_run (ops ++ [op]) c = cluster_step (cluster_run ops c) op.
Proof. unfold cluster_run. by rewrite foldl_app. Qed.

Lemma cluster_step_center c op :
  is_Some (Cluster.center_ c) → is_Some (Cluster.center_ (cluster_step c op)).
Proof.
  intros Hc. destruct op as [ref|m|]; simpl.
  - unfold Cluster.addMarker. simpl. by destruct (Cluster.center_ c).
  - unfold Cluster.removeMarker.
    destruct (Cluster.removeMarker_loop m (Cluster.markers_ c)) as [[ms ev]|]; done.
  - done.
Qed.

(** C8, as amended. Whatever operations a cluster has gone through since
    its creation, it has a center whenever it has members; and right after
    [addMarker] it has both, so there the center is unset exactly when the
    members list is empty. *)
Theorem center_set_when_members (map : Map) (ops : list ClusterOp) :
  let c := cluster_run ops (Cluster.new map) in
  (Cluster.markers_ c = [] ∨ is_Some (Cluster.center_ c)) ∧
  ∀ ref, let c' := cluster_step c (CAddMarker ref) in
         is_Some (Cluster.center_ c') ∧ Cluster.markers_ c' ≠ [] ∧
         (Cluster.center_ c' = None ↔ Cluster.markers_ c' = []).
Proof.
  simpl. split.
  - induction ops as [|op ops IH] using rev_ind; [by left|].
    rewrite cluster_run_snoc.
    destruct IH as [IH|IH]; [|right; by apply cluster_step_center].
    destruct op as [ref|m|]; simpl.
    + right. unfold Cluster.addMarker. simpl. by destruct (Cluster.center_ _).
    + left. unfold Cluster.removeMarker. rewrite IH. done.
    + by left.
  - intros ref. unfold Cluster.addMarker. simpl.
    assert (H1 : is_Some (match Cluster.center_ (cluster_run ops (Cluster.new map)) with
                          | Some c => Some c
                          | None => Some (getLatLng (marker ref))
                          end)) by (by destruct (Cluster.center_ _)).
    assert (H2 : Cluster.markers_ (cluster_run ops (Cluster.new map)) ++ [ref] ≠ [])
      by (by destruct (Cluster.markers_ _)).
    split; [done|]. split; [done|]. split; intros H.
    + rewrite H in H1. by destruct H1.
    + done.
Qed.

(** C8, as first stated, fails: after [addMarker] and [clearMarkers] the
    members list is empty and the center is still set. *)
Lemma center_kept_by_clearMarkers :
  let c := cluster_run [CAddMarker (mkRef false w_marker1); CClearMarkers]
             (Cluster.new (w_map 10)) in
  ¬ (Cluster.center_ c = None ↔ Cluster.markers_ c = []).
Proof.
  simpl. intros [_ H]. specialize (H eq_refl). discriminate H.
Qed.

(** * removeMarker *)

(** C6: on the code, [removeMarker] calls the property [remove] of the first
    cluster, which no Cluster has; with any cluster present the call throws
    and nothing is removed. *)
Theorem removeMarker_throws (lc : Config) (map : Map) (m : Marker) (s : LeafClusterer.t) :
  LeafClusterer.clusters_ s ≠ [] →
  LeafClusterer.removeMarker lc map m s = LeafClusterer.Exn (NotAFunction "remove") s.
Proof.
  intros Hne. unfold LeafClusterer.removeMarker.
  unfold mbind, LeafClusterer.M_bind, LeafClusterer.get.
  destruct (LeafClusterer.clusters_ s) as [|a rest]; done.
Qed.

Lemma removeMarker_throws_witness :
  clustered w_state1 = [w_marker1; w_marker2; w_marker3] ∧
  LeafClusterer.removeMarker w_lc (w_map 10) w_marker1 w_state1
  = LeafClusterer.Exn (NotAFunction "remove") w_state1.
Proof.
  split; [vm_compute; reflexivity|].
  apply (removeMarker_throws w_lc (w_map 10) w_marker1 w_state1).
  vm_compute. discriminate.
Defined.

Import LeafClusterer.

(** * Cluster-level redraw keeps center and members *)

Lemma redraw_keeps lc map f c :
  Cluster.center_ (Cluster.redraw_ lc map f c).1.1 = Cluster.center_ c ∧
  marker <$> Cluster.markers_ (Cluster.redraw_ lc map f c).1.1 = marker <$> Cluster.markers_ c.
Proof.
  unfold Cluster.redraw_.
  destruct (negb f && negb (Cluster.isInBounds lc map None c)); [done|].
  destruct (_ || _).
  - simpl. split; [done|]. apply set_added_spec.
  - destruct (Cluster.clusterMarker_ c);
      repeat match goal with |- context [match ?t with _ => _ end] =>
        destruct t as [? []] end; done.
Qed.

Lemma redraw_single lc map f c :
  length (Cluster.markers_ c) = 1 → (Cluster.redraw_ lc map f c).2 = Normal.
Proof.
  intros H. unfold Cluster.redraw_, Cluster.getTotalMarkers. rewrite H.
  destruct (negb f && negb (Cluster.isInBounds lc map None c)); [done|].
  by rewrite orb_true_r.
Qed.

Lemma redraw_unless_keeps nodraw lc map c :
  Cluster.center_ (redraw_unless nodraw lc map c).1.1 = Cluster.center_ c ∧
  marker <$> Cluster.markers_ (redraw_unless nodraw lc map c).1.1
    = marker <$> Cluster.markers_ c.
Proof.
  unfold redraw_unless. destruct nodraw; [done|]. apply redraw_keeps.
Qed.

Lemma redraw_unless_single nodraw lc map c :
  length (Cluster.markers_ c) = 1 → (redraw_unless nodraw lc map c).2 = Normal.
Proof.
  unfold redraw_unless. destruct nodraw; [done|]. apply redraw_single.
Qed.

(** * The search loop *)

Lemma search_fits lc map st pos clusters i a :
  search lc map st pos clusters i = Some a →
  ∃ k, k < i ∧ clusters !! k = Some a ∧ fits lc map st pos a = true ∧
       ∀ j b, k < j < i → clusters !! j = Some b → fits lc map st pos b = false.
Proof.
  induction i as [|i IH]; [done|]. simpl. unfold fits in *.
  destruct (clusters !! i) as [b|] eqn:Hb.
  - destruct (st !! b) as [c|] eqn:Hc.
    + destruct (in_grid lc map pos c) eqn:Hg.
      * intros [= ->]. exists i. rewrite Hc. split; [lia|]. do 2 (split; [done|]).
        intros j b' Hj. lia.
      * intros (k & Hk & Hka & Hf & Hlast)%IH. exists k. split; [lia|].
        do 2 (split; [done|]). intros j b' Hj Hb'.
        destruct (decide (j = i)) as [->|]; [|apply (Hlast j); [lia|done]].
        rewrite Hb in Hb'. injection Hb' as <-. by rewrite Hc.
    + intros (k & Hk & Hka & Hf & Hlast)%IH. exists k. split; [lia|].
      do 2 (split; [done|]). intros j b' Hj Hb'.
      destruct (decide (j = i)) as [->|]; [|apply (Hlast j); [lia|done]].
      rewrite Hb in Hb'. injection Hb' as <-. by rewrite Hc.
  - intros (k & Hk & Hka & Hf & Hlast)%IH. exists k. split; [lia|].
    do 2 (split; [done|]). intros j b' Hj Hb'.
    destruct (decide (j = i)) as [->|]; [|apply (Hlast j); [lia|done]].
    congruence.
Qed.


Lemma fits_lookup lc map st pos a :
  fits lc map st pos a = true → ∃ c, st !! a = Some c ∧ in_grid lc map pos c = true.
Proof.
  unfold fits. destruct (st !! a) as [c|]; [|done]. intros H. by exists c.
Qed.


(** * What [addMarker] computes *)

Lemma addMarker_deferred lc map m nodraw added opt_clusters s :
  isMarkerInViewport_ map m = false →
  addMarker lc map m nodraw added opt_clusters false s
  = Ret opt_clusters (mk (clusters_ s) (leftMarkers_ s ++ [m]) (store s) (log s)).
Proof.
  intros Hv. unfold addMarker. rewrite Hv. reflexivity.
Qed.

Lemma call_redraw_unless lc map a (nodraw : bool) c s :
  store s !! a = Some c →
  (if nodraw then (mret tt : M unit) else call_redraw_ lc map a false) s
  = let s' := mk (clusters_ s) (leftMarkers_ s)
                 (<[a:=(redraw_unless nodraw lc map c).1.1]> (store s))
                 (log s ++ (redraw_unless nodraw lc map c).1.2) in
    match (redraw_unless nodraw lc map c).2 with
    | Normal => Ret tt s'
    | Throw e => Exn e s'
    end.
Proof.
  intros Hc. unfold redraw_unless. destruct nodraw; simpl.
  - rewrite list_insert_id by done. rewrite app_nil_r. by destruct s.
  - unfold call_redraw_, mbind, M_bind, get. rewrite Hc.
    destruct (Cluster.redraw_ lc map false c) as [[c' ev] r]. simpl.
    by destruct r.
Qed.

Lemma addMarker_join lc map m nodraw added opt_clusters nocheck s a c :
  nocheck = true ∨ isMarkerInViewport_ map m = true →
  search lc map (store s) (latLngToLayerPoint map (getLatLng m))
    (default (clusters_ s) opt_clusters)
    (length (default (clusters_ s) opt_clusters)) = Some a →
  store s !! a = Some c →
  addMarker lc map m nodraw added opt_clusters nocheck s
  = let c1 := Cluster.addMarker (mkRef (default false added) m) c in
    let s' := mk (clusters_ s) (leftMarkers_ s)
                 (<[a:=(redraw_unless nodraw lc map c1).1.1]> (store s))
                 (log s ++ (redraw_unless nodraw lc map c1).1.2) in
    match (redraw_unless nodraw lc map c1).2 with
    | Normal => Ret opt_clusters s'
    | Throw e => Exn e s'
    end.
Proof.
  intros Hv Hs Hc. unfold addMarker.
  replace (negb nocheck && negb (isMarkerInViewport_ map m)) with false
    by (destruct Hv as [-> | ->]; by rewrite ?andb_false_r).
  unfold mbind at 1, M_bind at 1, get at 1. rewrite Hs.
  unfold mbind at 1, M_bind at 1.
  unfold call_addMarker. unfold mbind at 1, M_bind at 1, get at 1. rewrite Hc.
  unfold put_cluster.
  unfold mbind at 1, M_bind at 1.
  pose proof (lookup_lt_Some _ _ _ Hc) as Hlt.
  rewrite (call_redraw_unless lc map a nodraw
             (Cluster.addMarker (mkRef (default false added) m) c)); simpl.
  2: { by apply list_lookup_insert_eq. }
  rewrite list_insert_insert_eq.
  by destruct (redraw_unless nodraw lc map _).2.
Qed.

Lemma addMarker_new lc map m nodraw added opt_clusters nocheck s :
  nocheck = true ∨ isMarkerInViewport_ map m = true →
  search lc map (store s) (latLngToLayerPoint map (getLatLng m))
    (default (clusters_ s) opt_clusters)
    (length (default (clusters_ s) opt_clusters)) = None →
  addMarker lc map m nodraw added opt_clusters nocheck s
  = let a := length (store s) in
    let c1 := Cluster.addMarker (mkRef (default false added) m) (Cluster.new map) in
    Ret ((λ l, l ++ [a]) <$> opt_clusters)
        (mk (clusters_ s ++ [a]) (leftMarkers_ s)
            (store s ++ [(redraw_unless nodraw lc map c1).1.1])
            (log s ++ (redraw_unless nodraw lc map c1).1.2)).
Proof.
  intros Hv Hs. unfold addMarker.
  replace (negb nocheck && negb (isMarkerInViewport_ map m)) with false
    by (destruct Hv as [-> | ->]; by rewrite ?andb_false_r).
  unfold mbind at 1, M_bind at 1, get at 1. rewrite Hs.
  unfold mbind at 1, M_bind at 1, alloc at 1.
  unfold mbind at 1, M_bind at 1.
  unfold call_addMarker. unfold mbind at 1, M_bind at 1, get at 1. simpl.
  rewrite lookup_app_r by lia. rewrite Nat.sub_diag. simpl.
  unfold put_cluster. simpl.
  unfold mbind at 1, M_bind at 1.
  set (c1 := Cluster.addMarker (mkRef (default false added) m) (Cluster.new map)).
  rewrite (call_redraw_unless lc map (length (store s)) nodraw c1); simpl.
  2: { rewrite list_lookup_insert_eq; [done|]. rewrite length_app. simpl. lia. }
  rewrite (redraw_unless_single nodraw lc map c1) by done.
  rewrite list_insert_insert_eq.
  replace (<[length (store s):=(redraw_unless nodraw lc map c1).1.1]> (store s ++ [Cluster.new map]))
    with (store s ++ [(redraw_unless nodraw lc map c1).1.1]).
  2: { rewrite insert_app_r_alt by lia. by rewrite Nat.sub_diag. }
  reflexivity.
Qed.

(** Exactly one of the three applies. *)
Lemma addMarker_cases lc map m opt_clusters nocheck s :
  let pos := latLngToLayerPoint map (getLatLng m) in
  let clusters := default (clusters_ s) opt_clusters in
  (nocheck = false ∧ isMarkerInViewport_ map m = false) ∨
  ((nocheck = true ∨ isMarkerInViewport_ map m = true) ∧
   ((∃ a c, search lc map (store s) pos clusters (length clusters) = Some a ∧
            store s !! a = Some c) ∨
    search lc map (store s) pos clusters (length clusters) = None)).
Proof.
  intros pos clusters.
  destruct nocheck, (isMarkerInViewport_ map m) eqn:Hv; auto.
  all: right; split; auto.
  all: destruct (search lc map (store s) pos clusters (length clusters)) as [a|] eqn:Hs; auto.
  all: left; exists a.
  all: apply search_fits in Hs as (k & _ & _ & (c & Hc & _)%fits_lookup & _); eauto.
Qed.


(** * The splice loop *)

Lemma splice_end a cl j : length cl ≤ j → splice_loop a cl j = cl.
Proof.
  intros H. rewrite splice_loop_equation_1.
  destruct (decide (j < length cl)); [lia|done].
Qed.

Lemma splice_hit a cl j :
  cl !! j = Some a → splice_loop a cl j = splice_loop a (delete j cl) (S j).
Proof.
  intros H. rewrite splice_loop_equation_1.
  destruct (decide (j < length cl)) as [Hlt|Hge].
  - simpl. rewrite <- splice_loop_clause_1_clause_2_equation_1 with (H := Hlt).
    by rewrite bool_decide_eq_true_2.
  - apply lookup_lt_Some in H. lia.
Qed.

Lemma splice_miss a cl j :
  j < length cl → cl !! j ≠ Some a → splice_loop a cl j = splice_loop a cl (S j).
Proof.
  intros Hlt H. rewrite splice_loop_equation_1.
  destruct (decide (j < length cl)) as [Hlt'|Hge]; [|lia].
  simpl. rewrite <- splice_loop_clause_1_clause_2_equation_2 with (H := Hlt').
  by rewrite bool_decide_eq_false_2.
Qed.

Lemma splice_absent a cl j :
  (∀ k, j ≤ k → cl !! k ≠ Some a) → splice_loop a cl j = cl.
Proof.
  remember (length cl - j) as n eqn:Hn. revert j Hn.
  induction n as [|n IH]; intros j Hn Habs.
  - apply splice_end. lia.
  - rewrite splice_miss; [|lia|by apply Habs].
    apply IH; [lia|]. intros k Hk. apply Habs. lia.
Qed.

Lemma splice_found a l1 l2 j :
  j ≤ length l1 → (∀ k, j ≤ k → l1 !! k ≠ Some a) → a ∉ l2 →
  splice_loop a (l1 ++ a :: l2) j = l1 ++ l2.
Proof.
  remember (length l1 - j) as n eqn:Hn. revert j Hn.
  induction n as [|n IH]; intros j Hn Hj Hl1 Hl2.
  - assert (j = length l1) as -> by lia.
    rewrite splice_hit by (by rewrite list_lookup_middle).
    rewrite delete_middle. apply splice_absent.
    intros k Hk Hlk. rewrite lookup_app_r in Hlk by lia.
    apply list_elem_of_lookup_2 in Hlk. done.
  - rewrite splice_miss.
    + apply IH; [lia|lia| |done]. intros k Hk. apply Hl1. lia.
    + rewrite length_app. simpl. lia.
    + rewrite lookup_app_l by lia. by apply Hl1.
Qed.

Lemma filter_ne_notin (a : addr) (l : list addr) :
  a ∉ l → filter (λ b, b ≠ a) l = l.
Proof.
  induction l as [|b l IH]; [done|]. intros Hn.
  apply not_elem_of_cons in Hn as [Hne Hn].
  rewrite filter_cons_True by (intros ->; done). by rewrite IH.
Qed.

(** On a list without repetition the loop removes the cluster. *)
Lemma splice_loop_filter a cl :
  NoDup cl → splice_loop a cl 0 = filter (λ b, b ≠ a) cl.
Proof.
  intros Hnd. destruct (decide (a ∈ cl)) as [Hin|Hnin].
  - apply list_elem_of_split in Hin as (l1 & l2 & ->).
    apply NoDup_app in Hnd as (_ & Hd & [Hl2 _]%NoDup_cons).
    assert (Hl1 : a ∉ l1) by (intros Hin; apply (Hd a Hin); left).
    rewrite splice_found; [|lia| |done].
    + rewrite filter_app, filter_cons_False by (intros H; by apply H).
      by rewrite !filter_ne_notin.
    + intros k _ Hk. apply list_elem_of_lookup_2 in Hk. done.
  - rewrite splice_absent.
    + by rewrite filter_ne_notin.
    + intros k _ Hk. apply list_elem_of_lookup_2 in Hk. done.
Qed.

(** * Members of the clusters of a list of addresses *)

Lemma members_of_insert_ne st a b c :
  a ≠ b → members_of (<[a:=c]> st) b = members_of st b.
Proof. intros H. unfold members_of. by rewrite list_lookup_insert_ne. Qed.

Lemma members_of_insert_eq st a c :
  a < length st → members_of (<[a:=c]> st) a = marker <$> Cluster.markers_ c.
Proof. intros H. unfold members_of. by rewrite list_lookup_insert_eq. Qed.

Lemma members_of_app st c b :
  b < length st → members_of (st ++ [c]) b = members_of st b.
Proof. intros H. unfold members_of. by rewrite lookup_app_l. Qed.

Lemma list_bind_ext_in {A B} (f g : A → list B) (l : list A) :
  (∀ x, x ∈ l → f x = g x) → l ≫= f = l ≫= g.
Proof.
  induction l as [|x l IH]; [done|]. intros H.
  rewrite !bind_cons, (H x) by left. f_equal. apply IH. intros y Hy. apply H. by right.
Qed.

Lemma bind_members_insert_same (cl : list addr) st a c c' :
  st !! a = Some c →
  marker <$> Cluster.markers_ c' = marker <$> Cluster.markers_ c →
  cl ≫= members_of (<[a:=c']> st) = cl ≫= members_of st.
Proof.
  intros Hc Hm. apply list_bind_ext_in. intros b _.
  destruct (decide (a = b)) as [Heq|Hne]; [|by rewrite members_of_insert_ne].
  subst b. rewrite members_of_insert_eq by (by eapply lookup_lt_Some).
  unfold members_of. by rewrite Hc.
Qed.

Lemma bind_members_insert_other (cl : list addr) st a c :
  a ∉ cl → cl ≫= members_of (<[a:=c]> st) = cl ≫= members_of st.
Proof.
  intros H. apply list_bind_ext_in. intros b Hb.
  apply members_of_insert_ne. by intros ->.
Qed.

Lemma bind_members_app (cl : list addr) st c :
  (∀ b, b ∈ cl → b < length st) →
  cl ≫= members_of (st ++ [c]) = cl ≫= members_of st.
Proof.
  intros H. apply list_bind_ext_in. intros b Hb. apply members_of_app. by apply H.
Qed.

(** The cluster at [a] gains the markers [ms]. *)
Lemma bind_members_insert_gain (cl : list addr) st a c c' ms :
  NoDup cl → a ∈ cl → st !! a = Some c →
  marker <$> Cluster.markers_ c' = (marker <$> Cluster.markers_ c) ++ ms →
  cl ≫= members_of (<[a:=c']> st) ≡ₚ (cl ≫= members_of st) ++ ms.
Proof.
  intros Hnd Hin Hc Hm.
  apply list_elem_of_split in Hin as (l1 & l2 & ->).
  apply NoDup_app in Hnd as (_ & Hd & [Hl2 _]%NoDup_cons).
  assert (Hl1 : a ∉ l1) by (intros Hin; apply (Hd a Hin); left).
  rewrite !bind_app, !bind_cons.
  rewrite !bind_members_insert_other by done.
  rewrite members_of_insert_eq by (by eapply lookup_lt_Some).
  rewrite Hm.
  replace (members_of st a) with (marker <$> Cluster.markers_ c)
    by (unfold members_of; by rewrite Hc).
  rewrite <- !app_assoc. f_equiv. f_equiv. apply Permutation_app_comm.
Qed.

(** Taking [a] out of the list takes its members out. *)
Lemma bind_members_remove (cl : list addr) st a :
  NoDup cl → a ∈ cl →
  cl ≫= members_of st ≡ₚ (filter (λ b, b ≠ a) cl ≫= members_of st) ++ members_of st a.
Proof.
  intros Hnd Hin.
  apply list_elem_of_split in Hin as (l1 & l2 & ->).
  apply NoDup_app in Hnd as (_ & Hd & [Hl2 _]%NoDup_cons).
  assert (Hl1 : a ∉ l1) by (intros Hin; apply (Hd a Hin); left).
  rewrite filter_app, filter_cons_False by (intros H; by apply H).
  rewrite !filter_ne_notin by done.
  rewrite !bind_app, bind_cons. rewrite <- !app_assoc. f_equiv. apply Permutation_app_comm.
Qed.

Lemma in_cluster_clustered m s : in_cluster m s ↔ m ∈ clustered s.
Proof.
  unfold in_cluster, clustered. rewrite list_elem_of_bind. split.
  - intros (a & c & Ha & Hc & Hm). exists a. split; [|done].
    unfold members_of. by rewrite Hc.
  - intros (a & Hm & Ha). unfold members_of in Hm.
    destruct (store s !! a) as [c|] eqn:Hc; [|by apply elem_of_nil in Hm].
    by exists a, c.
Qed.

(** * The invariant is kept *)

Lemma configure_styles opt_opts : styles_ (configure opt_opts) ≠ [].
Proof.
  destruct opt_opts as [[g z [s|]]|]; simpl; try done.
  case_bool_decide as H; [|done]. by destruct s.
Qed.

(** A redraw of a good cluster completes normally and leaves it good. *)
Lemma redraw_good lc map f c :
  styles_ lc ≠ [] → good_cluster lc c →
  (Cluster.redraw_ lc map f c).2 = Normal ∧ good_cluster lc (Cluster.redraw_ lc map f c).1.1.
Proof.
  intros Hst (Hm & Hc & Hb & Ht).
  unfold Cluster.redraw_.
  destruct (negb f && negb (Cluster.isInBounds lc map None c)); [done|].
  unfold Cluster.getTotalMarkers.
  destruct (_ || _) eqn:Hmode; simpl.
  - split; [done|]. split; [by destruct (Cluster.markers_ c)|]. split; [done|].
    unfold cluster_badge_ok in *. simpl.
    destruct (Cluster.clusterMarker_ c) as [b|]; simpl in *; [|done].
    split; [done|].
    destruct Ht as (n & Hn & d & i & s & H). exists n. split; [done|].
    exists d, i, s. exact H.
  - apply orb_false_iff in Hmode as [_ Hn%Nat.eqb_neq].
    assert (Hn2 : 2 ≤ length (Cluster.markers_ c)).
    { destruct (Cluster.markers_ c) as [|? [|? ?]]; simpl in *; [done|done|lia]. }
    unfold cluster_badge_ok in *.
    destruct (Cluster.clusterMarker_ c) as [b|] eqn:Hcm; simpl in Hb, Ht.
    + destruct (reset_count lc b (length (Cluster.markers_ c)) Hst Hb ltac:(lia))
        as (b' & -> & [Hs' Hu'] & Hc' & Hh' & Hi' & Ht').
      simpl. split; [done|]. split; [done|]. split; [done|].
      unfold ClusterMarker_.redraw. rewrite Hu'. simpl.
      destruct Ht as (n0 & _ & Ht0).
      split; [done|]. exists (length (Cluster.markers_ c)). split; [done|].
      destruct (Ht' n0 Ht0) as (d & i & s & H). exists d, i, s. exact H.
    + destruct (initialize_ok lc (Cluster.center_ c) (length (Cluster.markers_ c)) (gridSize_ lc / 2)%Q Hst ltac:(lia))
        as (b' & -> & [Hs' Hu'] & Hc' & Hl' & Ht').
      simpl. split; [done|]. split; [done|]. split; [done|].
      split; [done|]. exists (length (Cluster.markers_ c)). split; [done|].
      destruct Ht' as (d & i & s & H). exists d, i, s. exact H.
Qed.

Lemma redraw_unless_good nodraw lc map c :
  styles_ lc ≠ [] → good_cluster lc c →
  (redraw_unless nodraw lc map c).2 = Normal ∧
  good_cluster lc (redraw_unless nodraw lc map c).1.1.
Proof.
  unfold redraw_unless. destruct nodraw; [done|]. apply redraw_good.
Qed.

Lemma addMarker_good lc ref c :
  cluster_badge_ok lc c →
  from_option (badge_tier_ok lc) True (Cluster.clusterMarker_ c) →
  good_cluster lc (Cluster.addMarker ref c).
Proof.
  intros Hb Ht. unfold Cluster.addMarker. split; simpl.
  - by destruct (Cluster.markers_ c).
  - split; [by destruct (Cluster.center_ c)|]. done.
Qed.

Lemma inv_lookup lc s a :
  inv lc s → a ∈ clusters_ s → a < length (store s).
Proof.
  intros [_ H] Ha. destruct (H a Ha) as (c & Hc & _). by eapply lookup_lt_Some.
Qed.

(** The store changes at one address of the global list, to a good cluster
    with the same members plus [ms]. *)
Lemma inv_insert lc s a c c' ms ev :
  inv lc s → a ∈ clusters_ s → store s !! a = Some c → good_cluster lc c' →
  marker <$> Cluster.markers_ c' = (marker <$> Cluster.markers_ c) ++ ms →
  let s' := mk (clusters_ s) (leftMarkers_ s) (<[a:=c']> (store s)) (log s ++ ev) in
  inv lc s' ∧ clustered s' ≡ₚ clustered s ++ ms.
Proof.
  intros [Hnd Hall] Ha Hc Hg Hm s'. split; [split|].
  - done.
  - intros b Hb. simpl in *. destruct (decide (a = b)) as [->|Hne].
    + exists c'. split; [|done]. apply list_lookup_insert_eq. by eapply lookup_lt_Some.
    + rewrite list_lookup_insert_ne by done. by apply Hall.
  - unfold clustered. simpl. by eapply bind_members_insert_gain.
Qed.

Lemma addMarker_inv lc map m nodraw added opt_clusters nocheck s :
  styles_ lc ≠ [] → inv lc s →
  (∀ a, a ∈ default (clusters_ s) opt_clusters → a ∈ clusters_ s) →
  ∃ r s', addMarker lc map m nodraw added opt_clusters nocheck s = Ret r s' ∧
    inv lc s' ∧
    (∀ a, a ∈ default (clusters_ s') r → a ∈ clusters_ s') ∧
    (is_Some opt_clusters → is_Some r) ∧
    ((nocheck = false ∧ isMarkerInViewport_ map m = false ∧
      clustered s' = clustered s ∧ leftMarkers_ s' = leftMarkers_ s ++ [m]) ∨
     ((nocheck = true ∨ isMarkerInViewport_ map m = true) ∧
      leftMarkers_ s' = leftMarkers_ s ∧ clustered s' ≡ₚ clustered s ++ [m])).
Proof.
  intros Hst Hinv Hsub.
  destruct (addMarker_cases lc map m opt_clusters nocheck s)
    as [[-> Hout] | [Hv [(a & c & Hs & Hc) | Hs]]].
  - rewrite addMarker_deferred by done. eexists _, _. split; [reflexivity|].
    split; [done|]. split; [by destruct opt_clusters|]. split; [done|]. left. done.
  - rewrite (addMarker_join lc map m nodraw added opt_clusters nocheck s a c Hv Hs Hc).
    simpl.
    assert (Ha : a ∈ clusters_ s).
    { apply Hsub. apply search_fits in Hs as (k & _ & Hk & _).
      by eapply list_elem_of_lookup_2. }
    destruct Hinv as [Hnd Hall]. destruct (Hall a Ha) as (c0 & Hc0 & Hg0).
    assert (c0 = c) as -> by congruence.
    set (ref := mkRef (default false added) m).
    assert (Hg1 : good_cluster lc (Cluster.addMarker ref c)).
    { apply addMarker_good; apply Hg0. }
    destruct (redraw_unless_good nodraw lc map _ Hst Hg1) as [-> Hg2].
    destruct (redraw_unless_keeps nodraw lc map (Cluster.addMarker ref c)) as [_ Hk].
    destruct (inv_insert lc s a c (redraw_unless nodraw lc map (Cluster.addMarker ref c)).1.1
                [m] (redraw_unless nodraw lc map (Cluster.addMarker ref c)).1.2
                (conj Hnd Hall) Ha Hc Hg2) as [Hinv' Hperm].
    { rewrite Hk. simpl. by rewrite fmap_app. }
    eexists _, _. split; [reflexivity|]. split; [exact Hinv'|].
    split; [by destruct opt_clusters|]. split; [done|]. right. done.
  - rewrite (addMarker_new lc map m nodraw added opt_clusters nocheck s Hv Hs). simpl.
    set (ref := mkRef (default false added) m).
    set (c1 := Cluster.addMarker ref (Cluster.new map)).
    assert (Hg1 : good_cluster lc c1) by (by apply addMarker_good).
    destruct (redraw_unless_good nodraw lc map _ Hst Hg1) as [_ Hg2].
    destruct (redraw_unless_keeps nodraw lc map c1) as [_ Hk].
    eexists _, _. split; [reflexivity|].
    assert (Hlt : ∀ b, b ∈ clusters_ s → b < length (store s))
      by (intros b Hb; by eapply inv_lookup).
    destruct Hinv as [Hnd Hall].
    split; [split|].
    + simpl. apply NoDup_app. split; [done|]. split; [|apply NoDup_singleton].
      intros b Hb ->%list_elem_of_singleton. specialize (Hlt _ Hb). lia.
    + simpl. intros b [Hb| ->%list_elem_of_singleton]%elem_of_app.
      * destruct (Hall b Hb) as (c & Hc & Hg). exists c. split; [|done].
        rewrite lookup_app_l; [done|]. by apply Hlt.
      * eexists. split; [|exact Hg2]. rewrite lookup_app_r by lia.
        by rewrite Nat.sub_diag.
    + split.
      { destruct opt_clusters as [l|]; simpl; [|done].
        intros b [Hb| ->%list_elem_of_singleton]%elem_of_app.
        - apply elem_of_app. left. by apply Hsub.
        - apply elem_of_app. right. by left. }
      split; [by intros [l ->]|]. right. split; [done|]. split; [done|].
      unfold clustered. simpl. rewrite bind_app, bind_singleton.
      rewrite bind_members_app by done.
      unfold members_of. rewrite lookup_app_r by lia. rewrite Nat.sub_diag. simpl.
      by rewrite Hk.
Qed.

Lemma bind_Ret {A B} (m : M A) (f : A → M B) s a s' :
  m s = Ret a s' → (m ≫= f) s = f a s'.
Proof. intros H. unfold mbind, M_bind. by rewrite H. Qed.

(** * Redrawing *)

Lemma call_redraw_eq lc map a f c s :
  store s !! a = Some c →
  call_redraw_ lc map a f s
  = let x := Cluster.redraw_ lc map f c in
    let s' := mk (clusters_ s) (leftMarkers_ s) (<[a:=x.1.1]> (store s)) (log s ++ x.1.2) in
    match x.2 with
    | Normal => Ret tt s'
    | Throw e => Exn e s'
    end.
Proof.
  intros Hc. unfold call_redraw_, mbind, M_bind, get. rewrite Hc.
  destruct (Cluster.redraw_ lc map f c) as [[c' ev] r]. simpl. by destruct r.
Qed.

Lemma call_redraw_inv lc map a f s :
  styles_ lc ≠ [] → inv lc s → a ∈ clusters_ s →
  ∃ s', call_redraw_ lc map a f s = Ret tt s' ∧ inv lc s' ∧
        clusters_ s' = clusters_ s ∧ leftMarkers_ s' = leftMarkers_ s ∧
        clustered s' = clustered s.
Proof.
  intros Hst [Hnd Hall] Ha. destruct (Hall a Ha) as (c & Hc & Hg).
  rewrite (call_redraw_eq lc map a f c s Hc). simpl.
  destruct (redraw_good lc map f c Hst Hg) as [-> Hg'].
  destruct (redraw_keeps lc map f c) as [_ Hk].
  eexists. split; [reflexivity|]. split; [split|].
  - done.
  - intros b Hb. simpl in *. destruct (decide (a = b)) as [->|Hne].
    + eexists. split; [|exact Hg']. apply list_lookup_insert_eq. by eapply lookup_lt_Some.
    + rewrite list_lookup_insert_ne by done. by apply Hall.
  - do 2 (split; [done|]). unfold clustered. simpl.
    by eapply bind_members_insert_same.
Qed.

Lemma redraw_loop_inv lc map l s :
  styles_ lc ≠ [] → inv lc s → (∀ a, a ∈ l → a ∈ clusters_ s) →
  ∃ s', redraw_loop lc map l s = Ret tt s' ∧ inv lc s' ∧
        clusters_ s' = clusters_ s ∧ leftMarkers_ s' = leftMarkers_ s ∧
        clustered s' = clustered s.
Proof.
  intros Hst. revert s. induction l as [|a l IH]; intros s Hinv Hsub.
  - exists s. done.
  - destruct (call_redraw_inv lc map a true s Hst Hinv) as (s1 & Hr & Hinv1 & Hc1 & Hl1 & Hm1).
    { apply Hsub. by left. }
    destruct (IH s1 Hinv1) as (s2 & Hr2 & Hinv2 & Hc2 & Hl2 & Hm2).
    { intros b Hb. rewrite Hc1. apply Hsub. by right. }
    exists s2. split; [|split; [done|]; repeat split; congruence].
    simpl. by rewrite (bind_Ret _ _ _ _ _ Hr).
Qed.

Lemma getClustersInViewport_eq lc map s :
  getClustersInViewport_ lc map s
  = Ret (filter (λ a, cluster_in_bounds lc map (getBounds map) (store s) a) (clusters_ s)) s.
Proof. reflexivity. Qed.

Lemma redraw_inv lc map s :
  styles_ lc ≠ [] → inv lc s →
  ∃ s', redraw_ lc map s = Ret tt s' ∧ inv lc s' ∧
        clusters_ s' = clusters_ s ∧ leftMarkers_ s' = leftMarkers_ s ∧
        clustered s' = clustered s.
Proof.
  intros Hst Hinv. unfold redraw_.
  rewrite (bind_Ret _ _ _ _ _ (getClustersInViewport_eq lc map s)).
  apply redraw_loop_inv; [done|done|].
  intros a Ha. by apply list_elem_of_filter in Ha as [_ Ha].
Qed.

(** * Dissolving stale clusters *)

Lemma call_clearMarkers_eq a c s :
  store s !! a = Some c →
  call_clearMarkers a s
  = Ret tt (mk (clusters_ s) (leftMarkers_ s)
               (<[a:=(Cluster.clearMarkers c).1]> (store s))
               (log s ++ (Cluster.clearMarkers c).2)).
Proof.
  intros Hc. unfold call_clearMarkers, mbind, M_bind, get. by rewrite Hc.
Qed.

Lemma reset_loop_inv lc map l tmp s :
  inv lc s → NoDup l → (∀ a, a ∈ l → a ∈ clusters_ s) →
  ∃ tmp' s', reset_loop map l tmp s = Ret tmp' s' ∧ inv lc s' ∧
    leftMarkers_ s' = leftMarkers_ s ∧
    clustered s' ++ (marker <$> tmp') ≡ₚ clustered s ++ (marker <$> tmp).
Proof.
  revert tmp s. induction l as [|a l IH]; intros tmp s Hinv Hnd Hsub.
  - exists tmp, s. done.
  - apply NoDup_cons in Hnd as [Hal Hnd].
    assert (Ha : a ∈ clusters_ s) by (apply Hsub; by left).
    pose proof Hinv as [Hcl Hall]. destruct (Hall a Ha) as (c & Hc & Hg).
    simpl. unfold mbind at 1, M_bind at 1, get at 1. rewrite Hc.
    unfold Cluster.getCurrentZoom.
    destruct (negb (getZoom map =? Cluster.zoom_ c)%Z).
    + rewrite (bind_Ret _ _ _ _ _ (call_clearMarkers_eq a c s Hc)).
      unfold mbind at 1, M_bind at 1, get at 1. simpl.
      unfold mbind at 1, M_bind at 1, set_clusters_ at 1. simpl.
      rewrite splice_loop_filter by done.
      set (s1 := mk (filter (λ b, b ≠ a) (clusters_ s)) (leftMarkers_ s)
                    (<[a:=(Cluster.clearMarkers c).1]> (store s))
                    (log s ++ (Cluster.clearMarkers c).2)).
      assert (Hinv1 : inv lc s1).
      { split; simpl.
        - by apply NoDup_filter.
        - intros b [Hne Hb]%list_elem_of_filter.
          rewrite list_lookup_insert_ne by done. by apply Hall. }
      destruct (IH (tmp ++ ((λ r, mkRef false (marker r)) <$> Cluster.getMarkers c)) s1 Hinv1 Hnd)
        as (tmp' & s' & Hr & Hinv' & Hl' & Hp').
      { intros b Hb. simpl. apply list_elem_of_filter. split.
        - intros ->. done.
        - apply Hsub. by right. }
      exists tmp', s'. split; [exact Hr|]. split; [done|]. split; [done|].
      rewrite Hp'. unfold clustered at 1. simpl.
      rewrite bind_members_insert_other
        by (intros [Hne _]%list_elem_of_filter; by apply Hne).
      rewrite fmap_app, <- list_fmap_compose. unfold Cluster.getMarkers.
      rewrite (bind_members_remove (clusters_ s) (store s) a Hcl Ha).
      unfold clustered, members_of at 3. rewrite Hc.
      rewrite <- !app_assoc. f_equiv.
      rewrite (list_fmap_ext (marker ∘ (λ r, mkRef false (marker r))) marker
                 (Cluster.markers_ c)) by done.
      apply Permutation_app_comm.
    + apply IH; [done|done|]. intros b Hb. apply Hsub. by right.
Qed.

(** * Re-adding collected and pending markers *)

Lemma reAddMarkers_loop_inv lc map markers i clusters s :
  styles_ lc ≠ [] → inv lc s → i ≤ length markers →
  (∀ a, a ∈ clusters → a ∈ clusters_ s) →
  ∃ cl s', reAddMarkers_loop lc map markers i clusters s = Ret cl s' ∧ inv lc s' ∧
    leftMarkers_ s' = leftMarkers_ s ∧
    clustered s' ≡ₚ clustered s ++ (marker <$> take i markers).
Proof.
  intros Hst. revert clusters s. induction i as [|i IH]; intros clusters s Hinv Hi Hsub.
  - exists clusters, s. rewrite take_0, app_nil_r. done.
  - simpl. destruct (lookup_lt_is_Some_2 markers i ltac:(lia)) as [r Hr]. rewrite Hr.
    destruct (addMarker_inv lc map (marker r) true (Some (isAdded r)) (Some clusters) true s
                Hst Hinv Hsub)
      as (cl & s1 & Heq & Hinv1 & Hsub1 & Hsome & [(? & _)|(_ & Hl1 & Hp1)]); [done|].
    rewrite (bind_Ret _ _ _ _ _ Heq).
    destruct (Hsome ltac:(done)) as [l' ->]. simpl in *.
    destruct (IH l' s1 Hinv1 ltac:(lia) Hsub1) as (cl2 & s2 & Heq2 & Hinv2 & Hl2 & Hp2).
    exists cl2, s2. split; [done|]. split; [done|]. split; [congruence|].
    rewrite Hp2, Hp1. rewrite (take_S_r _ _ _ Hr), fmap_app. simpl.
    rewrite <- !app_assoc. f_equiv. apply Permutation_app_comm.
Qed.

Lemma addLeftMarkers_loop_inv lc map ms s :
  styles_ lc ≠ [] → inv lc s →
  ∃ s', addLeftMarkers_loop lc map ms s = Ret tt s' ∧ inv lc s' ∧
    leftMarkers_ s' = leftMarkers_ s ∧ clustered s' ≡ₚ clustered s ++ ms.
Proof.
  intros Hst. revert s. induction ms as [|m ms IH]; intros s Hinv.
  - exists s. rewrite app_nil_r. done.
  - simpl.
    destruct (addMarker_inv lc map m true None None true s Hst Hinv ltac:(done))
      as (cl & s1 & Heq & Hinv1 & _ & _ & [(? & _)|(_ & Hl1 & Hp1)]); [done|].
    rewrite (bind_Ret _ _ _ _ _ Heq).
    destruct (IH s1 Hinv1) as (s2 & Heq2 & Hinv2 & Hl2 & Hp2).
    exists s2. split; [done|]. split; [done|]. split; [congruence|].
    rewrite Hp2, Hp1. by rewrite <- app_assoc.
Qed.

Lemma addLeftMarkers_inv lc map s :
  styles_ lc ≠ [] → inv lc s →
  ∃ s', addLeftMarkers_ lc map s = Ret tt s' ∧ inv lc s' ∧
    leftMarkers_ s' = [] ∧ clustered s' ≡ₚ all_markers s.
Proof.
  intros Hst Hinv. unfold addLeftMarkers_, all_markers.
  unfold mbind at 1, M_bind at 1, get at 1.
  destruct (leftMarkers_ s) as [|m ms] eqn:Hl; simpl.
  - exists s. rewrite app_nil_r. done.
  - destruct (addLeftMarkers_loop_inv lc map (m :: ms) s Hst Hinv)
      as (s1 & Heq & Hinv1 & Hl1 & Hp1).
    rewrite (bind_Ret _ _ _ _ _ Heq). eexists. split; [reflexivity|].
    split; [exact Hinv1|]. done.
Qed.

Lemma resetViewport_inv lc map s :
  styles_ lc ≠ [] → inv lc s →
  ∃ s', resetViewport lc map s = Ret tt s' ∧ inv lc s' ∧
    leftMarkers_ s' = [] ∧ clustered s' ≡ₚ all_markers s.
Proof.
  intros Hst Hinv. unfold resetViewport.
  rewrite (bind_Ret _ _ _ _ _ (getClustersInViewport_eq lc map s)).
  destruct (reset_loop_inv lc map
              (filter (λ a, cluster_in_bounds lc map (getBounds map) (store s) a) (clusters_ s))
              [] s Hinv) as (tmp & s1 & Heq1 & Hinv1 & Hl1 & Hp1).
  { apply NoDup_filter, Hinv. }
  { intros a Ha. by apply list_elem_of_filter in Ha as [_ Ha]. }
  rewrite (bind_Ret _ _ _ _ _ Heq1).
  unfold reAddMarkers_.
  destruct (reAddMarkers_loop_inv lc map tmp (length tmp) [] s1 Hst Hinv1 ltac:(lia))
    as (cl & s2 & Heq2 & Hinv2 & Hl2 & Hp2).
  { intros a Ha. by apply elem_of_nil in Ha. }
  destruct (addLeftMarkers_inv lc map s2 Hst Hinv2) as (s3 & Heq3 & Hinv3 & Hl3 & Hp3).
  destruct (redraw_inv lc map s3 Hst Hinv3) as (s4 & Heq4 & Hinv4 & Hc4 & Hl4 & Hp4).
  exists s4.
  rewrite (bind_Ret _ _ s1 tt s3).
  2: { rewrite (bind_Ret _ _ _ _ _ Heq2). exact Heq3. }
  split; [done|]. split; [done|]. split; [congruence|].
  rewrite Hp4, Hp3. unfold all_markers. rewrite Hl2, Hl1, Hp2.
  rewrite take_ge by lia. simpl in Hp1. rewrite app_nil_r in Hp1. by rewrite Hp1.
Qed.

(** * Batches, clearing, removal *)

Lemma addMarkers_loop_inv lc map ms s :
  styles_ lc ≠ [] → inv lc s →
  ∃ s', addMarkers_loop lc map ms s = Ret tt s' ∧ inv lc s' ∧
    all_markers s' ≡ₚ all_markers s ++ ms ∧
    (∀ m, m ∈ leftMarkers_ s → m ∈ leftMarkers_ s').
Proof.
  intros Hst. revert s. induction ms as [|m ms IH]; intros s Hinv.
  - exists s. rewrite app_nil_r. done.
  - simpl.
    destruct (addMarker_inv lc map m true None None false s Hst Hinv ltac:(done))
      as (cl & s1 & Heq & Hinv1 & _ & _ & Hcase).
    rewrite (bind_Ret _ _ _ _ _ Heq).
    destruct (IH s1 Hinv1) as (s2 & Heq2 & Hinv2 & Hp2 & Hsub2).
    exists s2. split; [done|]. split; [done|].
    assert (Hp1 : all_markers s1 ≡ₚ all_markers s ++ [m] ∧
                  ∀ m', m' ∈ leftMarkers_ s → m' ∈ leftMarkers_ s1).
    { unfold all_markers.
      destruct Hcase as [(_ & _ & -> & ->)|(_ & -> & ->)].
      - split; [by rewrite app_assoc|]. intros m' Hm'. apply elem_of_app. by left.
      - split; [|done]. rewrite <- !app_assoc. f_equiv. apply Permutation_app_comm. }
    destruct Hp1 as [Hp1 Hsub1]. split.
    + rewrite Hp2, Hp1. by rewrite <- app_assoc.
    + intros m' Hm'. by apply Hsub2, Hsub1.
Qed.

Lemma addMarkers_inv lc map ms s :
  styles_ lc ≠ [] → inv lc s →
  ∃ s', addMarkers lc map ms s = Ret tt s' ∧ inv lc s' ∧
    all_markers s' ≡ₚ all_markers s ++ ms ∧
    (∀ m, m ∈ leftMarkers_ s → m ∈ leftMarkers_ s').
Proof.
  intros Hst Hinv. unfold addMarkers.
  destruct (addMarkers_loop_inv lc map ms s Hst Hinv) as (s1 & Heq1 & Hinv1 & Hp1 & Hsub1).
  rewrite (bind_Ret _ _ _ _ _ Heq1).
  destruct (redraw_inv lc map s1 Hst Hinv1) as (s2 & Heq2 & Hinv2 & Hc2 & Hl2 & Hp2).
  exists s2. split; [done|]. split; [done|]. split.
  - rewrite <- Hp1. unfold all_markers. by rewrite Hp2, Hl2.
  - intros m Hm. rewrite Hl2. by apply Hsub1.
Qed.

Lemma clearMarkers_loop_Ret l s :
  ∃ s', clearMarkers_loop l s = Ret tt s' ∧ clusters_ s' = clusters_ s ∧
        leftMarkers_ s' = leftMarkers_ s.
Proof.
  revert s. induction l as [|a l IH]; intros s; [by exists s|].
  simpl.
  assert (∃ s1, call_clearMarkers a s = Ret tt s1 ∧ clusters_ s1 = clusters_ s ∧
                leftMarkers_ s1 = leftMarkers_ s) as (s1 & Heq & Hc1 & Hl1).
  { unfold call_clearMarkers, mbind, M_bind, get.
    destruct (store s !! a); eexists; (split; [reflexivity|done]). }
  rewrite (bind_Ret _ _ _ _ _ Heq).
  destruct (IH s1) as (s2 & Heq2 & Hc2 & Hl2).
  exists s2. split; [done|]. split; congruence.
Qed.

Lemma clearMarkers_inv lc s :
  ∃ s', clearMarkers s = Ret tt s' ∧ inv lc s' ∧ all_markers s' = [].
Proof.
  unfold clearMarkers. unfold mbind at 1, M_bind at 1, get at 1.
  destruct (clearMarkers_loop_Ret (clusters_ s) s) as (s1 & Heq & _).
  rewrite (bind_Ret _ _ _ _ _ Heq).
  eexists. split; [reflexivity|]. split; [|done].
  split; simpl; [apply NoDup_nil_2|]. intros a Ha. by apply elem_of_nil in Ha.
Qed.

Lemma removeMarker_unchanged lc map m s :
  removeMarker lc map m s = Ret tt s ∨
  removeMarker lc map m s = Exn (NotAFunction "remove") s.
Proof.
  unfold removeMarker, mbind, M_bind, get.
  destruct (clusters_ s) as [|a l]; [by left|by right].
Qed.

(** * Sessions *)

Lemma perform_inv lc map op s L :
  styles_ lc ≠ [] → inv lc s → all_markers s ≡ₚ L →
  let r := perform lc map op s in
  inv lc (state_of r) ∧
  all_markers (state_of r) ≡ₚ registered L [(map, op)] ∧
  (completion_of r = Normal ∨ completion_of r = Throw (NotAFunction "remove")).
Proof.
  intros Hst Hinv HL. destruct op as [m nd ad nc|ms|m| |]; simpl.
  - destruct (addMarker_inv lc map m nd ad None nc s Hst Hinv ltac:(done))
      as (cl & s1 & Heq & Hinv1 & _ & _ & Hcase).
    rewrite (bind_Ret _ _ _ _ _ Heq). simpl. split; [done|]. split; [|by left].
    rewrite <- HL. unfold all_markers.
    destruct Hcase as [(_ & _ & -> & ->)|(_ & -> & ->)].
    + by rewrite app_assoc.
    + rewrite <- !app_assoc. f_equiv. apply Permutation_app_comm.
  - destruct (addMarkers_inv lc map ms s Hst Hinv) as (s1 & -> & Hinv1 & Hp1 & _).
    simpl. split; [done|]. split; [|by left]. by rewrite Hp1, HL.
  - destruct (removeMarker_unchanged lc map m s) as [-> | ->]; simpl; auto.
  - destruct (resetViewport_inv lc map s Hst Hinv) as (s1 & -> & Hinv1 & Hl1 & Hp1).
    simpl. split; [done|]. split; [|by left].
    unfold all_markers at 1. by rewrite Hl1, app_nil_r, Hp1.
  - destruct (clearMarkers_inv lc s) as (s1 & -> & Hinv1 & Hp1).
    simpl. split; [done|]. split; [|by left]. by rewrite Hp1.
Qed.

Lemma registered_cons L map op ops :
  registered L ((map, op) :: ops) = registered (registered L [(map, op)]) ops.
Proof. by destruct op. Qed.

Lemma run_cons lc map op ops s :
  (run lc ((map, op) :: ops) s).1 = (run lc ops (state_of (perform lc map op s))).1 ∧
  (run lc ((map, op) :: ops) s).2
  = completion_of (perform lc map op s) :: (run lc ops (state_of (perform lc map op s))).2.
Proof. simpl. by destruct (run lc ops _). Qed.

Lemma run_inv lc ops s L :
  styles_ lc ≠ [] → inv lc s → all_markers s ≡ₚ L →
  inv lc (run lc ops s).1 ∧
  all_markers (run lc ops s).1 ≡ₚ registered L ops ∧
  Forall (λ c, c = Normal ∨ c = Throw (NotAFunction "remove")) (run lc ops s).2.
Proof.
  intros Hst. revert s L. induction ops as [|[map op] ops IH]; intros s L Hinv HL.
  - simpl. done.
  - destruct (perform_inv lc map op s L Hst Hinv HL) as (Hinv1 & Hp1 & Hc1).
    destruct (IH _ _ Hinv1 Hp1) as (Hinv2 & Hp2 & Hc2).
    destruct (run_cons lc map op ops s) as [-> ->].
    split; [done|]. split.
    + by rewrite registered_cons.
    + by constructor.
Qed.

Lemma empty_inv lc : inv lc empty.
Proof. split; simpl; [apply NoDup_nil_2|]. intros a Ha. by apply elem_of_nil in Ha. Qed.

Lemma session_inv map opt_markers opt_opts ops :
  let lc := configure opt_opts in
  let x := session map opt_markers opt_opts ops in
  inv lc x.1 ∧
  all_markers x.1 ≡ₚ registered (default [] opt_markers) ops ∧
  Forall (λ c, c = Normal ∨ c = Throw (NotAFunction "remove")) x.2.
Proof.
  intros lc. unfold session, create. fold lc.
  pose proof (configure_styles opt_opts) as Hst. fold lc in Hst.
  assert (H0 : ∃ s0, match opt_markers with
                     | Some markers => addMarkers lc map markers empty
                     | None => Ret tt empty
                     end = Ret tt s0 ∧ inv lc s0 ∧
                     all_markers s0 ≡ₚ default [] opt_markers).
  { destruct opt_markers as [ms|]; simpl.
    - destruct (addMarkers_inv lc map ms empty Hst (empty_inv lc)) as (s0 & -> & Hi & Hp & _).
      exists s0. done.
    - exists empty. split; [done|]. split; [apply empty_inv|done]. }
  destruct H0 as (s0 & -> & Hinv0 & Hp0). simpl.
  destruct (run_inv lc ops s0 _ Hst Hinv0 Hp0) as (Hinv & Hp & Hc).
  destruct (run lc ops s0) as [s cs]. simpl in *.
  split; [done|]. split; [done|]. constructor; [by left|done].
Qed.

(** * Partition *)



(** * Deferred markers *)

Lemma perform_keeps_pending lc map op s m :
  styles_ lc ≠ [] → inv lc s → keeps_pending op →
  m ∈ leftMarkers_ s → m ∈ leftMarkers_ (state_of (perform lc map op s)).
Proof.
  intros Hst Hinv Hop Hm. destruct op as [m' nd ad nc|ms|m'| |]; simpl in *; try done.
  - destruct (addMarker_inv lc map m' nd ad None nc s Hst Hinv ltac:(done))
      as (cl & s1 & Heq & _ & _ & _ & Hcase).
    rewrite (bind_Ret _ _ _ _ _ Heq). simpl.
    destruct Hcase as [(_ & _ & _ & ->)|(_ & -> & _)]; [|done].
    apply elem_of_app. by left.
  - destruct (addMarkers_inv lc map ms s Hst Hinv) as (s1 & -> & _ & _ & Hsub). by apply Hsub.
  - by destruct (removeMarker_unchanged lc map m' s) as [-> | ->].
Qed.

Lemma run_keeps_pending lc ops s m :
  styles_ lc ≠ [] → inv lc s → Forall (λ x, keeps_pending x.2) ops →
  m ∈ leftMarkers_ s →
  inv lc (run lc ops s).1 ∧ m ∈ leftMarkers_ (run lc ops s).1.
Proof.
  intros Hst. revert s. induction ops as [|[map op] ops IH]; intros s Hinv Hops Hm; [done|].
  apply Forall_cons in Hops as [Hop Hops]. simpl in Hop.
  destruct (run_cons lc map op ops s) as [-> _].
  destruct (perform_inv lc map op s (all_markers s) Hst Hinv ltac:(done)) as (Hinv1 & _).
  apply IH; [done|done|]. by apply perform_keeps_pending.
Qed.

(** C7. A marker handed to [addMarker], viewport check on, while outside
    the map's bounds goes to the end of the pending list: no cluster and no
    count changes. It stays pending through further additions and removal
    attempts, and the next [resetViewport], wherever the viewport then is,
    completes normally, empties the pending list and leaves the marker a
    member of a cluster of the global list. *)
Theorem viewport_deferral (map0 : Map) (opt_markers : option (list Marker))
    (opt_opts : option Options) (ops1 : list (Map * Op))
    (map : Map) (m : Marker) (nodraw : bool) (added : option bool)
    (ops2 : list (Map * Op)) (map' : Map) :
  isMarkerInViewport_ map m = false →
  Forall (λ x, keeps_pending x.2) ops2 →
  let lc := configure opt_opts in
  let s := (session map0 opt_markers opt_opts ops1).1 in
  let r1 := addMarker lc map m nodraw added None false s in
  let s1 := state_of r1 in
  let s2 := (run lc ops2 s1).1 in
  let r3 := resetViewport lc map' s2 in
  (r1 = Ret None s1 ∧
   leftMarkers_ s1 = leftMarkers_ s ++ [m] ∧
   clusters_ s1 = clusters_ s ∧ store s1 = store s ∧
   clustered s1 = clustered s ∧
   getTotalMarkers s1 = getTotalMarkers s ∧
   getTotalClusters s1 = getTotalClusters s) ∧
  m ∈ leftMarkers_ s2 ∧
  completion_of r3 = Normal ∧
  leftMarkers_ (state_of r3) = [] ∧
  in_cluster m (state_of r3).
Proof.
  intros Hout Hops lc s r1 s1 s2 r3.
  pose proof (configure_styles opt_opts) as Hst. fold lc in Hst.
  destruct (session_inv map0 opt_markers opt_opts ops1) as (Hinv & _). fold lc s in Hinv.
  assert (Hr1 : r1 = Ret None (mk (clusters_ s) (leftMarkers_ s ++ [m]) (store s) (log s))).
  { unfold r1. by rewrite addMarker_deferred. }
  assert (Hs1 : s1 = mk (clusters_ s) (leftMarkers_ s ++ [m]) (store s) (log s)).
  { unfold s1. by rewrite Hr1. }
  split.
  { rewrite Hr1 at 1. rewrite Hs1. simpl. done. }
  assert (Hinv1 : inv lc s1) by (by rewrite Hs1).
  assert (Hm1 : m ∈ leftMarkers_ s1).
  { rewrite Hs1. simpl. apply elem_of_app. right. by left. }
  destruct (run_keeps_pending lc ops2 s1 m Hst Hinv1 Hops Hm1) as [Hinv2 Hm2].
  fold s2 in Hinv2, Hm2. split; [done|].
  destruct (resetViewport_inv lc map' s2 Hst Hinv2) as (s3 & Heq3 & Hinv3 & Hl3 & Hp3).
  unfold r3. rewrite Heq3. simpl. split; [done|]. split; [done|].
  apply in_cluster_clustered. rewrite Hp3. unfold all_markers.
  apply elem_of_app. by right.
Qed.

(** * Badge tiers *)

(** C9. For a clusterer configured by the constructor: a badge created
    for a count [n ≥ 1], and a badge updated to such a count, gets as index
    the number of decimal digits of [n] clamped to the number of style
    tiers, an index within [1 .. length styles], and the style
    [styles[index - 1]]. In every session no call fails on the style lookup
    and every badge of a cluster on the global list has a count [n ≥ 2] and
    the tier of that count. *)
Theorem badge_style_tier (map : Map) (opt_markers : option (list Marker))
    (opt_opts : option Options) (ops : list (Map * Op)) :
  let lc := configure opt_opts in
  let x := session map opt_markers opt_opts ops in
  (∀ center pad n,
     let r := ClusterMarker_.initialize center (S n) (styles_ lc) pad in
     r.2 = Normal ∧ badge_tier lc r.1 (S n)) ∧
  (∀ center pad n0 n,
     let b0 := (ClusterMarker_.initialize center (S n0) (styles_ lc) pad).1 in
     let r := ClusterMarker_.reset (ClusterMarker_.mkOpts None (S n) None None) b0 in
     r.2 = Normal ∧ badge_tier lc r.1 (S n)) ∧
  Forall (λ c, c ≠ Throw UndefinedStyle) x.2 ∧
  Forall (λ a, ∃ c, store x.1 !! a = Some c ∧
                    from_option (badge_tier_ok lc) True (Cluster.clusterMarker_ c))
         (clusters_ x.1).
Proof.
  intros lc x.
  pose proof (configure_styles opt_opts) as Hst. fold lc in Hst.
  destruct (session_inv map opt_markers opt_opts ops) as ([_ Hall] & _ & Hc).
  fold lc x in Hall, Hc. split; [|split; [|split]].
  - intros center pad n.
    destruct (initialize_ok lc center (S n) pad Hst ltac:(lia)) as (b & Hb & _ & _ & _ & Ht).
    simpl. by rewrite Hb.
  - intros center pad n0 n.
    destruct (initialize_ok lc center (S n0) pad Hst ltac:(lia)) as (b & Hb & Hok & _ & _ & Ht).
    simpl. rewrite Hb. simpl.
    destruct (reset_count lc b (S n) Hst Hok ltac:(lia)) as (b' & Hb' & _ & _ & _ & _ & Ht').
    rewrite Hb'. simpl. split; [done|]. by apply (Ht' (S n0)).
  - eapply Forall_impl; [exact Hc|]. intros c [-> | ->]; done.
  - apply Forall_forall. intros a Ha. destruct (Hall a Ha) as (c & Hc' & Hg).
    exists c. split; [done|]. apply Hg.
Qed.

(** * The protocol of resetViewport *)

Lemma bind_assoc_M {A B C} (m : M A) (f : A → M B) (g : B → M C) s :
  ((m ≫= f) ≫= g) s = (m ≫= λ a, f a ≫= g) s.
Proof. unfold mbind, M_bind. by destruct (m s). Qed.

Lemma filter_ext_in {A} (P Q : A → Prop) `{∀ x, Decision (P x)} `{∀ x, Decision (Q x)}
    (l : list A) :
  (∀ x, x ∈ l → (P x ↔ Q x)) → filter P l = filter Q l.
Proof.
  induction l as [|x l IH]; [done|]. intros Hext.
  rewrite !filter_cons. rewrite IH by (intros y Hy; apply Hext; by right).
  destruct (decide (P x)) as [HP|HP], (decide (Q x)) as [HQ|HQ]; try done.
  - exfalso. apply HQ, Hext; [by left|done].
  - exfalso. apply HP, Hext; [by left|done].
Qed.

Lemma stale_insert_ne map st a b c :
  a ≠ b → stale map (<[a:=c]> st) b = stale map st b.
Proof. intros H. unfold stale. by rewrite list_lookup_insert_ne. Qed.

Lemma collect_refs_insert_ne st a b c :
  a ≠ b → collect_refs (<[a:=c]> st) b = collect_refs st b.
Proof. intros H. unfold collect_refs. by rewrite list_lookup_insert_ne. Qed.

Lemma clear_events_insert_ne st a b c :
  a ≠ b → clear_events (<[a:=c]> st) b = clear_events st b.
Proof. intros H. unfold clear_events. by rewrite list_lookup_insert_ne. Qed.

Lemma filter_notin_nil (l : list addr) : filter (λ a, a ∉ @nil addr) l = l.
Proof.
  induction l as [|x l IH]; [done|].
  rewrite filter_cons_True by apply not_elem_of_nil. by rewrite IH.
Qed.

(** The loop over the snapshot, in closed form. *)
Lemma reset_loop_closed map l tmp s :
  NoDup l → NoDup (clusters_ s) →
  let d := filter (λ a, stale map (store s) a) l in
  reset_loop map l tmp s
  = Ret (tmp ++ (d ≫= collect_refs (store s)))
        (mk (filter (λ a, a ∉ d) (clusters_ s)) (leftMarkers_ s)
            (foldl (λ st a, alter (λ c, (Cluster.clearMarkers c).1) a st) (store s) d)
            (log s ++ (d ≫= clear_events (store s)))).
Proof.
  revert tmp s. induction l as [|a l IH]; intros tmp s Hl Hcl.
  - cbn -[filter]. change (filter (λ a, stale map (store s) a) []) with (@nil addr).
    cbn -[filter]. rewrite !app_nil_r, filter_notin_nil. by destruct s.
  - cbn -[filter Cluster.clearMarkers]. apply NoDup_cons in Hl as [Hal Hl].
    unfold mbind at 1, M_bind at 1, get at 1.
    destruct (stale map (store s) a) eqn:Hst.
    2: { rewrite filter_cons_False by (cbn beta; rewrite Hst; exact id).
         unfold stale in Hst. destruct (store s !! a) as [c|] eqn:Hc.
         - unfold Cluster.getCurrentZoom. rewrite Hst. by apply IH.
         - by apply IH. }
    rewrite filter_cons_True by (cbn beta; rewrite Hst; exact I).
    unfold stale in Hst. destruct (store s !! a) as [c|] eqn:Hc; [|done].
    unfold Cluster.getCurrentZoom. rewrite Hst.
    rewrite (bind_Ret _ _ _ _ _ (call_clearMarkers_eq a c s Hc)).
    unfold mbind at 1, M_bind at 1, get at 1.
    unfold mbind at 1, M_bind at 1, set_clusters_ at 1.
    cbn [clusters_ leftMarkers_ store log].
    rewrite splice_loop_filter by done.
    rewrite IH; [|done|by apply NoDup_filter]. cbn zeta. cbn [clusters_ leftMarkers_ store log].
    assert (Hfil : filter (λ b, stale map (<[a:=(Cluster.clearMarkers c).1]> (store s)) b) l
                   = filter (λ b, stale map (store s) b) l).
    { apply filter_ext_in. intros b Hb. rewrite stale_insert_ne; [done|]. by intros ->. }
    rewrite Hfil.
    set (d := filter (λ b, stale map (store s) b) l).
    assert (Had : a ∉ d) by (intros [_ ?]%list_elem_of_filter; done).
    assert (Hca : collect_refs (store s) a
                  = (λ r, mkRef false (marker r)) <$> Cluster.getMarkers c)
      by (unfold collect_refs; by rewrite Hc).
    assert (Hea : clear_events (store s) a = (Cluster.clearMarkers c).2)
      by (unfold clear_events; by rewrite Hc).
    assert (Hal' : alter (λ c0, (Cluster.clearMarkers c0).1) a (store s)
                   = <[a:=(Cluster.clearMarkers c).1]> (store s)).
    { clear -Hc. revert a Hc. generalize (store s). intros st.
      induction st as [|x st IHst]; intros [|a] Hc; simpl in *; try done.
      - by injection Hc as ->.
      - f_equal. by apply IHst. }
    f_equal.
    + rewrite bind_cons, Hca, <- app_assoc. f_equal. f_equal.
      apply list_bind_ext_in. intros b Hb. apply collect_refs_insert_ne. by intros ->.
    + f_equal.
      * rewrite list_filter_filter. apply filter_ext_in. intros b _.
        rewrite not_elem_of_cons. tauto.
      * cbn [foldl]. by rewrite Hal'.
      * rewrite bind_cons, Hea, <- app_assoc. f_equal. f_equal.
        apply list_bind_ext_in. intros b Hb. apply clear_events_insert_ne. by intros ->.
Qed.

(** The countdown over the temporary list walks it in reverse. *)
Lemma reAddMarkers_loop_readd lc map markers i clusters s :
  reAddMarkers_loop lc map markers i clusters s
  = readd lc map (reverse (take i markers)) clusters s.
Proof.
  revert clusters s. induction i as [|i IH]; intros clusters s; [done|].
  simpl. destruct (markers !! i) as [r|] eqn:Hr.
  - rewrite (take_S_r _ _ _ Hr), reverse_app. simpl.
    unfold mbind, M_bind. destruct (addMarker _ _ _ _ _ _ _ s); [|done]. apply IH.
  - rewrite IH. apply lookup_ge_None in Hr.
    by rewrite !take_ge by lia.
Qed.

Lemma resetViewport_is_protocol lc map s :
  NoDup (clusters_ s) → resetViewport lc map s = resetViewport_protocol lc map s.
Proof.
  intros Hnd. unfold resetViewport, resetViewport_protocol.
  rewrite (bind_Ret _ _ _ _ _ (getClustersInViewport_eq lc map s)).
  rewrite (bind_Ret _ _ _ _ _
             (reset_loop_closed map _ [] s (NoDup_filter _ _ Hnd) Hnd)).
  simpl. unfold reAddMarkers_. rewrite bind_assoc_M.
  fold (dissolved lc map s). fold (collected lc map s).
  unfold mbind at 1 3, M_bind at 1 3.
  rewrite reAddMarkers_loop_readd, take_ge by lia.
  reflexivity.
Qed.




(** * The two implementations agree *)

Lemma port_digits dv index :
  L_Marker_ClusterMarker.count_digits dv index = ClusterMarker_.digits dv index.
Proof.
  revert index. induction dv as [dv IH] using lt_wf_ind. intros index.
  destruct dv as [|n]; [by simp count_digits digits|].
  rewrite L_Marker_ClusterMarker.count_digits_equation_2, ClusterMarker_.digits_equation_2.
  apply IH. apply Nat.div_lt; lia.
Qed.

Lemma port_reset o b : L_Marker_ClusterMarker.reset o b = ClusterMarker_.reset o b.
Proof.
  unfold L_Marker_ClusterMarker.reset, ClusterMarker_.reset, ClusterMarker_.style_at.
  rewrite port_digits.
  repeat match goal with
         | |- context [match ?x with _ => _ end] =>
             lazymatch x with
             | context [match _ with _ => _ end] => fail
             | _ => destruct x eqn:?
             end
         end; simplify_eq/=; try reflexivity.
Qed.

Lemma port_initialize lc c zoom :
  L_Marker_ClusterMarker.initialize lc
    (Cluster.mk (Cluster.center_ c) (Cluster.markers_ c) None zoom) (styles_ lc)
  = ClusterMarker_.initialize (Cluster.center_ c) (Cluster.getTotalMarkers c)
      (styles_ lc) (gridSize_ lc / 2)%Q.
Proof.
  unfold L_Marker_ClusterMarker.initialize, ClusterMarker_.initialize. simpl.
  apply port_reset.
Qed.

Lemma port_isInBounds lc map bounds c :
  L_Marker_Cluster.isInBounds lc map bounds c = Cluster.isInBounds lc map bounds c.
Proof.
  unfold L_Marker_Cluster.isInBounds, Cluster.isInBounds.
  destruct (Cluster.center_ c) as [center|]; [|done].
  destruct bounds as [b|]; simpl;
    destruct (negb (Cluster.zoom_ c =? getZoom map)%Z);
    destruct (Qneb _ _);
    repeat match goal with |- context [Qltb ?a ?b] => destruct (Qltb a b) end;
    reflexivity.
Qed.

Lemma port_addMarker ref c : L_Marker_Cluster.addMarker ref c = Cluster.addMarker ref c.
Proof.
  unfold L_Marker_Cluster.addMarker, Cluster.addMarker.
  by destruct (Cluster.center_ c).
Qed.

Lemma port_removeMarker_loop m ms :
  L_Marker_Cluster.removeMarker_loop m ms = Cluster.removeMarker_loop m ms.
Proof.
  induction ms as [|r ms IH]; [done|]. simpl. by rewrite IH.
Qed.

Lemma port_removeMarker m c : L_Marker_Cluster.removeMarker m c = Cluster.removeMarker m c.
Proof.
  unfold L_Marker_Cluster.removeMarker, Cluster.removeMarker.
  by rewrite port_removeMarker_loop.
Qed.

Lemma port_detach_added ms : L_Marker_Cluster.detach_added ms = Cluster.detach_added ms.
Proof.
  induction ms as [|r ms IH]; [done|]. simpl. by rewrite IH.
Qed.

Lemma port_attach_all ms :
  L_Marker_Cluster.attach_all ms
  = (Cluster.set_added <$> ms, (λ r, addLayer (MarkerLayer (marker r))) <$> ms).
Proof.
  induction ms as [|r ms IH]; [done|]. simpl. by rewrite IH.
Qed.

Lemma port_redraw lc map f c :
  L_Marker_Cluster._redraw lc map f c = Cluster.redraw_ lc map f c.
Proof.
  unfold L_Marker_Cluster._redraw, Cluster.redraw_.
  rewrite port_isInBounds.
  destruct (negb f && negb (Cluster.isInBounds lc map None c)); [done|].
  unfold L_Marker_Cluster.getTotalMarkers, Cluster.getTotalMarkers.
  replace (match maxZoom_ lc with Some z => z | None => getMaxZoom map end)
    with (default (getMaxZoom map) (maxZoom_ lc)) by (by destruct (maxZoom_ lc)).
  destruct (_ || _).
  - rewrite port_attach_all. by destruct (Cluster.clusterMarker_ c).
  - rewrite port_detach_added. destruct (Cluster.clusterMarker_ c) as [b|].
    + by rewrite port_reset.
    + by rewrite port_initialize.
Qed.

Lemma port_clearMarkers c : L_Marker_Cluster.clearMarkers c = Cluster.clearMarkers c.
Proof.
  unfold L_Marker_Cluster.clearMarkers, Cluster.clearMarkers.
  rewrite port_detach_added. by destruct (Cluster.clusterMarker_ c).
Qed.

Lemma port_marker_method name :
  L_Marker_Cluster.marker_method name = None ∧ Cluster.marker_method name = None ∨
  L_Marker_Cluster.marker_method name = Some L_Marker_Cluster.removeMarker ∧
  Cluster.marker_method name = Some Cluster.removeMarker.
Proof.
  unfold L_Marker_Cluster.marker_method, Cluster.marker_method.
  repeat case_bool_decide; auto; try done.
  all: exfalso; subst name; match goal with H : ¬ _ |- _ => apply H end;
    repeat (first [left; reflexivity | right]).
Qed.

Lemma port_configure opt_opts : L_Marker_Clusterer.configure opt_opts = configure opt_opts.
Proof.
  unfold L_Marker_Clusterer.configure, configure.
  change (L_Marker_Clusterer.default_styles_from 1 L_Marker_Clusterer._sizes)
    with default_styles.
  destruct opt_opts as [[g z s]|]; simpl; [|done].
  by destruct z.
Qed.

Lemma port_search lc map st pos cl i :
  L_Marker_Clusterer.search lc map st pos cl i = search lc map st pos cl i.
Proof.
  induction i as [|i IH]; [done|]. simpl. rewrite IH.
  destruct (cl !! i) as [a|]; simpl; [|done].
  destruct (st !! a); simpl; done.
Qed.

(** Pointwise equality of operations, through [bind]. *)
Lemma bind_pointwise {A B} (m m' : M A) (f f' : A → M B) s :
  m s = m' s → (∀ a s', f a s' = f' a s') → (m ≫= f) s = (m' ≫= f') s.
Proof.
  intros Hm Hf. unfold mbind, M_bind. rewrite Hm. destruct (m' s); [apply Hf|done].
Qed.

Lemma port_call_redraw lc map a f s :
  L_Marker_Clusterer.update_cluster a (L_Marker_Cluster._redraw lc map f) s
  = call_redraw_ lc map a f s.
Proof.
  unfold L_Marker_Clusterer.update_cluster, call_redraw_, mbind, M_bind, get.
  destruct (store s !! a) as [c|]; [|done].
  rewrite port_redraw. destruct (Cluster.redraw_ lc map f c) as [[c' ev] r]. simpl.
  by destruct r.
Qed.

Lemma port_call_addMarker a ref s :
  L_Marker_Clusterer.update_cluster a (λ c, (L_Marker_Cluster.addMarker ref c, [], Normal)) s
  = call_addMarker a ref s.
Proof.
  unfold L_Marker_Clusterer.update_cluster, call_addMarker, mbind, M_bind, get, put_cluster.
  destruct (store s !! a) as [c|]; [|done].
  by rewrite port_addMarker, app_nil_r.
Qed.

Lemma port_call_clearMarkers a s :
  L_Marker_Clusterer.update_cluster a
    (λ c, let '(c', ev) := L_Marker_Cluster.clearMarkers c in (c', ev, Normal)) s
  = call_clearMarkers a s.
Proof.
  unfold L_Marker_Clusterer.update_cluster, call_clearMarkers, mbind, M_bind, get.
  destruct (store s !! a) as [c|]; [|done].
  by rewrite port_clearMarkers.
Qed.

Lemma port_addMarker_op lc map m nodraw added opt_clusters nocheck s :
  L_Marker_Clusterer.addMarker lc map m nodraw added opt_clusters nocheck s
  = addMarker lc map m nodraw added opt_clusters nocheck s.
Proof.
  unfold L_Marker_Clusterer.addMarker, addMarker.
  unfold L_Marker_Clusterer._isMarkerInViewport, isMarkerInViewport_.
  destruct (negb nocheck && negb (contains (getBounds map) (getLatLng m))); [done|].
  unfold mbind at 7, M_bind at 7, get at 2.
  replace (match opt_clusters with Some l => l | None => clusters_ s end)
    with (default (clusters_ s) opt_clusters) by (by destruct opt_clusters).
  replace (match added with Some b => b | None => false end)
    with (default false added) by (by destruct added).
  rewrite port_search.
  destruct (search lc map (store s) _ _ _) as [a|].
  - apply bind_pointwise; [apply port_call_addMarker|]. intros _ s1.
    apply bind_pointwise; [|done].
    destruct nodraw; [done|apply port_call_redraw].
  - unfold mbind at 5, M_bind at 5, alloc at 1.
    apply bind_pointwise; [apply port_call_addMarker|]. intros _ s1.
    apply bind_pointwise; [destruct nodraw; [done|apply port_call_redraw]|].
    intros _ s2. apply bind_pointwise; [done|]. intros s3 s4.
    apply bind_pointwise; [done|]. intros _ s5. by destruct opt_clusters.
Qed.

Lemma port_removeMarker_op lc map m s :
  L_Marker_Clusterer.removeMarker lc map m s = removeMarker lc map m s.
Proof.
  unfold L_Marker_Clusterer.removeMarker, removeMarker.
  unfold mbind at 1, M_bind at 1, get at 1.
  generalize (clusters_ s) as cl. intros cl. revert s.
  induction cl as [|a cl IH]; intros s; [done|].
  cbn [L_Marker_Clusterer.removeMarker_loop removeMarker_loop].
  destruct (port_marker_method "remove") as [[-> ->]|[-> ->]]; [done|].
  unfold call_marker_method, mbind, M_bind, get.
  destruct (store s !! a) as [c|]; [|apply IH].
  rewrite port_removeMarker. destruct (Cluster.removeMarker m c) as [[c' ev] found]. simpl.
  destruct found; [apply port_call_redraw|apply IH].
Qed.

Lemma port_getClustersInViewport lc map s :
  Ret (L_Marker_Clusterer.getClustersInViewport lc map s) s = getClustersInViewport_ lc map s.
Proof.
  rewrite getClustersInViewport_eq. f_equal.
  unfold L_Marker_Clusterer.getClustersInViewport.
  induction (clusters_ s) as [|a cl IH]; [done|]. simpl.
  rewrite IH. destruct (store s !! a) as [c|] eqn:Hc.
  - rewrite port_isInBounds.
    destruct (Cluster.isInBounds lc map (Some (getBounds map)) c) eqn:Hb.
    + rewrite filter_cons_True; [done|]. unfold cluster_in_bounds. rewrite Hc, Hb. exact I.
    + rewrite filter_cons_False; [done|]. unfold cluster_in_bounds. rewrite Hc, Hb. exact id.
  - rewrite filter_cons_False; [done|]. unfold cluster_in_bounds. rewrite Hc. exact id.
Qed.

Lemma port_redraw_loop lc map cl s :
  L_Marker_Clusterer.redraw_loop lc map cl s = redraw_loop lc map cl s.
Proof.
  revert s. induction cl as [|a cl IH]; intros s; [done|]. simpl.
  apply bind_pointwise; [apply port_call_redraw|]. intros _ s'. apply IH.
Qed.

Lemma port_redraw_op lc map s : L_Marker_Clusterer.redraw lc map s = redraw_ lc map s.
Proof.
  unfold L_Marker_Clusterer.redraw, redraw_.
  unfold mbind, M_bind. rewrite <- port_getClustersInViewport. apply port_redraw_loop.
Qed.

Lemma port_getTotalMarkers_loop st cl n :
  L_Marker_Clusterer.getTotalMarkers_loop st cl n
  = foldl (λ result a, result + match st !! a with
                                | Some c => Cluster.getTotalMarkers c
                                | None => 0
                                end) n cl.
Proof. revert n. induction cl as [|a cl IH]; intros n; [done|]. simpl. apply IH. Qed.

Lemma port_getTotalMarkers s : L_Marker_Clusterer.getTotalMarkers s = getTotalMarkers s.
Proof. apply port_getTotalMarkers_loop. Qed.

Lemma port_splice_loop a cl j :
  L_Marker_Clusterer.splice_clusters a cl j = splice_loop a cl j.
Proof.
  assert (Hn : length cl - j ≤ length cl - j) by lia.
  revert Hn. generalize (length cl - j) at 2. intros n. revert cl j.
  induction n as [|n IH]; intros cl j Hn.
  - rewrite splice_end by lia. rewrite L_Marker_Clusterer.splice_clusters_equation_1.
    destruct (decide (j < length cl)); [lia|done].
  - rewrite L_Marker_Clusterer.splice_clusters_equation_1.
    destruct (decide (j < length cl)) as [Hlt|]; [|by rewrite splice_end by lia]. simpl.
    destruct (bool_decide (cl !! j = Some a)) eqn:Hb.
    + apply bool_decide_eq_true in Hb.
      rewrite L_Marker_Clusterer.splice_clusters_clause_1_clause_2_equation_1.
      rewrite (splice_hit a cl j Hb). apply IH.
      rewrite length_delete by (by apply lookup_lt_is_Some_2). lia.
    + apply bool_decide_eq_false in Hb.
      rewrite L_Marker_Clusterer.splice_clusters_clause_1_clause_2_equation_2.
      rewrite (splice_miss a cl j Hlt Hb). apply IH. lia.
Qed.

Lemma port_resetViewport_loop map cl tmp s :
  L_Marker_Clusterer.resetViewport_loop map cl tmp s = reset_loop map cl tmp s.
Proof.
  revert tmp s. induction cl as [|a cl IH]; intros tmp s; [done|]. simpl.
  unfold mbind at 1, M_bind at 1, get at 1.
  destruct (store s !! a) as [c|] eqn:Hc; [|apply IH].
  unfold L_Marker_Cluster.getCurrentZoom, Cluster.getCurrentZoom.
  destruct (getZoom map =? Cluster.zoom_ c)%Z; simpl; [apply IH|].
  rewrite (bind_Ret _ _ _ _ _ (call_clearMarkers_eq a c s Hc)).
  unfold mbind at 1, M_bind at 1, get at 1.
  unfold mbind at 1, M_bind at 1, set_clusters_ at 1. simpl.
  rewrite port_splice_loop. apply IH.
Qed.

Lemma port_addLeftMarkers_loop lc map ms s :
  L_Marker_Clusterer._addLeftMarkers_loop lc map ms s = addLeftMarkers_loop lc map ms s.
Proof.
  revert s. induction ms as [|m ms IH]; intros s; [done|]. simpl.
  apply bind_pointwise; [apply port_addMarker_op|]. intros _ s'. apply IH.
Qed.

Lemma addLeftMarkers_unfold lc map s :
  addLeftMarkers_ lc map s
  = match leftMarkers_ s with
    | [] => Ret tt s
    | ms => (addLeftMarkers_loop lc map ms;; set_leftMarkers_ []) s
    end.
Proof.
  unfold addLeftMarkers_. unfold mbind at 1, M_bind at 1, get at 1.
  by destruct (leftMarkers_ s).
Qed.

Lemma port_addLeftMarkers lc map s :
  L_Marker_Clusterer._addLeftMarkers lc map s = addLeftMarkers_ lc map s.
Proof.
  rewrite addLeftMarkers_unfold. unfold L_Marker_Clusterer._addLeftMarkers.
  destruct (leftMarkers_ s) as [|m ms]; [done|].
  apply bind_pointwise; [apply port_addLeftMarkers_loop|done].
Qed.

Lemma port_reAddMarkers_loop lc map markers i cl s :
  L_Marker_Clusterer._reAddMarkers_loop lc map markers i cl s
  = reAddMarkers_loop lc map markers i cl s.
Proof.
  revert cl s. induction i as [|i IH]; intros cl s; [done|]. simpl.
  destruct (markers !! i) as [r|]; [|apply IH].
  apply bind_pointwise; [apply port_addMarker_op|]. intros c s'. apply IH.
Qed.

Lemma port_reAddMarkers lc map markers s :
  L_Marker_Clusterer._reAddMarkers lc map markers s = reAddMarkers_ lc map markers s.
Proof.
  unfold L_Marker_Clusterer._reAddMarkers, reAddMarkers_.
  apply bind_pointwise; [apply port_reAddMarkers_loop|]. intros _ s'.
  apply port_addLeftMarkers.
Qed.

Lemma port_resetViewport lc map s :
  L_Marker_Clusterer.resetViewport lc map s = resetViewport lc map s.
Proof.
  unfold L_Marker_Clusterer.resetViewport, resetViewport.
  rewrite (bind_Ret _ _ s _ s (eq_sym (port_getClustersInViewport lc map s))).
  apply bind_pointwise; [apply port_resetViewport_loop|]. intros tmp s1.
  apply bind_pointwise; [apply port_reAddMarkers|]. intros _ s2.
  apply port_redraw_op.
Qed.

Lemma port_addMarkers_loop lc map ms s :
  L_Marker_Clusterer.addMarkers_loop lc map ms s = addMarkers_loop lc map ms s.
Proof.
  revert s. induction ms as [|m ms IH]; intros s; [done|]. simpl.
  apply bind_pointwise; [apply port_addMarker_op|]. intros _ s'. apply IH.
Qed.

Lemma port_addMarkers lc map ms s :
  L_Marker_Clusterer.addMarkers lc map ms s = addMarkers lc map ms s.
Proof.
  unfold L_Marker_Clusterer.addMarkers, addMarkers.
  apply bind_pointwise; [apply port_addMarkers_loop|]. intros _ s'. apply port_redraw_op.
Qed.

Lemma port_clearMarkers_loop cl s :
  L_Marker_Clusterer.clearMarkers_loop cl s = clearMarkers_loop cl s.
Proof.
  revert s. induction cl as [|a cl IH]; intros s; [done|]. simpl.
  apply bind_pointwise; [apply port_call_clearMarkers|]. intros _ s'. apply IH.
Qed.

Lemma port_clearMarkers_op s : L_Marker_Clusterer.clearMarkers s = clearMarkers s.
Proof.
  transitivity ((clearMarkers_loop (clusters_ s);; set_clusters_ [];; set_leftMarkers_ []) s).
  - unfold L_Marker_Clusterer.clearMarkers.
    apply bind_pointwise; [apply port_clearMarkers_loop|done].
  - unfold clearMarkers. by unfold mbind at 4, M_bind at 4, get at 1.
Qed.

Lemma port_perform lc map op s : L_Marker_Clusterer.perform lc map op s = perform lc map op s.
Proof.
  destruct op; simpl.
  - apply bind_pointwise; [apply port_addMarker_op|done].
  - apply port_addMarkers.
  - apply port_removeMarker_op.
  - apply port_resetViewport.
  - apply port_clearMarkers_op.
Qed.

Lemma port_run lc ops s : L_Marker_Clusterer.run lc ops s = run lc ops s.
Proof.
  revert s. induction ops as [|[map op] ops IH]; intros s; [done|]. simpl.
  by rewrite port_perform, IH.
Qed.

(** C10. Whatever the host map answers and whatever is called, in whatever
    order, LeafClusterer and L.Marker.Clusterer go through the same states
    and completions: the same clusters with the same members, centers, zoom
    stamps and badges, the same pending list, the same calls to [addLayer]
    and [removeLayer], and the same totals. *)
Theorem implementations_agree (map : Map) (opt_markers : option (list Marker))
    (opt_opts : option Options) (ops : list (Map * Op)) :
  L_Marker_Clusterer.session map opt_markers opt_opts ops
  = session map opt_markers opt_opts ops ∧
  L_Marker_Clusterer.getTotalMarkers (L_Marker_Clusterer.session map opt_markers opt_opts ops).1
  = getTotalMarkers (session map opt_markers opt_opts ops).1 ∧
  L_Marker_Clusterer.getTotalClusters (L_Marker_Clusterer.session map opt_markers opt_opts ops).1
  = getTotalClusters (session map opt_markers opt_opts ops).1.
Proof.
  assert (H : L_Marker_Clusterer.session map opt_markers opt_opts ops
              = session map opt_markers opt_opts ops).
  { unfold L_Marker_Clusterer.session, session, L_Marker_Clusterer.initialize, create.
    rewrite port_configure.
    destruct opt_markers as [ms|]; [rewrite port_addMarkers|]; by rewrite port_run. }
  split; [exact H|]. rewrite H. split; [apply port_getTotalMarkers|reflexivity].
Qed.

(** * The theorems at sample inputs *)




Lemma viewport_deferral_witness :
  isMarkerInViewport_ (w_map 10) w_marker4 = false ∧
  in_cluster w_marker4
    (state_of
       (resetViewport (configure w_opts) (w_map 12)
          (run (configure w_opts) [(w_map 10, OpAddMarkers [w_marker5])]
             (state_of
                (addMarker (configure w_opts) (w_map 10) w_marker4 false None None false
                   (session (w_map 10) (Some [w_marker1; w_marker2; w_marker3])
                      w_opts []).1))).1)).
Proof.
  assert (H : isMarkerInViewport_ (w_map 10) w_marker4 = false) by (vm_compute; reflexivity).
  split; [exact H|].
  assert (H2 : Forall (λ x : Map * Op, keeps_pending x.2) [(w_map 10, OpAddMarkers [w_marker5])]).
  { constructor; [exact I|constructor]. }
  exact (proj2 (proj2 (proj2 (proj2
    (viewport_deferral (w_map 10) (Some [w_marker1; w_marker2; w_marker3]) w_opts []
       (w_map 10) w_marker4 false None [(w_map 10, OpAddMarkers [w_marker5])] (w_map 12)
       H H2))))).
Defined.

(** * The constructor's configuration *)

Lemma Qltb_true_lt (a b : Q) : Qltb a b = true ↔ (a < b)%Q.
Proof.
  unfold Qltb. rewrite negb_true_iff. split.
  - intros H. apply Qnot_le_lt. intros Hle. apply Qle_bool_iff in Hle. congruence.
  - intros H. destruct (Qle_bool b a) eqn:E; [|done].
    apply Qle_bool_iff in E. lra.
Qed.

(** X1. Whatever options the constructor is given, the clusterer ends up
    with a positive grid size and at least one style tier. A positive
    [gridSize] and a non-empty [styles] array are taken as given; a grid
    size that is not positive falls back to 40 and an empty style array to
    the five built-in tiers of sizes 53, 56, 66, 78 and 90; [maxZoom] is
    passed through. *)
Theorem configure_valid (opt_opts : option Options) :
  let lc := configure opt_opts in
  ((0 < gridSize_ lc)%Q ∧ styles_ lc ≠ []) ∧
  (∀ o g, opt_opts = Some o → opt_gridSize o = Some g →
          ((0 < g)%Q → gridSize_ lc = g) ∧ ((g <= 0)%Q → gridSize_ lc = 40%Q)) ∧
  (∀ o s, opt_opts = Some o → opt_styles o = Some s →
          (s ≠ [] → styles_ lc = s) ∧ (s = [] → styles_ lc = default_styles)) ∧
  ((opt_opts ≫= opt_gridSize) = None → gridSize_ lc = 40%Q) ∧
  ((opt_opts ≫= opt_styles) = None → styles_ lc = default_styles) ∧
  maxZoom_ lc = opt_opts ≫= opt_maxZoom ∧
  (height <$> default_styles) = [53; 56; 66; 78; 90]%Z ∧
  (width <$> default_styles) = [53; 56; 66; 78; 90]%Z.
Proof.
  cbn zeta. split_and!.
  - destruct opt_opts as [o|]; cbn; [|lra].
    destruct (opt_gridSize o) as [g|]; [|lra].
    destruct (Qltb 0 g) eqn:E; [|lra]. by apply Qltb_true_lt.
  - apply configure_styles.
  - intros o g -> Hg. cbn. rewrite Hg. split; intros H.
    + apply Qltb_true_lt in H. by rewrite H.
    + apply Qltb_false_iff in H. by rewrite H.
  - intros o s -> Hs. cbn. rewrite Hs. split; intros H.
    + rewrite bool_decide_true; [done|]. by destruct s.
    + subst s. done.
  - destruct opt_opts as [o|]; cbn; [|done]. by intros ->.
  - destruct opt_opts as [o|]; cbn; [|done]. by intros ->.
  - by destruct opt_opts.
  - reflexivity.
  - reflexivity.
Qed.

(** * Operations of one Cluster *)

Lemma removeMarker_loop_spec m ms :
  match Cluster.removeMarker_loop m ms with
  | Some (ms', ev) =>
      ∃ l1 r l2, ms = l1 ++ r :: l2 ∧
        Forall (λ x, same_marker m (marker x) = false) l1 ∧
        same_marker m (marker r) = true ∧
        ms' = l1 ++ l2 ∧
        ev = (if isAdded r then [removeLayer (MarkerLayer (marker r))] else [])
  | None => Forall (λ x, same_marker m (marker x) = false) ms
  end.
Proof.
  induction ms as [|r rest IH]; cbn; [constructor|].
  destruct (same_marker m (marker r)) eqn:E.
  - exists [], r, rest. by split_and!.
  - destruct (Cluster.removeMarker_loop m rest) as [[ms' ev]|].
    + destruct IH as (l1 & r' & l2 & -> & Hl1 & Hr & -> & ->).
      exists (r :: l1), r', l2. split_and!; try done. by constructor.
    + by constructor.
Qed.

(** X2. [Cluster.removeMarker] takes out the first wrapper that holds the
    marker, and only that one: the wrappers before and after it keep their
    order, a later wrapper of the same marker stays, and [removeLayer] is
    called on the marker exactly when the removed wrapper was flagged as
    added. The center, the badge (with its count) and the zoom stamp are
    untouched. When no wrapper holds the marker, the answer is [false] and
    nothing changes. *)
Theorem removeMarker_first_occurrence (m : Marker) (c : Cluster.t) :
  let c' := (Cluster.removeMarker m c).1.1 in
  let ev := (Cluster.removeMarker m c).1.2 in
  let found := (Cluster.removeMarker m c).2 in
  Cluster.center_ c' = Cluster.center_ c ∧
  Cluster.clusterMarker_ c' = Cluster.clusterMarker_ c ∧
  Cluster.zoom_ c' = Cluster.zoom_ c ∧
  if found then
    ∃ l1 r l2, Cluster.markers_ c = l1 ++ r :: l2 ∧
      Forall (λ x, same_marker m (marker x) = false) l1 ∧
      same_marker m (marker r) = true ∧
      Cluster.markers_ c' = l1 ++ l2 ∧
      ev = (if isAdded r then [removeLayer (MarkerLayer (marker r))] else [])
  else
    c' = c ∧ ev = [] ∧
    Forall (λ x, same_marker m (marker x) = false) (Cluster.markers_ c).
Proof.
  cbn zeta. unfold Cluster.removeMarker.
  pose proof (removeMarker_loop_spec m (Cluster.markers_ c)) as H.
  destruct (Cluster.removeMarker_loop m (Cluster.markers_ c)) as [[ms' ev]|]; cbn.
  - split_and!; try done.
  - by split_and!.
Qed.

Lemma removeMarker_loop_app_miss m l r :
  Forall (λ x, same_marker m (marker x) = false) l →
  same_marker m (marker r) = true →
  Cluster.removeMarker_loop m (l ++ [r])
  = Some (l, if isAdded r then [removeLayer (MarkerLayer (marker r))] else []).
Proof.
  intros Hl Hr. induction Hl as [|x l Hx Hl IH]; cbn.
  - by rewrite Hr.
  - by rewrite Hx, IH.
Qed.

(** X3. Adding a marker that the cluster does not hold and removing it
    again gives the members back as they were and reports [true]; the map
    is told to remove the marker's layer exactly when the wrapper was
    flagged as added. The center does not go back: a cluster that had no
    center keeps the position of the marker that is gone. *)
Theorem addMarker_removeMarker_roundtrip (ref : MarkerRef) (c : Cluster.t) :
  Forall (λ x, same_marker (marker ref) (marker x) = false) (Cluster.markers_ c) →
  Cluster.removeMarker (marker ref) (Cluster.addMarker ref c)
  = (Cluster.mk (Some (default (getLatLng (marker ref)) (Cluster.center_ c)))
       (Cluster.markers_ c) (Cluster.clusterMarker_ c) (Cluster.zoom_ c),
     if isAdded ref then [removeLayer (MarkerLayer (marker ref))] else [],
     true).
Proof.
  intros H. unfold Cluster.removeMarker, Cluster.addMarker. cbn.
  rewrite (removeMarker_loop_app_miss _ _ _ H).
  - by destruct (Cluster.center_ c).
  - unfold same_marker. apply Nat.eqb_refl.
Qed.

Lemma addMarker_removeMarker_roundtrip_witness :
  Forall (λ x, same_marker w_marker3 (marker x) = false) (Cluster.markers_ w_pair) ∧
  Cluster.removeMarker w_marker3 (Cluster.addMarker (mkRef true w_marker3) w_pair)
  = (w_pair, [removeLayer (MarkerLayer w_marker3)], true).
Proof.
  split.
  - repeat constructor.
  - apply (addMarker_removeMarker_roundtrip (mkRef true w_marker3) w_pair).
    repeat constructor.
Defined.

Lemma cluster_step_center_kept c op l :
  Cluster.center_ c = Some l → Cluster.center_ (cluster_step c op) = Some l.
Proof.
  intros H. destruct op as [ref|m|]; cbn.
  - by rewrite H.
  - unfold Cluster.removeMarker.
    by destruct (Cluster.removeMarker_loop m (Cluster.markers_ c)) as [[? ?]|].
  - done.
Qed.

Lemma cluster_run_center_kept ops c l :
  Cluster.center_ c = Some l → Cluster.center_ (cluster_run ops c) = Some l.
Proof.
  revert c. induction ops as [|op ops IH]; intros c H; [done|].
  cbn. apply IH. by apply cluster_step_center_kept.
Qed.

(** X4. The center of a cluster is the position of the first marker ever
    added to it and never moves afterwards: whatever markers are added,
    removed or cleared later (the first marker itself included), the center
    stays where the first addition put it. Before any addition it is
    unset. *)
Theorem center_is_first_added (map : Map) (ops : list ClusterOp) :
  Cluster.center_ (cluster_run ops (Cluster.new map))
  = (λ ref, getLatLng (marker ref)) <$> first_added ops.
Proof.
  assert (∀ c, Cluster.center_ c = None →
               Cluster.center_ (cluster_run ops c)
               = (λ ref, getLatLng (marker ref)) <$> first_added ops) as H.
  { induction ops as [|op ops IH]; intros c Hc; [done|].
    destruct op as [ref|m|]; cbn.
    - apply cluster_run_center_kept. cbn. by rewrite Hc.
    - apply IH. unfold Cluster.removeMarker.
      by destruct (Cluster.removeMarker_loop m (Cluster.markers_ c)) as [[? ?]|].
    - by apply IH. }
  by apply H.
Qed.

(** * Redrawing a cluster twice *)

Lemma set_added_idem (ms : list MarkerRef) :
  Cluster.set_added <$> (Cluster.set_added <$> ms) = Cluster.set_added <$> ms.
Proof. rewrite <- list_fmap_compose. by apply list_fmap_ext. Qed.

Lemma set_added_events (ms : list MarkerRef) :
  (λ r, addLayer (MarkerLayer (marker r))) <$> (Cluster.set_added <$> ms)
  = (λ r, addLayer (MarkerLayer (marker r))) <$> ms.
Proof. rewrite <- list_fmap_compose. by apply list_fmap_ext. Qed.

Lemma reset_same_count b n :
  ClusterMarker_.count_ b = Some n →
  ClusterMarker_.reset (ClusterMarker_.mkOpts None n None None) b = (b, Normal).
Proof.
  intros H. unfold ClusterMarker_.reset. cbn.
  rewrite bool_decide_false by (intros H'; by apply H'). cbn.
  destruct b; cbn. by rewrite !orb_false_r.
Qed.

Lemma reset_Normal_count o b b' :
  ClusterMarker_.reset o b = (b', Normal) →
  ClusterMarker_.count_ b' = Some (ClusterMarker_.o_count o).
Proof.
  unfold ClusterMarker_.reset.
  set (x1 := match ClusterMarker_.o_latLng o with Some l => _ | None => _ end).
  assert (ClusterMarker_.count_ x1.1 = ClusterMarker_.count_ b) as H1.
  { subst x1. destruct (ClusterMarker_.o_latLng o); [case_bool_decide|]; done. }
  destruct x1 as [this1 u1]. cbn in H1.
  set (x2 := match ClusterMarker_.o_styles o with Some l => _ | None => _ end).
  assert (ClusterMarker_.count_ x2.1 = ClusterMarker_.count_ b) as H2.
  { subst x2. destruct (ClusterMarker_.o_styles o); [case_bool_decide|]; done. }
  destruct x2 as [this2 u2]. cbn in H2.
  set (x3 := if _ || u2 then _ else _).
  assert (x3.2 = Normal → ClusterMarker_.count_ x3.1 = Some (ClusterMarker_.o_count o)) as H3.
  { subst x3. destruct (bool_decide_reflect
      (ClusterMarker_.count_ this2 ≠ Some (ClusterMarker_.o_count o))) as [Hd|Hd]; cbn.
    - by destruct (ClusterMarker_.style_at _ _).
    - destruct u2; cbn.
      + by destruct (ClusterMarker_.style_at _ _).
      + intros _. by destruct (decide (ClusterMarker_.count_ this2
                                       = Some (ClusterMarker_.o_count o))). }
  destruct x3 as [this3 [|e]]; [|done]. cbn in H3.
  destruct (ClusterMarker_.o_padding o); [destruct (bool_decide _)|];
    cbn; intros [= <-]; cbn; auto.
Qed.

Lemma redraw_fresh_div b :
  ClusterMarker_.hidden b = false →
  ClusterMarker_.innerHTML b = ClusterMarker_.count_ b →
  ClusterMarker_.redraw b = b.
Proof.
  intros H1 H2. unfold ClusterMarker_.redraw, ClusterMarker_.initLayout_.
  destruct b as [l s c i st p u h ih]; cbn in *. subst. by destruct u.
Qed.

Lemma redraw_show_spec b :
  let b1 := ClusterMarker_.redraw b in
  let b2 := if ClusterMarker_.isHidden b1 then ClusterMarker_.show b1 else b1 in
  ClusterMarker_.count_ b2 = ClusterMarker_.count_ b ∧
  ClusterMarker_.hidden b2 = false ∧
  ClusterMarker_.redraw b2 = b2.
Proof.
  cbn zeta. unfold ClusterMarker_.redraw, ClusterMarker_.isHidden, ClusterMarker_.initLayout_.
  destruct b as [l s c i st p u h ih]; cbn. destruct u; cbn; [done|].
  destruct h; cbn; done.
Qed.

Lemma redraw_forced_shape lc map c :
  (Cluster.redraw_ lc map true c).2 = Normal →
  let mode := (default (getMaxZoom map) (maxZoom_ lc) <=? getZoom map)%Z
              || (length (Cluster.markers_ c) =? 1) in
  (mode = true ∧
   (Cluster.redraw_ lc map true c).1
   = (Cluster.mk (Cluster.center_ c) (Cluster.set_added <$> Cluster.markers_ c)
        (ClusterMarker_.hide <$> Cluster.clusterMarker_ c) (getZoom map),
      (λ r, addLayer (MarkerLayer (marker r))) <$> Cluster.markers_ c)) ∨
  (mode = false ∧
   ∃ b2, ClusterMarker_.count_ b2 = Some (length (Cluster.markers_ c)) ∧
         ClusterMarker_.hidden b2 = false ∧
         ClusterMarker_.redraw b2 = b2 ∧
         (Cluster.redraw_ lc map true c).1.1
         = Cluster.mk (Cluster.center_ c) (Cluster.markers_ c) (Some b2) (getZoom map) ∧
         (Cluster.redraw_ lc map true c).1.2
         = Cluster.detach_added (Cluster.markers_ c) ++
           match Cluster.clusterMarker_ c with
           | None => [addLayer (BadgeLayer b2)]
           | Some _ => []
           end).
Proof.
  unfold Cluster.redraw_. cbn [negb andb]. unfold Cluster.getTotalMarkers.
  destruct ((default (getMaxZoom map) (maxZoom_ lc) <=? getZoom map)%Z
            || (length (Cluster.markers_ c) =? 1)) eqn:Hmode.
  - intros _. left. done.
  - destruct (Cluster.clusterMarker_ c) as [b|] eqn:Hb.
    + destruct (ClusterMarker_.reset _ b) as [b1 [|e]] eqn:Hr; [|done].
      intros _. right. split; [done|].
      apply reset_Normal_count in Hr. cbn in Hr.
      pose proof (redraw_show_spec b1) as (Hc & Hh & Hre). cbn zeta in *.
      eexists. split_and!; [| |exact Hre|reflexivity|cbn; by rewrite app_nil_r].
      * congruence.
      * done.
    + destruct (ClusterMarker_.initialize _ _ _ _) as [b1 [|e]] eqn:Hr; [|done].
      intros _. right. split; [done|].
      apply reset_Normal_count in Hr. cbn in Hr.
      exists (ClusterMarker_.onAdd b1). split_and!; try done.
      by apply redraw_fresh_div.
Qed.

Lemma redraw_settled lc map f c b2 :
  ((default (getMaxZoom map) (maxZoom_ lc) <=? getZoom map)%Z
   || (length (Cluster.markers_ c) =? 1)) = false →
  ClusterMarker_.count_ b2 = Some (length (Cluster.markers_ c)) →
  ClusterMarker_.hidden b2 = false →
  ClusterMarker_.redraw b2 = b2 →
  Cluster.redraw_ lc map f
    (Cluster.mk (Cluster.center_ c) (Cluster.markers_ c) (Some b2) (getZoom map))
  = (Cluster.mk (Cluster.center_ c) (Cluster.markers_ c) (Some b2) (getZoom map),
     if negb f && negb (Cluster.isInBounds lc map None
          (Cluster.mk (Cluster.center_ c) (Cluster.markers_ c) (Some b2) (getZoom map)))
     then [] else Cluster.detach_added (Cluster.markers_ c), Normal).
Proof.
  intros Hmode Hc Hh Hre. unfold Cluster.redraw_.
  destruct (negb f && _); [done|].
  unfold Cluster.getTotalMarkers.
  cbn [Cluster.markers_ Cluster.clusterMarker_ Cluster.center_ Cluster.zoom_].
  rewrite Hmode. rewrite reset_same_count by done.
  rewrite Hre. unfold ClusterMarker_.isHidden. by rewrite Hh.
Qed.

Lemma redraw_settled_individual lc map f c :
  ((default (getMaxZoom map) (maxZoom_ lc) <=? getZoom map)%Z
   || (length (Cluster.markers_ c) =? 1)) = true →
  let c1 := Cluster.mk (Cluster.center_ c) (Cluster.set_added <$> Cluster.markers_ c)
              (ClusterMarker_.hide <$> Cluster.clusterMarker_ c) (getZoom map) in
  Cluster.redraw_ lc map f c1
  = (c1, if negb f && negb (Cluster.isInBounds lc map None c1) then []
         else (λ r, addLayer (MarkerLayer (marker r))) <$> Cluster.markers_ c, Normal).
Proof.
  intros Hmode c1. unfold Cluster.redraw_.
  destruct (negb f && _); [done|].
  unfold Cluster.getTotalMarkers. subst c1.
  cbn [Cluster.markers_ Cluster.clusterMarker_ Cluster.center_ Cluster.zoom_].
  rewrite length_fmap, Hmode, set_added_idem, set_added_events.
  do 3 f_equal. by destruct (Cluster.clusterMarker_ c).
Qed.

(** X5. A forced redraw that completed normally is idempotent on the
    cluster: redrawing again, forced or not, leaves the cluster exactly as
    the first redraw left it and completes normally. What the second forced
    redraw does repeat are the calls on the map: every [addLayer] on a
    member is made again (the individual branch does not look at
    [isAdded]) and so is every [removeLayer] (the aggregate branch leaves
    the [isAdded] flags set); only the [addLayer] of a newly created badge
    is not repeated. *)
Theorem redraw_twice (lc : Config) (map : Map) (c : Cluster.t) :
  (Cluster.redraw_ lc map true c).2 = Normal →
  let c1 := (Cluster.redraw_ lc map true c).1.1 in
  let ev1 := (Cluster.redraw_ lc map true c).1.2 in
  (∀ f, (Cluster.redraw_ lc map f c1).1.1 = c1 ∧ (Cluster.redraw_ lc map f c1).2 = Normal) ∧
  ((Cluster.redraw_ lc map true c1).1.2 = ev1 ∨
   ∃ b, Cluster.clusterMarker_ c = None ∧ Cluster.clusterMarker_ c1 = Some b ∧
        ev1 = (Cluster.redraw_ lc map true c1).1.2 ++ [addLayer (BadgeLayer b)]).
Proof.
  intros HN c1 ev1.
  destruct (redraw_forced_shape lc map c HN) as [[Hmode Heq]|(Hmode & b2 & Hc & Hh & Hre & H1 & H2)].
  - subst c1 ev1. rewrite Heq. cbn [fst snd]. split.
    + intros f. by rewrite (redraw_settled_individual lc map f c Hmode).
    + left. by rewrite (redraw_settled_individual lc map true c Hmode).
  - subst c1 ev1. rewrite H1, H2. split.
    + intros f. by rewrite (redraw_settled lc map f c b2 Hmode Hc Hh Hre).
    + rewrite (redraw_settled lc map true c b2 Hmode Hc Hh Hre). cbn [fst snd negb andb].
      destruct (Cluster.clusterMarker_ c) as [b|].
      * left. by rewrite app_nil_r.
      * right. by exists b2.
Qed.

Lemma redraw_twice_witness :
  (Cluster.redraw_ w_lc (w_map 10) true w_pair).2 = Normal ∧
  (Cluster.redraw_ w_lc (w_map 10) false (Cluster.redraw_ w_lc (w_map 10) true w_pair).1.1).1.1
  = (Cluster.redraw_ w_lc (w_map 10) true w_pair).1.1.
Proof.
  split; [reflexivity|].
  apply (redraw_twice w_lc (w_map 10) w_pair). reflexivity.
Defined.

(** * Resetting a badge *)




Lemma reset_noop o b :
  (∀ l, ClusterMarker_.o_latLng o = Some l → ClusterMarker_.latlng_ b = Some l) →
  (∀ s, ClusterMarker_.o_styles o = Some s → ClusterMarker_.styles_ b = Some s) →
  ClusterMarker_.count_ b = Some (ClusterMarker_.o_count o) →
  (∀ p, ClusterMarker_.o_padding o = Some p → ClusterMarker_.padding_ b = Some p) →
  ClusterMarker_.reset o b = (b, Normal).
Proof.
  destruct o as [ol n os op], b as [l s c i st p u h ih]. cbn.
  intros Hl Hs -> Hp. unfold ClusterMarker_.reset. cbn.
  destruct ol as [l'|]; [rewrite (Hl l' eq_refl), bool_decide_false by (intros H; by apply H)|];
  (destruct os as [s'|]; [rewrite (Hs s' eq_refl), bool_decide_false by (intros H; by apply H)|]);
  cbn; (rewrite bool_decide_false by (intros H; by apply H)); cbn;
  (destruct op as [p'|]; [rewrite (Hp p' eq_refl), bool_decide_false by (intros H; by apply H)|]);
  cbn; by rewrite ?orb_false_r.
Qed.

Lemma reset_Normal_fields o b b' :
  ClusterMarker_.reset o b = (b', Normal) →
  (∀ l, ClusterMarker_.o_latLng o = Some l → ClusterMarker_.latlng_ b' = Some l) ∧
  (∀ s, ClusterMarker_.o_styles o = Some s → ClusterMarker_.styles_ b' = Some s) ∧
  (∀ p, ClusterMarker_.o_padding o = Some p → ClusterMarker_.padding_ b' = Some p).
Proof.
  destruct o as [ol n os op], b as [l s c i st p u h ih].
  unfold ClusterMarker_.reset.
  cbn [ClusterMarker_.o_latLng ClusterMarker_.o_styles ClusterMarker_.o_count
       ClusterMarker_.o_padding ClusterMarker_.latlng_ ClusterMarker_.styles_
       ClusterMarker_.count_ ClusterMarker_.index_ ClusterMarker_.style_
       ClusterMarker_.padding_ ClusterMarker_.updated ClusterMarker_.hidden
       ClusterMarker_.innerHTML].
  set (x1 := match ol with Some _ => _ | None => _ end).
  assert (∃ u1, x1 = (ClusterMarker_.mk (from_option Some l ol) s c i st p u h ih, u1))
    as [u1 ->].
  { subst x1. destruct ol as [l'|]; cbn; [|by eexists].
    destruct (decide (l = Some l')) as [->|Hne].
    - rewrite bool_decide_false by (intros H; by apply H). by eexists.
    - rewrite bool_decide_true by done. by eexists. }
  cbn [ClusterMarker_.latlng_ ClusterMarker_.styles_
       ClusterMarker_.count_ ClusterMarker_.index_ ClusterMarker_.style_
       ClusterMarker_.padding_ ClusterMarker_.updated ClusterMarker_.hidden
       ClusterMarker_.innerHTML].
  set (x2 := match os with Some _ => _ | None => _ end).
  assert (∃ u2, x2 = (ClusterMarker_.mk (from_option Some l ol) (from_option Some s os)
                         c i st p u h ih, u2)) as (u2 & ->).
  { subst x2. destruct os as [s'|]; cbn; [|by eexists].
    destruct (decide (s = Some s')) as [->|Hne].
    - rewrite bool_decide_false by (intros H; by apply H). by eexists.
    - rewrite bool_decide_true by done. by eexists. }
  cbn [ClusterMarker_.latlng_ ClusterMarker_.styles_
       ClusterMarker_.count_ ClusterMarker_.index_ ClusterMarker_.style_
       ClusterMarker_.padding_ ClusterMarker_.updated ClusterMarker_.hidden
       ClusterMarker_.innerHTML].
  set (x3 := if _ || u2 then _ else _).
  assert (x3.2 = Normal →
          ∃ c' i' st', x3.1 = ClusterMarker_.mk (from_option Some l ol) (from_option Some s os)
                                c' i' st' p u h ih) as H3.
  { subst x3. destruct (_ || u2); [|by eexists _, _, _].
    destruct (ClusterMarker_.style_at _ _); [|done]. by eexists _, _, _. }
  destruct x3 as [this3 [|e]]; [|done]. destruct (H3 eq_refl) as (c' & i' & st' & Ht).
  cbn in Ht. subst this3.
  destruct op as [p'|]; cbn.
  - destruct (decide (p = Some p')) as [->|Hne].
    + rewrite bool_decide_false by (intros H; by apply H).
      intros [= <-]. cbn. split_and!; intros ? ?; by simplify_eq/=.
    + rewrite bool_decide_true by done.
      intros [= <-]. cbn. split_and!; intros ? ?; by simplify_eq/=.
  - intros [= <-]. cbn. split_and!; intros ? ?; by simplify_eq/=.
Qed.

(** X7. [reset] is idempotent: after a call that completed normally, the
    same call again changes nothing at all in the badge (not the tier, not
    the [updated] flag) and completes normally. In particular the style
    tier is only recomputed when the count or the style list actually
    changes. *)
Theorem reset_idempotent (o : ClusterMarker_.opts) (b : ClusterMarker_.t) :
  (ClusterMarker_.reset o b).2 = Normal →
  ClusterMarker_.reset o (ClusterMarker_.reset o b).1 = ((ClusterMarker_.reset o b).1, Normal).
Proof.
  destruct (ClusterMarker_.reset o b) as [b' r] eqn:E. cbn. intros ->.
  pose proof (reset_Normal_count _ _ _ E) as Hc.
  destruct (reset_Normal_fields _ _ _ E) as (Hl & Hs & Hp).
  by apply reset_noop.
Qed.

(** * Totals *)




(** * Which calls can fail *)

Lemma removeMarker_completion lc map m s :
  completion_of (removeMarker lc map m s)
  = if bool_decide (clusters_ s = []) then Normal else Throw (NotAFunction "remove").
Proof.
  unfold removeMarker, mbind, M_bind, get. destruct (clusters_ s) as [|a rest]; done.
Qed.

Lemma perform_completes lc map op s :
  styles_ lc ≠ [] → inv lc s → (∀ m, op ≠ OpRemoveMarker m) →
  completion_of (perform lc map op s) = Normal.
Proof.
  intros Hst Hinv Hop. destruct op as [m nodraw added nocheck|ms|m| |]; cbn.
  - destruct (addMarker_inv lc map m nodraw added None nocheck s Hst Hinv)
      as (r & s' & Heq & _); [done|].
    unfold mbind, M_bind. by rewrite Heq.
  - destruct (addMarkers_inv lc map ms s Hst Hinv) as (s' & Heq & _). by rewrite Heq.
  - by destruct (Hop m).
  - destruct (resetViewport_inv lc map s Hst Hinv) as (s' & Heq & _). by rewrite Heq.
  - destruct (clearMarkers_inv lc s) as (s' & Heq & _). by rewrite Heq.
Qed.

(** X9. The only public call that can fail is [removeMarker]. In every
    session the constructor completes normally, and whatever the host map
    shows, a further [addMarker], [addMarkers], [resetViewport] or
    [clearMarkers] completes normally, while a further [removeMarker]
    throws the TypeError of the missing method [remove] exactly when the
    global cluster list is not empty. *)
Theorem only_removeMarker_throws (map0 : Map) (opt_markers : option (list Marker))
    (opt_opts : option Options) (ops : list (Map * Op)) :
  let lc := configure opt_opts in
  let x := session map0 opt_markers opt_opts ops in
  head x.2 = Some Normal ∧
  (∀ map op, (∀ m, op ≠ OpRemoveMarker m) →
             completion_of (perform lc map op x.1) = Normal) ∧
  (∀ map m, completion_of (perform lc map (OpRemoveMarker m) x.1)
            = if bool_decide (clusters_ x.1 = []) then Normal
              else Throw (NotAFunction "remove")).
Proof.
  cbn zeta.
  destruct (session_inv map0 opt_markers opt_opts ops) as (Hinv & _ & _).
  cbn zeta in *. split_and!.
  - unfold session, create.
    destruct (run _ ops _) as [s cs]. cbn.
    destruct opt_markers as [ms|]; [|done].
    destruct (addMarkers_inv (configure opt_opts) map0 ms empty) as (s' & Heq & _).
    + apply configure_styles.
    + apply empty_inv.
    + by rewrite Heq.
  - intros map op Hop. apply perform_completes; [apply configure_styles|done|done].
  - intros map m. apply removeMarker_completion.
Qed.

(** * Clearing the clusterer *)

Lemma alter_lookup_insert {A} (f : A → A) (st : list A) a c :
  st !! a = Some c → alter f a st = <[a:=f c]> st.
Proof.
  revert a. induction st as [|x st IH]; intros [|a] Hc; simpl in *; try done.
  - by injection Hc as ->.
  - f_equal. by apply IH.
Qed.

Lemma alter_lookup_none {A} (f : A → A) (st : list A) a :
  st !! a = None → alter f a st = st.
Proof.
  revert a. induction st as [|x st IH]; intros [|a] Hc; simpl in *; try done.
  f_equal. by apply IH.
Qed.

Lemma foldl_alter_length {A} (f : A → A) (l : list nat) (st : list A) :
  length (foldl (λ st a, alter f a st) st l) = length st.
Proof.
  revert st. induction l as [|a l IH]; intros st; [done|].
  cbn. rewrite IH. apply length_alter.
Qed.

Lemma foldl_alter_notin {A} (f : A → A) (l : list nat) (st : list A) a :
  a ∉ l → foldl (λ st a, alter f a st) st l !! a = st !! a.
Proof.
  revert st. induction l as [|b l IH]; intros st Ha; [done|].
  apply not_elem_of_cons in Ha as [Hab Ha].
  cbn. rewrite IH by done. by apply list_lookup_alter_ne.
Qed.

Lemma foldl_alter_in {A} (f : A → A) (l : list nat) (st : list A) a :
  NoDup l → a ∈ l → foldl (λ st a, alter f a st) st l !! a = f <$> st !! a.
Proof.
  revert st. induction l as [|b l IH]; intros st Hnd Ha; [by apply elem_of_nil in Ha|].
  apply NoDup_cons in Hnd as [Hb Hnd]. cbn.
  apply elem_of_cons in Ha as [->|Ha].
  - rewrite foldl_alter_notin by done. apply list_lookup_alter_eq.
  - rewrite IH by done. rewrite list_lookup_alter_ne; [done|]. by intros ->.
Qed.

Lemma clearMarkers_loop_closed l s :
  NoDup l →
  clearMarkers_loop l s
  = Ret tt (mk (clusters_ s) (leftMarkers_ s)
              (foldl (λ st a, alter (λ c, (Cluster.clearMarkers c).1) a st) (store s) l)
              (log s ++ (l ≫= clear_events (store s)))).
Proof.
  revert s. induction l as [|a l IH]; intros s Hl.
  - cbn. rewrite app_nil_r. by destruct s.
  - apply NoDup_cons in Hl as [Hal Hl].
    cbn -[Cluster.clearMarkers].
    destruct (store s !! a) as [c|] eqn:Hc.
    + rewrite (bind_Ret _ _ _ _ _ (call_clearMarkers_eq a c s Hc)).
      rewrite IH by done. cbn [clusters_ leftMarkers_ store log].
      rewrite (alter_lookup_insert _ _ _ _ Hc).
      f_equal. f_equal. rewrite <- app_assoc. f_equal.
      assert (clear_events (store s) a = (Cluster.clearMarkers c).2) as ->
        by (unfold clear_events; by rewrite Hc).
      f_equal. apply list_bind_ext_in. intros b Hb. apply clear_events_insert_ne. by intros ->.
    + unfold call_clearMarkers, mbind at 1, M_bind at 1.
      unfold mbind at 1, M_bind at 1, get at 1. rewrite Hc.
      unfold mret at 1, M_ret at 1.
      rewrite IH by done. rewrite (alter_lookup_none _ _ _ Hc).
      assert (clear_events (store s) a = []) as ->
        by (unfold clear_events; by rewrite Hc).
      done.
Qed.

(** X10. [clearMarkers] never fails and leaves the clusterer empty: no
    cluster on the global list, no pending marker, both totals 0. Every
    cluster that was on the list is emptied and the map is told, cluster by
    cluster in list order, to remove the badge if there is one and then
    every member flagged as added; clusters that were not on the list are
    not touched. Calling it again is a no-op. *)
Theorem clearMarkers_empties (s : t) :
  NoDup (clusters_ s) →
  ∃ s', clearMarkers s = Ret tt s' ∧
    clusters_ s' = [] ∧ leftMarkers_ s' = [] ∧
    getTotalMarkers s' = 0 ∧ getTotalClusters s' = 0 ∧
    length (store s') = length (store s) ∧
    (∀ a, a ∈ clusters_ s → members_of (store s') a = []) ∧
    (∀ a, a ∉ clusters_ s → store s' !! a = store s !! a) ∧
    log s' = log s ++ (clusters_ s ≫= clear_events (store s)) ∧
    clearMarkers s' = Ret tt s'.
Proof.
  intros Hnd. eexists. split.
  - unfold clearMarkers. unfold mbind at 1, M_bind at 1, get at 1.
    rewrite (bind_Ret _ _ _ _ _ (clearMarkers_loop_closed _ s Hnd)).
    reflexivity.
  - cbn [clusters_ leftMarkers_ store log]. split_and!; try done.
    + apply foldl_alter_length.
    + intros a Ha. unfold members_of. rewrite foldl_alter_in by done.
      by destruct (store s !! a).
    + intros a Ha. by apply foldl_alter_notin.
Qed.

Lemma clearMarkers_empties_witness :
  NoDup (clusters_ w_state1) ∧
  ∃ s', clearMarkers w_state1 = Ret tt s' ∧ clusters_ s' = [].
Proof.
  assert (NoDup (clusters_ w_state1)) as H.
  { refine (bool_decide_unpack _ _). vm_compute. exact I. }
  split; [exact H|].
  destruct (clearMarkers_empties w_state1 H) as (s' & H1 & H2 & _).
  by exists s'.
Defined.

(** * resetViewport when the zoom has not changed *)

Lemma filter_none {A} (P : A → Prop) `{∀ x, Decision (P x)} (l : list A) :
  (∀ x, x ∈ l → ¬ P x) → filter P l = [].
Proof.
  induction l as [|x l IH]; intros Hl; [done|].
  rewrite filter_cons_False by (apply Hl; by left).
  apply IH. intros y Hy. apply Hl. by right.
Qed.

Lemma dissolve_nothing lc map s :
  dissolved lc map s = [] → dissolve lc map s = s.
Proof.
  intros H. unfold dissolve. rewrite H. cbn.
  rewrite filter_notin_nil, app_nil_r. by destruct s.
Qed.

Lemma resetViewport_fresh lc map s :
  NoDup (clusters_ s) → viewport_fresh lc map s →
  resetViewport lc map s = (addLeftMarkers_ lc map;; redraw_ lc map) s.
Proof.
  intros Hnd Hfresh. rewrite resetViewport_is_protocol by done.
  unfold resetViewport_protocol.
  assert (dissolved lc map s = []) as Hd.
  { unfold dissolved. apply filter_none. intros a Ha Hst.
    apply list_elem_of_filter in Ha as [Hin Ha].
    rewrite Hfresh in Hst; [done|done|]. by apply Is_true_true. }
  unfold collected. rewrite Hd, (dissolve_nothing _ _ _ Hd). reflexivity.
Qed.

(** X11. When no cluster in the viewport carries a zoom stamp other than
    the map's current zoom (the map was panned, not zoomed),
    [resetViewport] dissolves nothing and regroups nothing: it only
    re-attempts the pending markers and redraws the clusters in the
    viewport. *)
Theorem resetViewport_same_zoom (lc : Config) (map : Map) (s : t) :
  NoDup (clusters_ s) →
  (∀ a, a ∈ clusters_ s →
        cluster_in_bounds lc map (getBounds map) (store s) a = true →
        stale map (store s) a = false) →
  resetViewport lc map s = (addLeftMarkers_ lc map;; redraw_ lc map) s.
Proof.
  intros Hnd Hfresh. rewrite resetViewport_is_protocol by done.
  unfold resetViewport_protocol.
  assert (dissolved lc map s = []) as Hd.
  { unfold dissolved. apply filter_none. intros a Ha Hst.
    apply list_elem_of_filter in Ha as [Hin Ha].
    rewrite Hfresh in Hst; [done|done|]. by apply Is_true_true. }
  assert (dissolve lc map s = s) as Hs.
  { unfold dissolve. rewrite Hd. cbn.
    rewrite filter_notin_nil, app_nil_r. by destruct s. }
  unfold collected. rewrite Hd, Hs. reflexivity.
Qed.

(** * Induction over the states a session reaches

    Every public operation is a composition of six elementary changes of
    state: deferring a marker, filling a cluster that passed the grid test,
    pushing a new cluster of one marker, redrawing a cluster, dissolving a
    cluster, and emptying the pending list. A property of states kept by
    these six holds in every state a session reaches. *)

Lemma inv_same lc s s' :
  clusters_ s' = clusters_ s → store s' = store s → inv lc s → inv lc s'.
Proof. intros Hc Hs [Hnd Hall]. split; rewrite ?Hc, ?Hs; done. Qed.

Lemma inv_fill lc s a c ref :
  inv lc s → a ∈ clusters_ s → store s !! a = Some c →
  inv lc (mk (clusters_ s) (leftMarkers_ s) (<[a:=Cluster.addMarker ref c]> (store s)) (log s)).
Proof.
  intros Hinv Ha Hc. pose proof Hinv as [Hnd Hall].
  destruct (Hall a Ha) as (c0 & Hc0 & Hg0). assert (c0 = c) as -> by congruence.
  split; [done|]. intros b Hb. cbn in *. destruct (decide (a = b)) as [->|Hne].
  - eexists. split; [apply list_lookup_insert_eq; by eapply lookup_lt_Some|].
    apply addMarker_good; apply Hg0.
  - rewrite list_lookup_insert_ne by done. by apply Hall.
Qed.

Lemma inv_push lc map s ref :
  inv lc s →
  inv lc (mk (clusters_ s ++ [length (store s)]) (leftMarkers_ s)
             (store s ++ [Cluster.addMarker ref (Cluster.new map)]) (log s)).
Proof.
  intros Hinv.
  assert (Hlt : ∀ b, b ∈ clusters_ s → b < length (store s))
    by (intros b Hb; by eapply inv_lookup).
  destruct Hinv as [Hnd Hall]. split; cbn.
  - apply NoDup_app. split; [done|]. split; [|apply NoDup_singleton].
    intros b Hb ->%list_elem_of_singleton. specialize (Hlt _ Hb). lia.
  - intros b [Hb| ->%list_elem_of_singleton]%elem_of_app.
    + destruct (Hall b Hb) as (c & Hc & Hg). exists c. split; [|done].
      rewrite lookup_app_l; [done|]. by apply Hlt.
    + eexists. split; [rewrite lookup_app_r by lia; by rewrite Nat.sub_diag|].
      by apply addMarker_good.
Qed.


Section reachable.
Context (lc : Config) (okmap : Map → Prop) (I : t → Prop).
Hypothesis Hst : styles_ lc ≠ [].
Hypothesis I_defer : ∀ s m,
  inv lc s → I s → I (mk (clusters_ s) (leftMarkers_ s ++ [m]) (store s) (log s)).
Hypothesis I_fill : ∀ map s a c ref,
  okmap map → inv lc s → I s → a ∈ clusters_ s → store s !! a = Some c →
  in_grid lc map (latLngToLayerPoint map (getLatLng (marker ref))) c = true →
  I (mk (clusters_ s) (leftMarkers_ s) (<[a:=Cluster.addMarker ref c]> (store s)) (log s)).
Hypothesis I_push : ∀ map s ref,
  okmap map → inv lc s → I s →
  I (mk (clusters_ s ++ [length (store s)]) (leftMarkers_ s)
        (store s ++ [Cluster.addMarker ref (Cluster.new map)]) (log s)).
Hypothesis I_redraw : ∀ map s a c f,
  okmap map → inv lc s → I s → a ∈ clusters_ s → store s !! a = Some c →
  I (mk (clusters_ s) (leftMarkers_ s)
        (<[a:=(Cluster.redraw_ lc map f c).1.1]> (store s))
        (log s ++ (Cluster.redraw_ lc map f c).1.2)).
Hypothesis I_dissolve : ∀ s a c,
  inv lc s → I s → a ∈ clusters_ s → store s !! a = Some c →
  I (mk (filter (λ b, b ≠ a) (clusters_ s)) (leftMarkers_ s)
        (<[a:=(Cluster.clearMarkers c).1]> (store s))
        (log s ++ (Cluster.clearMarkers c).2)).
Hypothesis I_pending : ∀ s,
  inv lc s → I s → I (mk (clusters_ s) [] (store s) (log s)).

Lemma I_redraw_unless map (nodraw : bool) s a c :
  okmap map → inv lc s → I s → a ∈ clusters_ s → store s !! a = Some c →
  I (mk (clusters_ s) (leftMarkers_ s)
        (<[a:=(redraw_unless nodraw lc map c).1.1]> (store s))
        (log s ++ (redraw_unless nodraw lc map c).1.2)).
Proof.
  intros Hok Hinv HI Ha Hc. destruct nodraw; cbn.
  - rewrite app_nil_r, list_insert_id by done. by destruct s.
  - by apply I_redraw.
Qed.

Lemma reach_addMarker map m nodraw added opt_clusters nocheck s :
  okmap map → inv lc s → I s →
  (∀ a, a ∈ default (clusters_ s) opt_clusters → a ∈ clusters_ s) →
  ∃ r s', addMarker lc map m nodraw added opt_clusters nocheck s = Ret r s' ∧
    inv lc s' ∧ I s' ∧
    (∀ a, a ∈ default (clusters_ s') r → a ∈ clusters_ s') ∧
    (is_Some opt_clusters → is_Some r).
Proof.
  intros Hok Hinv HI Hsub.
  destruct (addMarker_inv lc map m nodraw added opt_clusters nocheck s Hst Hinv Hsub)
    as (r & s' & Heq & Hinv' & Hsub' & Hsome & _).
  exists r, s'. split_and!; try done.
  destruct (addMarker_cases lc map m opt_clusters nocheck s)
    as [[-> Hout] | [Hv [(a & c & Hs & Hc) | Hs]]].
  - rewrite addMarker_deferred in Heq by done. injection Heq as _ <-. by apply I_defer.
  - rewrite (addMarker_join lc map m nodraw added opt_clusters nocheck s a c Hv Hs Hc) in Heq.
    cbn zeta in Heq.
    set (ref := mkRef (default false added) m) in *.
    assert (Ha : a ∈ clusters_ s).
    { apply Hsub. apply search_fits in Hs as (k & _ & Hk & _).
      by eapply list_elem_of_lookup_2. }
    assert (Hfit : in_grid lc map (latLngToLayerPoint map (getLatLng (marker ref))) c = true).
    { apply search_fits in Hs as (k & _ & _ & Hf & _).
      apply fits_lookup in Hf as (c0 & Hc0 & Hf).
      assert (c0 = c) as -> by congruence. exact Hf. }
    pose proof (inv_fill lc s a c ref Hinv Ha Hc) as Hinv1.
    pose proof (I_fill map s a c ref Hok Hinv HI Ha Hc Hfit) as HI1.
    pose proof (I_redraw_unless map nodraw _ a (Cluster.addMarker ref c) Hok Hinv1 HI1 Ha) as HI2.
    cbn [clusters_ leftMarkers_ store log] in HI2.
    rewrite list_insert_insert_eq in HI2.
    specialize (HI2 ltac:(apply list_lookup_insert_eq; by eapply lookup_lt_Some)).
    destruct ((redraw_unless nodraw lc map (Cluster.addMarker ref c)).2);
      [|done]. by injection Heq as _ <-.
  - rewrite (addMarker_new lc map m nodraw added opt_clusters nocheck s Hv Hs) in Heq.
    cbn zeta in Heq. injection Heq as _ <-.
    set (ref := mkRef (default false added) m) in *.
    pose proof (inv_push lc map s ref Hinv) as Hinv1.
    pose proof (I_push map s ref Hok Hinv HI) as HI1.
    pose proof (I_redraw_unless map nodraw _ (length (store s))
                  (Cluster.addMarker ref (Cluster.new map)) Hok Hinv1 HI1) as HI2.
    cbn [clusters_ leftMarkers_ store log] in HI2.
    rewrite (insert_app_r_alt (store s)) in HI2 by lia.
    rewrite Nat.sub_diag in HI2. cbn [insert list_insert] in HI2.
    apply HI2.
    + apply elem_of_app. right. by left.
    + rewrite lookup_app_r by lia. by rewrite Nat.sub_diag.
Qed.


Lemma reach_addLeftMarkers_loop map ms s :
  okmap map → inv lc s → I s →
  ∃ s', addLeftMarkers_loop lc map ms s = Ret tt s' ∧ inv lc s' ∧ I s'.
Proof.
  intros Hok. revert s. induction ms as [|m ms IH]; intros s Hinv HI; [by exists s|].
  cbn.
  destruct (reach_addMarker map m true None None true s Hok Hinv HI ltac:(done))
    as (r & s1 & Heq & Hinv1 & HI1 & _).
  rewrite (bind_Ret _ _ _ _ _ Heq). by apply IH.
Qed.

Lemma reach_addLeftMarkers map s :
  okmap map → inv lc s → I s →
  ∃ s', addLeftMarkers_ lc map s = Ret tt s' ∧ inv lc s' ∧ I s'.
Proof.
  intros Hok Hinv HI. unfold addLeftMarkers_.
  unfold mbind at 1, M_bind at 1, get at 1.
  destruct (leftMarkers_ s) as [|m ms] eqn:Hl; cbn; [by exists s|].
  destruct (reach_addLeftMarkers_loop map (m :: ms) s Hok Hinv HI) as (s1 & Heq & Hinv1 & HI1).
  rewrite (bind_Ret _ _ _ _ _ Heq). eexists. split; [reflexivity|].
  split; [by eapply inv_same|]. by apply I_pending.
Qed.

Lemma reach_reAddMarkers_loop map markers i clusters s :
  okmap map → inv lc s → I s →
  (∀ a, a ∈ clusters → a ∈ clusters_ s) →
  ∃ cl s', reAddMarkers_loop lc map markers i clusters s = Ret cl s' ∧ inv lc s' ∧ I s'.
Proof.
  intros Hok. revert clusters s. induction i as [|i IH]; intros clusters s Hinv HI Hsub.
  - by exists clusters, s.
  - cbn. destruct (markers !! i) as [r|] eqn:Hr; [|by apply IH].
    destruct (reach_addMarker map (marker r) true (Some (isAdded r)) (Some clusters) true s
                Hok Hinv HI Hsub) as (cl & s1 & Heq & Hinv1 & HI1 & Hsub1 & Hsome).
    rewrite (bind_Ret _ _ _ _ _ Heq).
    destruct (Hsome ltac:(done)) as [l' ->]. by apply IH.
Qed.











End reachable.


(** * Every member lies in the grid square of its cluster *)









(** * What is on the map *)








Lemma redraw_skip_or_forced lc map f c :
  Cluster.redraw_ lc map f c = (c, [], Normal) ∨
  Cluster.redraw_ lc map f c = Cluster.redraw_ lc map true c.
Proof.
  unfold Cluster.redraw_. destruct (negb f && _); [by left|by right].
Qed.













(** * Redrawing the viewport, and doing it again *)

Lemma redraw_settles lc map f c :
  (Cluster.redraw_ lc map true c).2 = Normal →
  (Cluster.redraw_ lc map f (Cluster.redraw_ lc map true c).1.1).1.1
  = (Cluster.redraw_ lc map true c).1.1.
Proof.
  intros HN.
  destruct (redraw_forced_shape lc map c HN)
    as [[Hmode Heq]|(Hmode & b2 & Hc & Hh & Hre & H1 & H2)].
  - rewrite Heq. cbn [fst snd]. by rewrite (redraw_settled_individual lc map f c Hmode).
  - rewrite H1. by rewrite (redraw_settled lc map f c b2 Hmode Hc Hh Hre).
Qed.

Lemma redraw_forced_zoom lc map c :
  Cluster.zoom_ (Cluster.redraw_ lc map true c).1.1 = getZoom map.
Proof.
  unfold Cluster.redraw_. cbn [negb andb].
  destruct (_ || _); [done|].
  destruct (Cluster.clusterMarker_ c) as [b|].
  - by destruct (ClusterMarker_.reset _ b) as [b1 [|e]].
  - by destruct (ClusterMarker_.initialize _ _ _ _) as [b1 [|e]].
Qed.

Lemma isInBounds_frame lc map bounds c c' :
  Cluster.center_ c' = Cluster.center_ c → Cluster.zoom_ c' = Cluster.zoom_ c →
  Cluster.isInBounds lc map bounds c' = Cluster.isInBounds lc map bounds c.
Proof. intros Hc Hz. unfold Cluster.isInBounds. by rewrite Hc, Hz. Qed.

Lemma foldl_alter_id {A} (f : A → A) (l : list nat) (st : list A) :
  (∀ a c, a ∈ l → st !! a = Some c → f c = c) →
  foldl (λ st a, alter f a st) st l = st.
Proof.
  induction l as [|a l IH]; intros H; [done|]. cbn.
  assert (alter f a st = st) as ->.
  { destruct (st !! a) as [c|] eqn:Hc.
    - rewrite (alter_lookup_insert _ _ _ _ Hc), (H a c); [|by left|done].
      by apply list_insert_id.
    - by apply alter_lookup_none. }
  apply IH. intros b c Hb Hc. apply (H b c); [by right|done].
Qed.

Lemma redraw_loop_closed lc map l s :
  styles_ lc ≠ [] → inv lc s → (∀ a, a ∈ l → a ∈ clusters_ s) →
  ∃ s', redraw_loop lc map l s = Ret tt s' ∧ inv lc s' ∧
        clusters_ s' = clusters_ s ∧ leftMarkers_ s' = leftMarkers_ s ∧
        store s' = foldl (λ st a, alter (λ c, (Cluster.redraw_ lc map true c).1.1) a st)
                     (store s) l.
Proof.
  intros Hst. revert s. induction l as [|a l IH]; intros s Hinv Hsub; [by exists s|].
  assert (Ha : a ∈ clusters_ s) by (apply Hsub; by left).
  pose proof Hinv as [Hnd Hall]. destruct (Hall a Ha) as (c & Hc & Hg).
  destruct (call_redraw_inv lc map a true s Hst Hinv Ha) as (s1 & Hr & Hinv1 & Hc1 & Hl1 & _).
  assert (store s1 = <[a:=(Cluster.redraw_ lc map true c).1.1]> (store s)) as Hs1.
  { rewrite (call_redraw_eq lc map a true c s Hc) in Hr. cbn zeta in Hr.
    destruct ((Cluster.redraw_ lc map true c).2); [|done]. by injection Hr as <-. }
  destruct (IH s1 Hinv1) as (s2 & Hr2 & Hinv2 & Hc2 & Hl2 & Hs2).
  { intros b Hb. rewrite Hc1. apply Hsub. by right. }
  exists s2. cbn [redraw_loop foldl]. rewrite (bind_Ret _ _ _ _ _ Hr).
  split_and!; try done; try congruence.
  rewrite Hs2, Hs1. by rewrite (alter_lookup_insert _ _ _ _ Hc).
Qed.

Lemma redraw_closed lc map s :
  styles_ lc ≠ [] → inv lc s →
  let V := filter (λ a, cluster_in_bounds lc map (getBounds map) (store s) a) (clusters_ s) in
  ∃ s', redraw_ lc map s = Ret tt s' ∧ inv lc s' ∧
        clusters_ s' = clusters_ s ∧ leftMarkers_ s' = leftMarkers_ s ∧
        (∀ a, a ∉ V → store s' !! a = store s !! a) ∧
        (∀ a c, a ∈ V → store s !! a = Some c →
                store s' !! a = Some (Cluster.redraw_ lc map true c).1.1).
Proof.
  intros Hst Hinv V. unfold redraw_.
  rewrite (bind_Ret _ _ _ _ _ (getClustersInViewport_eq lc map s)). fold V.
  destruct (redraw_loop_closed lc map V s Hst Hinv) as (s' & Hr & Hinv' & Hc' & Hl' & Hs').
  { intros a Ha. by apply list_elem_of_filter in Ha as [_ Ha]. }
  exists s'. split_and!; try done.
  - intros a Ha. rewrite Hs'. by apply foldl_alter_notin.
  - intros a c Ha Hc. rewrite Hs', foldl_alter_in; [by rewrite Hc|apply NoDup_filter, Hinv|done].
Qed.

Lemma redraw_again lc map s s1 :
  styles_ lc ≠ [] → inv lc s → redraw_ lc map s = Ret tt s1 →
  ∃ s2, redraw_ lc map s1 = Ret tt s2 ∧ clusters_ s2 = clusters_ s1 ∧
        leftMarkers_ s2 = leftMarkers_ s1 ∧ store s2 = store s1.
Proof.
  intros Hst Hinv Hr.
  destruct (redraw_closed lc map s Hst Hinv) as (s1' & Hr' & Hinv1 & Hc1 & Hl1 & Hout & Hin).
  assert (s1' = s1) as -> by congruence. clear Hr'.
  unfold redraw_.
  rewrite (bind_Ret _ _ _ _ _ (getClustersInViewport_eq lc map s1)).
  set (V1 := filter _ (clusters_ s1)).
  destruct (redraw_loop_closed lc map V1 s1 Hst Hinv1) as (s2 & Hr2 & Hinv2 & Hc2 & Hl2 & Hs2).
  { intros a Ha. by apply list_elem_of_filter in Ha as [_ Ha]. }
  exists s2. split_and!; try done.
  rewrite Hs2. apply foldl_alter_id. intros a c1 Ha Hc1a.
  apply list_elem_of_filter in Ha as [Hinb Ha]. rewrite Hc1 in Ha.
  set (V := filter (λ a, cluster_in_bounds lc map (getBounds map) (store s) a) (clusters_ s))
    in *.
  destruct Hinv as [Hnd Hall]. destruct (Hall a Ha) as (c & Hc & Hg).
  destruct (redraw_good lc map true c Hst Hg) as [HN _].
  destruct (decide (a ∈ V)) as [HV|HV].
  - rewrite (Hin a c HV Hc) in Hc1a. injection Hc1a as <-. by apply redraw_settles.
  - exfalso. apply HV. apply list_elem_of_filter. split; [|done].
    unfold cluster_in_bounds in *. rewrite Hc1a in Hinb.
    rewrite (Hout a HV), Hc in Hc1a. injection Hc1a as <-. by rewrite Hc.
Qed.

(** * resetViewport twice under the same view *)

Lemma stale_zoom map st a c :
  st !! a = Some c → stale map st a = false ↔ Cluster.zoom_ c = getZoom map.
Proof.
  intros Hc. unfold stale. rewrite Hc, negb_false_iff, Z.eqb_eq. split; congruence.
Qed.

Lemma fresh_same lc map s s' :
  clusters_ s' = clusters_ s → store s' = store s →
  viewport_fresh lc map s → viewport_fresh lc map s'.
Proof. intros Hc Hs H a. rewrite Hc, Hs. apply H. Qed.

Lemma fresh_update lc map s a c c' lg :
  store s !! a = Some c →
  (Cluster.center_ c' = Cluster.center_ c ∧ Cluster.zoom_ c' = Cluster.zoom_ c) ∨
  Cluster.zoom_ c' = getZoom map →
  viewport_fresh lc map s →
  viewport_fresh lc map (mk (clusters_ s) (leftMarkers_ s) (<[a:=c']> (store s)) lg).
Proof.
  intros Hc Hc' H b Hb. cbn in *.
  assert (Hlt : a < length (store s)) by (by eapply lookup_lt_Some).
  destruct (decide (a = b)) as [<-|Hne].
  - unfold cluster_in_bounds.
    rewrite (stale_zoom _ _ _ c') by (by apply list_lookup_insert_eq).
    rewrite list_lookup_insert_eq by done.
    destruct Hc' as [[Hce Hz]|Hz]; [|done].
    intros Hin. rewrite (isInBounds_frame _ _ _ c c') in Hin by done.
    rewrite Hz. apply (stale_zoom map (store s) a c Hc). apply H; [done|].
    unfold cluster_in_bounds. by rewrite Hc.
  - unfold cluster_in_bounds, stale. rewrite !list_lookup_insert_ne by done. by apply H.
Qed.

Lemma fresh_push lc map s ref :
  inv lc s → viewport_fresh lc map s →
  viewport_fresh lc map (mk (clusters_ s ++ [length (store s)]) (leftMarkers_ s)
                            (store s ++ [Cluster.addMarker ref (Cluster.new map)]) (log s)).
Proof.
  intros Hinv H b [Hb| ->%list_elem_of_singleton]%elem_of_app; cbn.
  - assert (b < length (store s)) by (by eapply inv_lookup).
    unfold cluster_in_bounds, stale. rewrite !lookup_app_l by done. by apply H.
  - intros _. unfold stale. rewrite lookup_app_r by lia. rewrite Nat.sub_diag. cbn.
    by rewrite Z.eqb_refl.
Qed.

Lemma fresh_redraw lc map s a c f :
  store s !! a = Some c → viewport_fresh lc map s →
  viewport_fresh lc map (mk (clusters_ s) (leftMarkers_ s)
                            (<[a:=(Cluster.redraw_ lc map f c).1.1]> (store s))
                            (log s ++ (Cluster.redraw_ lc map f c).1.2)).
Proof.
  intros Hc H. apply (fresh_update lc map s a c); [done| |done].
  destruct (redraw_skip_or_forced lc map f c) as [-> | ->]; [by left|].
  right. apply redraw_forced_zoom.
Qed.

Lemma fresh_dissolve lc map s :
  NoDup (clusters_ s) → viewport_fresh lc map (dissolve lc map s).
Proof.
  intros Hnd a Ha. unfold dissolve in *. cbn in *.
  apply list_elem_of_filter in Ha as [Hnd' Ha].
  unfold cluster_in_bounds, stale.
  rewrite !foldl_alter_notin by done. intros Hin.
  destruct (stale map (store s) a) eqn:Hst; [|done]. exfalso. apply Hnd'.
  unfold dissolved. apply list_elem_of_filter. split; [by rewrite Hst|].
  apply list_elem_of_filter. split; [|done]. unfold cluster_in_bounds. by rewrite Hin.
Qed.

(** X14. [resetViewport] is idempotent under an unchanged view: in every
    state a session reaches, the first call leaves no pending marker and
    no cluster in the viewport with a zoom stamp other than the map's, and
    calling it a second time with the map as it was at the first call
    dissolves nothing, creates nothing and leaves every cluster, member,
    flag and badge exactly as the first call left them. *)
Theorem resetViewport_idempotent (map0 : Map) (opt_markers : option (list Marker))
    (opt_opts : option Options) (ops : list (Map * Op)) (map : Map) :
  let lc := configure opt_opts in
  let s := (session map0 opt_markers opt_opts ops).1 in
  ∃ s1 s2,
    resetViewport lc map s = Ret tt s1 ∧
    resetViewport lc map s1 = Ret tt s2 ∧
    leftMarkers_ s1 = [] ∧ viewport_fresh lc map s1 ∧
    clusters_ s2 = clusters_ s1 ∧ leftMarkers_ s2 = leftMarkers_ s1 ∧ store s2 = store s1.
Proof.
  intros lc s.
  pose proof (configure_styles opt_opts) as Hst. fold lc in Hst.
  destruct (session_inv map0 opt_markers opt_opts ops) as (Hinv & _). fold lc s in Hinv.
  (* the first call, phase by phase *)
  assert (∃ sb s1, resetViewport lc map s = Ret tt s1 ∧ redraw_ lc map sb = Ret tt s1 ∧
                   inv lc sb ∧ viewport_fresh lc map sb ∧ leftMarkers_ sb = []) 
    as (sb & s1 & Hr1 & Hrd & Hinvb & Hfb & Hlb).
  { unfold resetViewport.
    rewrite (bind_Ret _ _ _ _ _ (getClustersInViewport_eq lc map s)).
    rewrite (bind_Ret _ _ _ _ _
               (reset_loop_closed map _ [] s (NoDup_filter _ _ (proj1 Hinv)) (proj1 Hinv))).
    cbn zeta. fold (dissolved lc map s).
    change (mk _ _ _ _) with (dissolve lc map s).
    set (sd := dissolve lc map s). set (tmp := [] ++ _).
    assert (Hinvd : inv lc sd).
    { destruct (reset_loop_inv lc map
                  (filter (λ a, cluster_in_bounds lc map (getBounds map) (store s) a)
                     (clusters_ s)) [] s Hinv) as (tmp' & s' & Heq & Hinv' & _).
      { apply NoDup_filter, Hinv. }
      { intros a Ha. by apply list_elem_of_filter in Ha as [_ Ha]. }
      rewrite (reset_loop_closed map _ [] s (NoDup_filter _ _ (proj1 Hinv)) (proj1 Hinv)) in Heq.
      cbn zeta in Heq. injection Heq as _ <-. exact Hinv'. }
    pose proof (fresh_dissolve lc map s (proj1 Hinv)) as Hfd. fold sd in Hfd.
    unfold reAddMarkers_.
    assert (Hfill : ∀ map' s a c ref, map' = map → inv lc s → viewport_fresh lc map s →
              a ∈ clusters_ s → store s !! a = Some c →
              in_grid lc map' (latLngToLayerPoint map' (getLatLng (marker ref))) c = true →
              viewport_fresh lc map (mk (clusters_ s) (leftMarkers_ s)
                                        (<[a:=Cluster.addMarker ref c]> (store s)) (log s))).
    { intros map' s' a c ref -> Hinv' Hf' Ha Hc _.
      apply (fresh_update lc map s' a c); [done| |done]. left.
      destruct Hinv' as [_ Hall]. destruct (Hall a Ha) as (c0 & Hc0 & _ & [l Hl] & _).
      assert (c0 = c) as -> by congruence. unfold Cluster.addMarker. cbn. by rewrite Hl. }
    assert (Hpush : ∀ map' s ref, map' = map → inv lc s → viewport_fresh lc map s →
              viewport_fresh lc map (mk (clusters_ s ++ [length (store s)]) (leftMarkers_ s)
                 (store s ++ [Cluster.addMarker ref (Cluster.new map')]) (log s))).
    { intros map' s' ref -> Hinv' Hf'. by apply fresh_push. }
    assert (Hredraw : ∀ map' s a c f, map' = map → inv lc s → viewport_fresh lc map s →
              a ∈ clusters_ s → store s !! a = Some c →
              viewport_fresh lc map (mk (clusters_ s) (leftMarkers_ s)
                 (<[a:=(Cluster.redraw_ lc map' f c).1.1]> (store s))
                 (log s ++ (Cluster.redraw_ lc map' f c).1.2))).
    { intros map' s' a c f -> Hinv' Hf' Ha Hc. by apply fresh_redraw. }
    assert (Hdefer : ∀ s m, inv lc s → viewport_fresh lc map s →
              viewport_fresh lc map (mk (clusters_ s) (leftMarkers_ s ++ [m]) (store s) (log s))).
    { intros s' m _ Hf'. by eapply fresh_same. }
    assert (Hpend : ∀ s, inv lc s → viewport_fresh lc map s →
              viewport_fresh lc map (mk (clusters_ s) [] (store s) (log s))).
    { intros s' _ Hf'. by eapply fresh_same. }
    destruct (reach_reAddMarkers_loop lc (λ m, m = map) (viewport_fresh lc map) Hst
                Hdefer Hfill Hpush Hredraw map tmp (length tmp) [] sd eq_refl Hinvd Hfd)
      as (cl & s2 & Heq2 & Hinv2 & Hf2).
    { intros a Ha. by apply elem_of_nil in Ha. }
    destruct (reach_addLeftMarkers lc (λ m, m = map) (viewport_fresh lc map) Hst
                Hdefer Hfill Hpush Hredraw Hpend map s2 eq_refl Hinv2 Hf2)
      as (s3 & Heq3 & Hinv3 & Hf3).
    destruct (addLeftMarkers_inv lc map s2 Hst Hinv2) as (s3' & Heq3' & _ & Hl3 & _).
    assert (s3' = s3) as -> by congruence.
    destruct (redraw_inv lc map s3 Hst Hinv3) as (s4 & Heq4 & _).
    exists s3, s4.
    rewrite (bind_Ret _ _ sd tt s3).
    2: { rewrite (bind_Ret _ _ _ _ _ Heq2). exact Heq3. }
    done. }
  (* the state it leaves is fresh, and the second call only redraws *)
  destruct (redraw_closed lc map sb Hst Hinvb) as (s1' & Hrd' & Hinv1 & Hc1 & Hl1 & Hout & Hin).
  assert (s1' = s1) as -> by congruence.
  assert (Hf1 : viewport_fresh lc map s1).
  { intros a Ha Hinb. rewrite Hc1 in Ha.
    destruct Hinvb as [Hnd Hall]. destruct (Hall a Ha) as (c & Hc & Hg).
    set (V := filter (λ a, cluster_in_bounds lc map (getBounds map) (store sb) a) (clusters_ sb))
      in *.
    destruct (decide (a ∈ V)) as [HV|HV].
    - apply (stale_zoom map (store s1) a _ (Hin a c HV Hc)). apply redraw_forced_zoom.
    - exfalso. apply HV. apply list_elem_of_filter. split; [|done].
      unfold cluster_in_bounds in *. rewrite (Hout a HV) in Hinb. by rewrite Hinb. }
  destruct (redraw_again lc map sb s1 Hst Hinvb Hrd) as (s2 & Hr2 & Hc2 & Hl2 & Hs2).
  exists s1, s2. split_and!; try done; [|congruence].
  rewrite (resetViewport_fresh lc map s1 (proj1 Hinv1) Hf1).
  assert (addLeftMarkers_ lc map s1 = Ret tt s1) as Hnop.
  { unfold addLeftMarkers_. unfold mbind at 1, M_bind at 1, get at 1.
    rewrite Hl1, Hlb. done. }
  by rewrite (bind_Ret _ _ _ _ _ Hnop).
Qed.

(** * The theorems above at sample inputs *)


Lemma reset_idempotent_witness :
  (ClusterMarker_.reset (ClusterMarker_.mkOpts None 12 None None) w_badge).2 = Normal ∧
  ClusterMarker_.reset (ClusterMarker_.mkOpts None 12 None None)
    (ClusterMarker_.reset (ClusterMarker_.mkOpts None 12 None None) w_badge).1
  = ((ClusterMarker_.reset (ClusterMarker_.mkOpts None 12 None None) w_badge).1, Normal).
Proof.
  split; [reflexivity|].
  apply (reset_idempotent (ClusterMarker_.mkOpts None 12 None None) w_badge). reflexivity.
Defined.

Lemma resetViewport_same_zoom_witness :
  NoDup (clusters_ w_state1) ∧
  (∀ a, a ∈ clusters_ w_state1 →
        cluster_in_bounds w_lc (w_map 10) (getBounds (w_map 10)) (store w_state1) a = true →
        stale (w_map 10) (store w_state1) a = false) ∧
  resetViewport w_lc (w_map 10) w_state1
  = (addLeftMarkers_ w_lc (w_map 10);; redraw_ w_lc (w_map 10)) w_state1.
Proof.
  assert (NoDup (clusters_ w_state1)) as H1.
  { refine (bool_decide_unpack _ _). vm_compute. exact I. }
  assert (∀ a, a ∈ clusters_ w_state1 →
            cluster_in_bounds w_lc (w_map 10) (getBounds (w_map 10)) (store w_state1) a = true →
            stale (w_map 10) (store w_state1) a = false) as H2.
  { assert (Forall (λ a, stale (w_map 10) (store w_state1) a = false) (clusters_ w_state1)) as HF.
    { vm_compute. repeat constructor. }
    intros a Ha _. rewrite Forall_forall in HF. by apply HF. }
  split; [exact H1|]. split; [exact H2|].
  exact (resetViewport_same_zoom w_lc (w_map 10) w_state1 H1 H2).
Defined.

(** X15. In every state a session reaches, [redraw_] completes normally
    and touches the clusters of the viewport snapshot only: each cluster of
    the global list that [isInBounds] reports for the map's bounds is
    replaced by its forced redraw and stamped with the map's zoom, every
    other cluster (and the global list and the pending list) stays as it
    was. A second [redraw_] under the same map changes no cluster. *)
Theorem redraw_viewport_only (map0 : Map) (opt_markers : option (list Marker))
    (opt_opts : option Options) (ops : list (Map * Op)) (map : Map) :
  let lc := configure opt_opts in
  let s := (session map0 opt_markers opt_opts ops).1 in
  let V := filter (λ a, cluster_in_bounds lc map (getBounds map) (store s) a) (clusters_ s) in
  ∃ s1 s2,
    redraw_ lc map s = Ret tt s1 ∧
    clusters_ s1 = clusters_ s ∧ leftMarkers_ s1 = leftMarkers_ s ∧
    (∀ a, a ∉ V → store s1 !! a = store s !! a) ∧
    (∀ a c, a ∈ V → store s !! a = Some c →
            store s1 !! a = Some (Cluster.redraw_ lc map true c).1.1 ∧
            Cluster.zoom_ (Cluster.redraw_ lc map true c).1.1 = getZoom map) ∧
    redraw_ lc map s1 = Ret tt s2 ∧
    clusters_ s2 = clusters_ s1 ∧ leftMarkers_ s2 = leftMarkers_ s1 ∧ store s2 = store s1.
Proof.
  intros lc s V.
  pose proof (configure_styles opt_opts) as Hst. fold lc in Hst.
  destruct (session_inv map0 opt_markers opt_opts ops) as (Hinv & _). fold lc s in Hinv.
  destruct (redraw_closed lc map s Hst Hinv) as (s1 & Hr & Hinv1 & Hc1 & Hl1 & Hout & Hin).
  destruct (redraw_again lc map s s1 Hst Hinv Hr) as (s2 & Hr2 & Hc2 & Hl2 & Hs2).
  exists s1, s2. split_and!; try done.
  intros a c Ha Hc. split; [by apply Hin|apply redraw_forced_zoom].
Qed.

(** * The [updated] flag of a badge *)

Lemma reset_updated_kept o b :
  ClusterMarker_.updated b = true → ClusterMarker_.updated (ClusterMarker_.reset o b).1 = true.
Proof.
  destruct o as [ol n os op], b as [l s c i st p u h ih]. cbn. intros ->.
  unfold ClusterMarker_.reset. cbn.
  destruct ol as [l'|]; [destruct (bool_decide _)|];
  (destruct os as [s'|]; [destruct (bool_decide _)|]); cbn;
  (destruct (bool_decide _); cbn);
  repeat match goal with
  | |- context [ClusterMarker_.style_at ?a ?b] => destruct (ClusterMarker_.style_at a b)
  end; cbn; try done;
  (destruct op as [p'|]; [destruct (bool_decide _)|]); done.
Qed.

Lemma badge_step_updated b op :
  ClusterMarker_.updated b = true → ClusterMarker_.updated (badge_step b op) = true.
Proof.
  intros H. destruct op as [o| | |]; cbn.
  - by apply reset_updated_kept.
  - unfold ClusterMarker_.redraw. by rewrite H.
  - done.
  - done.
Qed.

Lemma reset_styles_updated o b b' styles :
  ClusterMarker_.o_styles o = Some styles → ClusterMarker_.styles_ b ≠ Some styles →
  ClusterMarker_.reset o b = (b', Normal) → ClusterMarker_.updated b' = true.
Proof.
  destruct o as [ol n os op], b as [l s c i st p u h ih].
  cbn [ClusterMarker_.o_styles ClusterMarker_.styles_]. intros -> Hne.
  unfold ClusterMarker_.reset.
  cbn [ClusterMarker_.o_latLng ClusterMarker_.o_styles ClusterMarker_.o_count
       ClusterMarker_.o_padding ClusterMarker_.latlng_ ClusterMarker_.styles_
       ClusterMarker_.count_ ClusterMarker_.index_ ClusterMarker_.style_
       ClusterMarker_.padding_ ClusterMarker_.updated ClusterMarker_.hidden
       ClusterMarker_.innerHTML].
  destruct ol as [l'|]; [destruct (bool_decide (l ≠ Some l'))|];
  rewrite (bool_decide_true (s ≠ Some styles)) by done;
  cbn [ClusterMarker_.latlng_ ClusterMarker_.styles_
       ClusterMarker_.count_ ClusterMarker_.index_ ClusterMarker_.style_
       ClusterMarker_.padding_ ClusterMarker_.updated ClusterMarker_.hidden
       ClusterMarker_.innerHTML];
  rewrite orb_true_r;
  (destruct (ClusterMarker_.style_at _ _); [|done]);
  (destruct op as [p'|]; [destruct (bool_decide (_ ≠ Some p'))|]); cbn; intros [= <-]; cbn;
  by rewrite ?orb_true_r.
Qed.

Lemma initialize_updated center n styles pad b :
  ClusterMarker_.initialize center n styles pad = (b, Normal) →
  ClusterMarker_.updated b = true.
Proof.
  unfold ClusterMarker_.initialize. by apply (reset_styles_updated _ _ _ styles).
Qed.

(** X16. A badge that was constructed has its [updated] flag set, and
    nothing ever clears it: not [reset] (failed or not), [redraw], [hide]
    or [show]. So every [redraw] of the badge drops its element and builds a
    new one, which is visible and displays the current count: a badge that
    was hidden is visible again after the next [redraw]. *)
Theorem badge_redraw_unhides (center : option LatLng) (n : nat) (styles : list Style)
    (pad : Q) (ops : list BadgeOp) :
  (ClusterMarker_.initialize center n styles pad).2 = Normal →
  let b0 := ClusterMarker_.onAdd (ClusterMarker_.initialize center n styles pad).1 in
  let b := badge_run ops b0 in
  ClusterMarker_.updated b = true ∧
  ClusterMarker_.isHidden (ClusterMarker_.hide b) = true ∧
  ClusterMarker_.isHidden (ClusterMarker_.redraw (ClusterMarker_.hide b)) = false ∧
  ClusterMarker_.innerHTML (ClusterMarker_.redraw b) = ClusterMarker_.count_ b.
Proof.
  intros HN b0 b.
  assert (ClusterMarker_.updated b0 = true) as H0.
  { subst b0. destruct (ClusterMarker_.initialize center n styles pad) as [b1 r] eqn:E.
    cbn in HN. subst r. apply initialize_updated in E. done. }
  assert (ClusterMarker_.updated b = true) as Hu.
  { subst b. clearbody b0. revert b0 H0. induction ops as [|op ops IH]; intros b0 H0; [done|].
    cbn. apply IH. by apply badge_step_updated. }
  split_and!; try done.
  - unfold ClusterMarker_.redraw, ClusterMarker_.hide, ClusterMarker_.set_hidden. cbn.
    by rewrite Hu.
  - unfold ClusterMarker_.redraw. by rewrite Hu.
Qed.

Lemma badge_redraw_unhides_witness :
  (ClusterMarker_.initialize (Some (mkLatLng 0 0)) 2 default_styles 20).2 = Normal ∧
  ClusterMarker_.isHidden
    (ClusterMarker_.redraw
       (ClusterMarker_.hide
          (badge_run [BHide; BReset (ClusterMarker_.mkOpts None 3 None None)]
             (ClusterMarker_.onAdd
                (ClusterMarker_.initialize (Some (mkLatLng 0 0)) 2 default_styles 20).1))))
  = false.
Proof.
  split; [reflexivity|].
  apply (badge_redraw_unhides (Some (mkLatLng 0 0)) 2 default_styles 20
           [BHide; BReset (ClusterMarker_.mkOpts None 3 None None)] eq_refl).
Defined.

(** * Which members are on the map *)






































(** * Cluster centers keep apart while the zoom does not change *)


















